(** * Streamer-GOLIVE-Bot: the live-detection engine of [index.js]

    A shallow embedding of the [StreamMonitorBot] class: the per-platform
    checkers, the Twitch token slot, the Kick request pacing, the
    notification, the [liveStatus] map and the [checkAllStreams] cycle,
    together with the [track], [remove] and [list] command handlers and
    the loading of the data file.

    The class keeps its state in the fields of [this]; here that is the
    record [Bot], threaded through a state-and-exception monad [M].  The
    outside world (HTTP endpoints, the clock and its timers,
    [Math.random], the environment variables) is a record [World] of
    oracles. *)

From Stdlib Require Import ZArith NArith String Ascii List Bool Lia.
From stdpp Require Import gmap strings list.

Local Open Scope Z_scope.
Local Open Scope string_scope.

(** ** JavaScript values used by the code *)

Module Js.

(** [s.startsWith(p)] *)
Definition startsWith (p s : string) : bool := String.prefix p s.

(** [s.includes(sub)] *)
Fixpoint includes (sub s : string) : bool :=
  String.prefix sub s ||
  match s with
  | EmptyString => false
  | String _ s' => includes sub s'
  end.

Definition lower_ascii (c : ascii) : ascii :=
  let n := nat_of_ascii c in
  if (Nat.leb 65 n && Nat.leb n 90)%bool then ascii_of_nat (n + 32) else c.

(** [s.toLowerCase()], on the ASCII letters. *)
Fixpoint toLowerCase (s : string) : string :=
  match s with
  | EmptyString => EmptyString
  | String c s' => String (lower_ascii c) (toLowerCase s')
  end.

(** Truthiness of a value that is a string, [null] or [undefined]:
    only a non-empty string is truthy. *)
Definition truthy (v : option string) : bool :=
  match v with
  | Some s => negb (String.eqb s "")
  | None => false
  end.

(** [v?.toLowerCase().includes(sub)] used as a condition: [undefined]
    is falsy. *)
Definition opt_lower_includes (sub : string) (v : option string) : bool :=
  match v with
  | Some s => includes sub (toLowerCase s)
  | None => false
  end.

(** [s.length]: the number of UTF-16 code units of [s].  A string is
    held here as its UTF-8 bytes: a byte that opens a character of one
    to three bytes counts for one unit, a byte that opens a character of
    four bytes (a character beyond the basic plane, two units in
    UTF-16) for two, and a continuation byte for none. *)
Definition utf16_units (c : ascii) : nat :=
  let n := nat_of_ascii c in
  if Nat.ltb n 128 then 1
  else if Nat.ltb n 192 then 0
  else if Nat.ltb n 240 then 1
  else 2.

Fixpoint length (s : string) : nat :=
  match s with
  | EmptyString => 0
  | String c s' => utf16_units c + length s'
  end.

Definition upper_ascii (c : ascii) : ascii :=
  let n := nat_of_ascii c in
  if (Nat.leb 97 n && Nat.leb n 122)%bool then ascii_of_nat (n - 32) else c.

(** [s.charAt(0).toUpperCase() + s.slice(1)], on the ASCII letters. *)
Definition capitalize (s : string) : string :=
  match s with
  | EmptyString => EmptyString
  | String c rest => String (upper_ascii c) rest
  end.

(** The double-quote character, for the literal ['"livestream"']. *)
Definition dquote : string := String (ascii_of_nat 34) EmptyString.

(** What a JSON field can hold, as far as [x !== null] and [if (x)]
    tell: [null], [undefined] (field missing) or some object. *)
Inductive Field := FNull | FUndefined | FObject.

Definition strict_ne_null (f : Field) : bool :=
  match f with FNull => false | _ => true end.

End Js.

(** ** Errors and completions *)

(** The error object a rejected [axios] call or a [throw] carries: the
    code reads [error.response?.status], [error.code] and
    [error.message].  [err_status = None] is an error without a response
    (network failure, timeout, or an exception raised while reading a
    response). *)
Record JsError := mkError {
  err_status : option Z;
  err_code : option string;
  err_message : string
}.

(** [error.response?.status === status] and [error.code === code] *)
Definition status_is (error : JsError) (status : Z) : bool :=
  match err_status error with
  | Some st => Z.eqb st status
  | None => false
  end.

Definition code_is (error : JsError) (code : string) : bool :=
  match err_code error with
  | Some c => String.eqb c code
  | None => false
  end.

(** How [await axios.get(...)] settles. *)
Inductive Axios (A : Type) :=
| Resolved (a : A)
| Rejected (e : JsError).
Arguments Resolved {A} a.
Arguments Rejected {A} e.

(** How a statement or call completes. *)
Inductive Completion (A : Type) :=
| Normal (a : A)
| Thrown (e : JsError).
Arguments Normal {A} a.
Arguments Thrown {A} e.

(** ** Data model *)

(** The value stored in [monitoredUsers] by [handleTrackCommand]. *)
Record User := mkUser {
  platform : string;
  username : string;
  displayName : string;
  addedAt : Z;
  resolvedId : option string
}.

(** [cheerio] selections the scrapers look at. *)
Inductive Selector :=
| SelTitle                (* 'title' *)
| SelOgTitle              (* 'meta[property=og:title]' *)
| SelMetaDescription      (* 'meta[name=description]' *)
| SelLdJson               (* 'script[type=application/ld+json]' *)
| SelLiveRoom             (* '.live-room' *)
| SelE2eLiveRoom          (* '[data-e2e=live-room]' *)
| SelLiveStream           (* '.live-stream' *)
| SelTestidLiveStream     (* '[data-testid=live-stream]' *)
| SelBody                 (* 'body' *)
| SelLiveContainer        (* '.live-container' *)
| SelClassLive            (* '[class*=live]' *)
| SelClassRoom            (* '[class*=room]' *)
| SelLiveIndicator        (* '.live-indicator' *)
| SelTestidLiveIndicator  (* '[data-testid=live-indicator]' *)
| SelLivestreamContainer  (* '.livestream-container' *)
| SelVideo                (* 'video' *)
| SelScript.              (* 'script' *)

(** What [$(selector)] gives: [.length], [.text()] and
    [.attr('content')]. *)
Record Selection := mkSelection {
  sel_length : nat;
  sel_text : string;
  sel_content : option string
}.

(** A fetched page: the parsed document and
    [response.request.res.responseUrl]. *)
Record Page := mkPage {
  document : Selector -> Selection;
  responseUrl : option string
}.

(** HTTP requests the bot issues. *)
Inductive Request :=
| YouTubeSearchChannel (q : string)
| YouTubeChannels (forUsername : string)
| YouTubeSearchLive (channelId : string)
| TwitchToken
| TwitchStreams (user_login : string) (bearer : option string)
| TwitchUsers (login : string) (bearer : option string)
| TikTokLivePage (user : string)
| KickChannelApi (user : string) (userAgent : nat)
| KickChannelPage (user : string) (userAgent : nat)
| Webhook (title url : string).

(** Lines written to the console that the properties mention.
    [LogChecking] is the line of a checker that announces each of its
    calls; no function of the repository writes it. *)
Inductive Diag :=
| LogChecking (platform username : string)
| LogWentLive (displayName platform : string)
| LogWentOffline (displayName platform : string)
| LogErrorChecking (username platform : string)
| LogYouTubeNoKey
| LogYouTubeUnresolved (input : string)
| LogYouTubeError (input : string)
| LogYouTubeResolveError (input : string)
| LogTwitchError
| LogTwitchTokenError
| LogTikTokResult (user : string) (live : bool)
| LogTikTokNotFound (user : string)
| LogTikTokBlocked (user : string)
| LogTikTokTimeout (user : string)
| LogTikTokError (user : string)
| LogKick403 (user : string)
| LogKickApiFailed (user : string)
| LogKickAllFailed (user : string)
| LogKickScrapeResult (user : string) (live : bool)
| LogKickScrapeFailed (user : string)
| LogWebhookError.

(** Calls [checkAllStreams] makes to its two collaborators, in order. *)
Inductive Call :=
| CallCheck (key : string) (platform username : string)
| CallNotify (key : string) (user : User).

(** The fields of [this] that the engine uses, followed by the
    environment the run has produced so far: the clock read by
    [Date.now()], the number of suspensions ([await]s) passed, the
    requests dispatched with their dispatch times, the console, and the
    collaborator calls of the scheduler. *)
Record Bot := mkBot {
  monitoredUsers : list (string * User);
  liveStatus : gmap string bool;
  twitchToken : option string;
  lastKickRequest : Z;
  clock : Z;
  suspensions : nat;
  requests : list (Z * Request);
  console : list Diag;
  journal : list Call
}.

(** The outside world.  Every oracle takes the number of suspensions
    passed so far, so the same request may be answered differently at
    different times.  [elapsed] is the time a suspension lasts beyond
    its minimum, [timer_early] the time by which a timer fires ahead of
    its delay. *)
Record World := mkWorld {
  YOUTUBE_API_KEY : option string;
  youtube_search_channel : nat -> string -> Axios (list string);
  youtube_channels : nat -> string -> Axios (list string);
  youtube_search_live : nat -> string -> Axios (list string);
  twitch_token : nat -> Axios (option string);
  twitch_streams : nat -> string -> option string -> Axios (list string);
  twitch_users : nat -> string -> option string -> Axios (list string);
  tiktok_page : nat -> string -> Axios Page;
  kick_api : nat -> string -> Axios Js.Field;
  kick_page : nat -> string -> Axios Page;
  webhook : nat -> Axios unit;
  TWITCH_CONFIGURED : bool;
  random : nat -> nat;
  elapsed : nat -> N;
  timer_early : nat -> N
}.

(** ** The monad *)

Definition M (A : Type) : Type := Bot -> Completion A * Bot.

Definition ret {A} (a : A) : M A := fun s => (Normal a, s).

Definition bind {A B} (m : M A) (k : A -> M B) : M B :=
  fun s =>
    match m s with
    | (Normal a, s') => k a s'
    | (Thrown e, s') => (Thrown e, s')
    end.

Definition throw {A} (e : JsError) : M A := fun s => (Thrown e, s).

(** [try { m } catch (error) { h error }] *)
Definition try_catch {A} (m : M A) (h : JsError -> M A) : M A :=
  fun s =>
    match m s with
    | (Normal a, s') => (Normal a, s')
    | (Thrown e, s') => h e s'
    end.

Notation "'let!' x ':=' c 'in' k" := (bind c (fun x => k))
  (at level 10, x name, c at level 100, k at level 200).
Notation "c ';;' k" := (bind c (fun _ => k))
  (at level 100, k at level 200, right associativity).

Definition get : M Bot := fun s => (Normal s, s).
Definition modify (f : Bot -> Bot) : M unit := fun s => (Normal tt, f s).

(** Field updates. *)
Definition with_monitoredUsers (v : list (string * User)) (s : Bot) : Bot :=
  mkBot v (liveStatus s) (twitchToken s) (lastKickRequest s) (clock s)
        (suspensions s) (requests s) (console s) (journal s).
Definition with_liveStatus (v : gmap string bool) (s : Bot) : Bot :=
  mkBot (monitoredUsers s) v (twitchToken s) (lastKickRequest s) (clock s)
        (suspensions s) (requests s) (console s) (journal s).
Definition with_twitchToken (v : option string) (s : Bot) : Bot :=
  mkBot (monitoredUsers s) (liveStatus s) v (lastKickRequest s) (clock s)
        (suspensions s) (requests s) (console s) (journal s).
Definition with_lastKickRequest (v : Z) (s : Bot) : Bot :=
  mkBot (monitoredUsers s) (liveStatus s) (twitchToken s) v (clock s)
        (suspensions s) (requests s) (console s) (journal s).
Definition with_console (v : list Diag) (s : Bot) : Bot :=
  mkBot (monitoredUsers s) (liveStatus s) (twitchToken s) (lastKickRequest s)
        (clock s) (suspensions s) (requests s) v (journal s).
Definition with_journal (v : list Call) (s : Bot) : Bot :=
  mkBot (monitoredUsers s) (liveStatus s) (twitchToken s) (lastKickRequest s)
        (clock s) (suspensions s) (requests s) (console s) v.

(** [console.log] / [console.error] *)
Definition log (d : Diag) : M unit :=
  modify (fun s => with_console (console s ++ [d]) s).

Definition noteCall (c : Call) : M unit :=
  modify (fun s => with_journal (journal s ++ [c]) s).

(** [Date.now()] *)
Definition Date_now : M Z := fun s => (Normal (clock s), s).

(** Time passing and requests going out. *)
Definition with_time (t : Z) (n : nat) (s : Bot) : Bot :=
  mkBot (monitoredUsers s) (liveStatus s) (twitchToken s) (lastKickRequest s)
        t n (requests s) (console s) (journal s).
Definition with_requests (v : list (Z * Request)) (s : Bot) : Bot :=
  mkBot (monitoredUsers s) (liveStatus s) (twitchToken s) (lastKickRequest s)
        (clock s) (suspensions s) v (console s) (journal s).

Section Engine.

Variable w : World.

(** One suspension that lasts at least [ms] milliseconds: the clock
    moves on by [ms] plus whatever the world adds. *)
Definition suspend (ms : Z) : M unit :=
  modify (fun s =>
    with_time (clock s + ms + Z.of_N (elapsed w (suspensions s)))
              (S (suspensions s)) s).

(** The delay Node arms a timer with: a delay below 1 or above
    2^31 - 1 is replaced by 1. *)
Definition timerDelay (ms : Z) : Z :=
  if (Z.leb 1 ms && Z.leb ms 2147483647)%bool then ms else 1.

(** [await new Promise(resolve => setTimeout(resolve, ms))]: the caller
    resumes when the timer fires.  On the [Date.now()] clock a timer
    may fire ahead of its delay (by [timer_early], never by more than
    the delay itself) or after it (by [elapsed]). *)
Definition sleep (ms : Z) : M unit :=
  fun s =>
    suspend (timerDelay ms -
             Z.min (timerDelay ms) (Z.of_N (timer_early w (suspensions s)))) s.

(** [await axios.get(...)] / [await axios.post(...)]: the request is
    dispatched now, the caller is suspended, and the call settles as
    the world says: a rejection is thrown at the [await]. *)
Definition axios {A} (req : Request) (answer : nat -> Axios A) : M A :=
  fun s =>
    let s1 := with_requests (requests s ++ [(clock s, req)]) s in
    match suspend 0 s1 with
    | (_, s2) =>
        match answer (suspensions s) with
        | Resolved a => (Normal a, s2)
        | Rejected e => (Thrown e, s2)
        end
    end.

(** *** YouTube *)

Definition resolveYouTubeChannel (input : string) : M (option string) :=
  try_catch
    (let! items := axios (YouTubeSearchChannel input)
                         (fun n => youtube_search_channel w n input) in
     match items with
     | channelId :: _ => ret (Some channelId)
     | [] =>
         let! items := axios (YouTubeChannels input)
                             (fun n => youtube_channels w n input) in
         match items with
         | id :: _ => ret (Some id)
         | [] => ret None
         end
     end)
    (fun _ => log (LogYouTubeResolveError input);; ret None).

Definition checkYouTubeLive (channelInput : string) : M bool :=
  if negb (Js.truthy (YOUTUBE_API_KEY w)) then
    log LogYouTubeNoKey;; ret false
  else
    try_catch
      (let search channelId :=
         let! items := axios (YouTubeSearchLive channelId)
                             (fun n => youtube_search_live w n channelId) in
         ret (Nat.ltb 0 (length items)) in
       if negb (Js.startsWith "UC" channelInput) then
         let! channelId := resolveYouTubeChannel channelInput in
         if negb (Js.truthy channelId) then
           log (LogYouTubeUnresolved channelInput);; ret false
         else search (default "" channelId)
       else search channelInput)
      (fun _ => log (LogYouTubeError channelInput);; ret false).

(** *** Twitch *)

Definition getTwitchToken : M unit :=
  try_catch
    (let! access_token := axios TwitchToken (twitch_token w) in
     modify (with_twitchToken access_token))
    (fun _ => log LogTwitchTokenError).

Definition checkTwitchLive (user : string) : M bool :=
  try_catch
    (let! s := get in
     (if negb (Js.truthy (twitchToken s)) then getTwitchToken else ret tt);;
     let! s := get in
     let! data := axios (TwitchStreams user (twitchToken s))
                        (fun n => twitch_streams w n user (twitchToken s)) in
     ret (Nat.ltb 0 (length data)))
    (fun _ => log LogTwitchError;; ret false).

(** *** TikTok *)

Definition tiktok_indicators (p : Page) : list bool :=
  let sel := document p in
  [ Js.includes "live" (Js.toLowerCase (sel_text (sel SelTitle)));
    Js.opt_lower_includes "live" (sel_content (sel SelOgTitle));
    Js.opt_lower_includes "live" (sel_content (sel SelMetaDescription));
    Nat.ltb 0 (sel_length (sel SelLdJson)) &&
      Js.includes "live" (Js.toLowerCase (sel_text (sel SelLdJson)));
    Nat.ltb 0 (sel_length (sel SelLiveRoom));
    Nat.ltb 0 (sel_length (sel SelE2eLiveRoom));
    Nat.ltb 0 (sel_length (sel SelLiveStream));
    Nat.ltb 0 (sel_length (sel SelTestidLiveStream));
    Js.includes "is live" (Js.toLowerCase (sel_text (sel SelBody)));
    Js.includes "live now" (Js.toLowerCase (sel_text (sel SelBody)));
    Nat.ltb 0 (sel_length (sel SelLiveContainer));
    Nat.ltb 0 (sel_length (sel SelClassLive)) &&
      Nat.ltb 0 (sel_length (sel SelClassRoom)) ].

(** [indicators.some(indicator => indicator)] *)
Definition some (l : list bool) : bool := existsb (fun b => b) l.

Definition checkTikTokLive (user : string) : M bool :=
  try_catch
    (let! p := axios (TikTokLivePage user) (fun n => tiktok_page w n user) in
     let isLive := some (tiktok_indicators p) in
     if Js.truthy (responseUrl p) &&
        negb (Js.includes "/live" (default "" (responseUrl p)))
     then ret false
     else log (LogTikTokResult user isLive);; ret isLive)
    (fun error =>
       (if status_is error 404 then log (LogTikTokNotFound user)
        else if status_is error 403 then log (LogTikTokBlocked user)
        else if code_is error "ECONNABORTED" then log (LogTikTokTimeout user)
        else log (LogTikTokError user));;
       ret false).

(** *** Kick *)

Definition kickRequestDelay : Z := 3000.

(** [userAgents[Math.floor(Math.random() * userAgents.length)]], as
    an index into a pool of [size] entries. *)
Definition randomUA (size : nat) : M nat :=
  fun s => (Normal (random w (suspensions s) mod size)%nat, s).

(** Returns [true]/[false] for an answered call and [null] (here
    [None]) for a 403; rethrows anything else. *)
Definition tryKickAPI (user : string) : M (option bool) :=
  try_catch
    (let! ua := randomUA 4 in
     let! livestream := axios (KickChannelApi user ua)
                              (fun n => kick_api w n user) in
     ret (Some (Js.strict_ne_null livestream)))
    (fun error =>
       if status_is error 403 then log (LogKick403 user);; ret None
       else throw error).

Definition kick_indicators (p : Page) : list bool :=
  let sel := document p in
  [ Js.includes "live" (Js.toLowerCase (sel_text (sel SelTitle)));
    Js.opt_lower_includes "live" (sel_content (sel SelOgTitle));
    Js.opt_lower_includes "live" (sel_content (sel SelMetaDescription));
    Nat.ltb 0 (sel_length (sel SelLiveIndicator));
    Nat.ltb 0 (sel_length (sel SelTestidLiveIndicator));
    Nat.ltb 0 (sel_length (sel SelLivestreamContainer));
    Js.includes "is live" (Js.toLowerCase (sel_text (sel SelBody)));
    Js.includes "live now" (Js.toLowerCase (sel_text (sel SelBody)));
    Nat.ltb 0 (sel_length (sel SelVideo)) &&
      Js.includes "live" (Js.toLowerCase (sel_text (sel SelBody)));
    Js.includes (Js.dquote ++ "livestream" ++ Js.dquote)
                (sel_text (sel SelScript)) &&
      Js.includes "true" (sel_text (sel SelScript)) ].

Definition tryKickWebScraping (user : string) : M bool :=
  try_catch
    (let! ua := randomUA 2 in
     let! p := axios (KickChannelPage user ua) (fun n => kick_page w n user) in
     let isLive := some (kick_indicators p) in
     log (LogKickScrapeResult user isLive);; ret isLive)
    (fun _ => log (LogKickScrapeFailed user);; ret false).

(** The rate limiting that opens [checkKickLive]. *)
Definition kickRateLimit : M unit :=
  let! now := Date_now in
  let! s := get in
  let timeSinceLastRequest := now - lastKickRequest s in
  (if Z.ltb timeSinceLastRequest kickRequestDelay
   then sleep (kickRequestDelay - timeSinceLastRequest)
   else ret tt);;
  let! t := Date_now in
  modify (with_lastKickRequest t).

Definition checkKickLive (user : string) : M bool :=
  kickRateLimit;;
  try_catch
    (let! response := tryKickAPI user in
     match response with
     | Some true => ret true
     | _ =>
         log (LogKickApiFailed user);;
         tryKickWebScraping user
     end)
    (fun _ => log (LogKickAllFailed user);; ret false).

(** *** Dispatch *)

Definition checkStreamStatus (platform user : string) : M bool :=
  if String.eqb platform "youtube" then checkYouTubeLive user
  else if String.eqb platform "twitch" then checkTwitchLive user
  else if String.eqb platform "tiktok" then checkTikTokLive user
  else if String.eqb platform "kick" then checkKickLive user
  else ret false.

End Engine.

(** ** [Map], as [monitoredUsers] uses it: entries in insertion order,
    one per key. *)

Module JsMap.

Definition t (V : Type) : Type := list (string * V).

Definition get {V} (key : string) (m : t V) : option V :=
  match List.find (fun e => String.eqb (fst e) key) m with
  | Some e => Some (snd e)
  | None => None
  end.

Definition has {V} (key : string) (m : t V) : bool :=
  List.existsb (fun e => String.eqb (fst e) key) m.

(** [m.set(key, v)]: an existing key keeps its place. *)
Definition set {V} (key : string) (v : V) (m : t V) : t V :=
  if has key m
  then List.map (fun e => if String.eqb (fst e) key then (key, v) else e) m
  else (m ++ [(key, v)])%list.

Definition delete {V} (key : string) (m : t V) : t V :=
  List.filter (fun e => negb (String.eqb (fst e) key)) m.

Definition keys {V} (m : t V) : list string := List.map fst m.

End JsMap.

(** ** Notification *)

Definition generateYouTubeUrl (channelInput : string) : string :=
  if Js.startsWith "UC" channelInput
  then "https://youtube.com/channel/" ++ channelInput ++ "/live"
  else "https://youtube.com/@" ++ channelInput ++ "/live".

Definition generateLiveUrl (platform user : string) : string :=
  if String.eqb platform "youtube" then generateYouTubeUrl user
  else if String.eqb platform "twitch" then "https://twitch.tv/" ++ user
  else if String.eqb platform "tiktok" then "https://tiktok.com/@" ++ user ++ "/live"
  else if String.eqb platform "kick" then "https://kick.com/" ++ user
  else "#".

(** *** Embeds *)

(** [EmbedBuilder] checks every value it is given and throws when one
    is out of range: a title and a field name take 1 to 256 UTF-16 code
    units, a description 1 to 4096, a field value 1 to 1024, an embed
    at most 25 fields, and a URL must parse as one with the scheme
    [http] or [https].  Of the URLs [generateLiveUrl] returns, those of
    the four platforms parse (scheme and host are fixed) and ["#"] does
    not. *)
Module Embed.

Definition within (lo hi : nat) (s : string) : bool :=
  Nat.leb lo (Js.length s) && Nat.leb (Js.length s) hi.

Definition title_ok : string -> bool := within 1 256.
Definition description_ok : string -> bool := within 1 4096.
Definition field_name_ok : string -> bool := within 1 256.
Definition field_value_ok : string -> bool := within 1 1024.
Definition max_fields : nat := 25.

Definition url_ok (url : string) : bool :=
  Js.startsWith "http://" url || Js.startsWith "https://" url.

(** The error a refused value is thrown with. *)
Definition refused : JsError := mkError None None "Invalid embed value".

End Embed.

Definition liveTitle (user : User) : string :=
  "🔴 " ++ displayName user ++ " is now LIVE!".

Definition liveDescription (user : User) : string :=
  displayName user ++ " just went live on " ++ Js.capitalize (platform user).

(** Whether the chain [setTitle], [setDescription], [setURL],
    [addFields] of [sendLiveNotification] runs through. *)
Definition liveEmbed_ok (user : User) : bool :=
  Embed.title_ok (liveTitle user) &&
  Embed.description_ok (liveDescription user) &&
  Embed.url_ok (generateLiveUrl (platform user) (username user)) &&
  (Embed.field_name_ok "Platform" &&
   Embed.field_value_ok (Js.capitalize (platform user))).

Section Notification.

Variable w : World.

(** The embed is built from the user, outside the [try]: a value the
    builder refuses is thrown to the caller.  The embed is then posted
    to the webhook; a failed post is logged and swallowed. *)
Definition sendLiveNotification (user : User) : M unit :=
  let liveUrl := generateLiveUrl (platform user) (username user) in
  if negb (liveEmbed_ok user) then throw Embed.refused
  else
    try_catch
      (axios w (Webhook (liveTitle user) liveUrl) (webhook w))
      (fun _ => log LogWebhookError).

End Notification.

(** ** The check cycle *)

Section Scheduler.

(** The two collaborators of the cycle: the platform check and the
    notification hand-off.  Either may throw. *)
Variable check : string -> string -> M bool.
Variable notify : User -> M unit.

(** [this.liveStatus.get(key) || false] *)
Definition wasLive (key : string) (s : Bot) : bool :=
  default false (liveStatus s !! key).

(** The body of the [for ... of this.monitoredUsers] loop. *)
Definition checkEntry (entry : string * User) : M unit :=
  let key := fst entry in
  let user := snd entry in
  try_catch
    (noteCall (CallCheck key (platform user) (username user));;
     let! isLive := check (platform user) (username user) in
     let! s := get in
     let wasLive := wasLive key s in
     if isLive && negb wasLive then
       log (LogWentLive (displayName user) (platform user));;
       noteCall (CallNotify key user);;
       notify user;;
       modify (fun s => with_liveStatus (<[key := true]> (liveStatus s)) s)
     else if negb isLive && wasLive then
       log (LogWentOffline (displayName user) (platform user));;
       modify (fun s => with_liveStatus (<[key := false]> (liveStatus s)) s)
     else ret tt)
    (fun _ => log (LogErrorChecking (username user) (platform user))).

Fixpoint forEntries (entries : list (string * User)) : M unit :=
  match entries with
  | [] => ret tt
  | entry :: rest => checkEntry entry;; forEntries rest
  end.

Definition checkAllStreamsWith : M unit :=
  let! s := get in
  forEntries (monitoredUsers s).

End Scheduler.

(** [checkAllStreams] of the class: the cycle over the real checkers and
    the real notification. *)
Definition checkAllStreams (w : World) : M unit :=
  checkAllStreamsWith (checkStreamStatus w) (sendLiveNotification w).

(** ** The [track] and [remove] commands *)

Record Validation := mkValidation {
  valid : bool;
  v_resolvedId : option string
}.

Inductive Reply :=
| AlreadyMonitored
| Refused
| NowMonitoring
| NotMonitored
| Removed.

Definition makeKey (platform user : string) : string :=
  platform ++ ":" ++ user.

Section Commands.

Variable w : World.

Definition validateYouTubeUser (user : string) : M Validation :=
  if negb (Js.truthy (YOUTUBE_API_KEY w)) then ret (mkValidation false None)
  else
    try_catch
      (if negb (Js.startsWith "UC" user) then
         let! channelId := resolveYouTubeChannel w user in
         if negb (Js.truthy channelId) then ret (mkValidation false None)
         else ret (mkValidation true channelId)
       else ret (mkValidation true (Some user)))
      (fun _ => ret (mkValidation false None)).

Definition validateTwitchUser (user : string) : M Validation :=
  if negb (TWITCH_CONFIGURED w) then ret (mkValidation false None)
  else
    try_catch
      (let! s := get in
       (if negb (Js.truthy (twitchToken s)) then getTwitchToken w else ret tt);;
       let! s := get in
       let! data := axios w (TwitchUsers user (twitchToken s))
                          (fun n => twitch_users w n user (twitchToken s)) in
       match data with
       | [] => ret (mkValidation false None)
       | _ => ret (mkValidation true None)
       end)
      (fun _ => ret (mkValidation false None)).

Definition validateUser (platform user : string) : M Validation :=
  if String.eqb platform "youtube" then validateYouTubeUser user
  else if String.eqb platform "twitch" then validateTwitchUser user
  else if String.eqb platform "tiktok" then ret (mkValidation true None)
  else if String.eqb platform "kick" then ret (mkValidation true None)
  else ret (mkValidation false None).

(** [display_name] is the optional command option.  The handler is
    modelled as far as it reads and writes the bot: the value returned
    stands for the reply the handler goes on to send, and the awaited
    [saveMonitoredUsers()] and [interaction.reply(...)], which leave
    the bot as it is, are not part of it (a reply that Discord rejects
    makes the handler throw after the maps are written). *)
Definition handleTrackCommand (platform user : string)
           (display_name : option string) : M Reply :=
  let displayName := if Js.truthy display_name
                     then default "" display_name else user in
  let key := makeKey platform user in
  let! s := get in
  if JsMap.has key (monitoredUsers s) then ret AlreadyMonitored
  else
    let! validationResult := validateUser platform user in
    if negb (valid validationResult) then ret Refused
    else
      let! now := Date_now in
      modify (fun s =>
        with_monitoredUsers
          (JsMap.set key
             (mkUser platform user displayName now
                     (v_resolvedId validationResult))
             (monitoredUsers s)) s);;
      ret NowMonitoring.

(** Modelled as [handleTrackCommand] is: the two deletions, and the
    reply the handler goes on to send. *)
Definition handleRemoveCommand (platform user : string) : M Reply :=
  let key := makeKey platform user in
  let! s := get in
  if negb (JsMap.has key (monitoredUsers s)) then ret NotMonitored
  else
    modify (fun s => with_monitoredUsers (JsMap.delete key (monitoredUsers s)) s);;
    modify (fun s => with_liveStatus (delete key (liveStatus s)) s);;
    ret Removed.

End Commands.

(** ** A cycle during which accounts are removed *)

(** [await m] while [remove] commands arrive: their handlers run while
    [m] is suspended.  A handler does its two deletions before its
    first [await]; so when [m] is a check, which neither reads nor
    writes the two maps, the state in which the caller resumes is the
    one [m] leaves with the deletions done. *)
Definition amid {A} (removals : list (string * string)) (m : M A) : M A :=
  fun s =>
    match m s with
    | (c, s1) =>
        (c, List.fold_left
              (fun st r => snd (handleRemoveCommand (fst r) (snd r) st)) removals s1)
    end.

(** [checkAllStreams] with [remove] commands handled during its checks:
    [arrivals key] lists the platform and username of the commands
    handled while the check of the entry under [key] is awaited.  The
    [for ... of] loop reads the [Map] as it goes, so an entry deleted
    before its turn is not visited; the entry whose check is in flight
    has been read already and its turn goes on. *)
Fixpoint forEntriesAmid (w : World) (arrivals : string -> list (string * string))
         (entries : list (string * User)) : M unit :=
  match entries with
  | [] => ret tt
  | entry :: rest =>
      (let! s := get in
       if JsMap.has (fst entry) (monitoredUsers s)
       then checkEntry
              (fun platform user =>
                 amid (arrivals (fst entry)) (checkStreamStatus w platform user))
              (sendLiveNotification w) entry
       else ret tt);;
      forEntriesAmid w arrivals rest
  end.

Definition checkAllStreamsAmid (w : World) (arrivals : string -> list (string * string))
  : M unit :=
  let! s := get in
  forEntriesAmid w arrivals (monitoredUsers s).

(** ** The data file *)

(** [new Map(entries)]: the entries are set one after the other. *)
Definition Map_of_entries {V} (entries : list (string * V)) : JsMap.t V :=
  List.fold_left (fun m e => JsMap.set (fst e) (snd e) m) entries [].

(** What reading and parsing [monitored_users.json] gives: no readable
    file, text that is not the JSON of an array of entries (both end in
    the [catch]), or the array of [key, user] entries. *)
Inductive DataFile :=
| NoFile
| Garbled
| Entries (users : list (string * User)).

Definition loadMonitoredUsers (file : DataFile) : M unit :=
  try_catch
    (match file with
     | Entries users => modify (with_monitoredUsers (Map_of_entries users))
     | NoFile => throw (mkError None (Some "ENOENT") "no such file or directory")
     | Garbled => throw (mkError None None "Unexpected token in JSON")
     end)
    (fun _ => modify (with_monitoredUsers [])).

(** ** The [list] command *)

Definition newline : string := String (ascii_of_nat 10) EmptyString.

(** [lines.join(sep)] *)
Fixpoint join (sep : string) (lines : list string) : string :=
  match lines with
  | [] => ""
  | [line] => line
  | line :: rest => line ++ sep ++ join sep rest
  end.

(** The line of one account: its status, display name and username. *)
Definition statusLine (live : bool) (user : User) : string :=
  (if live then "🔴 LIVE" else "⚫ Offline") ++ " " ++ displayName user ++
  " (" ++ username user ++ ")".

(** One turn of the loop that fills the [platforms] object, an object
    used as a map from platform name to the lines pushed so far (own
    keys, in insertion order). *)
Definition listEntry (s : Bot) (platforms : JsMap.t (list string))
           (entry : string * User) : JsMap.t (list string) :=
  let key := fst entry in
  let user := snd entry in
  let platforms :=
    if negb (JsMap.has (platform user) platforms)
    then JsMap.set (platform user) [] platforms
    else platforms in
  let status := wasLive key s in
  JsMap.set (platform user)
            (default [] (JsMap.get (platform user) platforms) ++
             [statusLine status user])%list
            platforms.

Definition listGroups (s : Bot) : JsMap.t (list string) :=
  List.fold_left (listEntry s) (monitoredUsers s) [].

(** The fields of the embed: one per platform, with the lines of its
    accounts. *)
Definition listFields (s : Bot) : list (string * string) :=
  List.map
    (fun group =>
       (Js.capitalize (fst group),
        let value := join newline (snd group) in
        if Js.truthy (Some value) then value else "None"))
    (listGroups s).

(** Whether [addFields], called once per platform, takes every field. *)
Definition fields_ok (fields : list (string * string)) : bool :=
  Nat.leb (length fields) Embed.max_fields &&
  List.forallb
    (fun field => Embed.field_name_ok (fst field) && Embed.field_value_ok (snd field))
    fields.

(** The reply: a plain text when nothing is monitored, otherwise an
    embed with one field per platform.  The embed is built outside any
    [try] of the handler: a field the builder refuses is thrown to the
    caller.  (As for the other commands, the awaited
    [interaction.reply(...)] is not part of the model.) *)
Inductive ListReply :=
| NothingMonitored
| Embed (fields : list (string * string)).

Definition handleListCommand : M ListReply :=
  let! s := get in
  if Nat.eqb (length (monitoredUsers s)) 0 then ret NothingMonitored
  else if fields_ok (listFields s) then ret (Embed (listFields s))
  else throw Embed.refused.

(** * Vocabulary of the properties *)

Local Open Scope list_scope.

(** The state a computation leaves, and its completion. *)
Definition run {A} (m : M A) (s : Bot) : Bot := snd (m s).
Definition completion {A} (m : M A) (s : Bot) : Completion A := fst (m s).

(** The collaborator calls made, and the requests dispatched, between
    an earlier state and a later one. *)
Definition calls_since (s s' : Bot) : list Call :=
  drop (length (journal s)) (journal s').
Definition requests_since (s s' : Bot) : list (Z * Request) :=
  drop (length (requests s)) (requests s').

(** Neither map nor the journal of the scheduler changes. *)
Definition Frame (s s' : Bot) : Prop :=
  monitoredUsers s' = monitoredUsers s /\
  liveStatus s' = liveStatus s /\
  journal s' = journal s.

Definition framed {A} (m : M A) : Prop := forall s, Frame s (run m s).

Definition call_key (c : Call) : string :=
  match c with
  | CallCheck key _ _ => key
  | CallNotify key _ => key
  end.

(** The keys whose check was called, in order. *)
Fixpoint attempts (calls : list Call) : list string :=
  match calls with
  | [] => []
  | CallCheck key _ _ :: rest => key :: attempts rest
  | CallNotify _ _ :: rest => attempts rest
  end.

(** The users handed to the notification for [key], in order. *)
Fixpoint notifications (key : string) (calls : list Call) : list User :=
  match calls with
  | [] => []
  | CallNotify k u :: rest =>
      if String.eqb k key then u :: notifications key rest
      else notifications key rest
  | CallCheck _ _ _ :: rest => notifications key rest
  end.

Section CycleVocabulary.

Variable check : string -> string -> M bool.
Variable notify : User -> M unit.

(** The state in which the check of an entry is called, what the check
    then observes, and how the hand-off of the notification completes
    if it comes to that. *)
Definition reached (key : string) (user : User) (s : Bot) : Bot :=
  run (noteCall (CallCheck key (platform user) (username user))) s.

Definition observe (key : string) (user : User) (s : Bot) : Completion bool * Bot :=
  check (platform user) (username user) (reached key user s).

Definition announced (key : string) (user : User) (s1 : Bot) : Bot :=
  run (log (LogWentLive (displayName user) (platform user));;
       noteCall (CallNotify key user)) s1.

Definition handoff (key : string) (user : User) (s : Bot) : Completion unit * Bot :=
  notify user (announced key user (snd (observe key user s))).

(** The entry fires: its check returns [true] and the stored state is
    false or absent. *)
Definition fires (key : string) (user : User) (s : Bot) : bool :=
  match fst (observe key user s) with
  | Normal true => negb (wasLive key s)
  | _ => false
  end.

Definition entry_calls (entry : string * User) (s : Bot) : list Call :=
  CallCheck (fst entry) (platform (snd entry)) (username (snd entry)) ::
  (if fires (fst entry) (snd entry) s
   then [CallNotify (fst entry) (snd entry)] else []).

Fixpoint cycle_calls (entries : list (string * User)) (s : Bot) : list Call :=
  match entries with
  | [] => []
  | entry :: rest =>
      entry_calls entry s ++ cycle_calls rest (run (checkEntry check notify entry) s)
  end.

(** The state after [n] cycles run one after the other. *)
Definition cycles (n : nat) (s : Bot) : Bot :=
  Nat.iter n (run (checkAllStreamsWith check notify)) s.

End CycleVocabulary.

(** Requests by kind. *)
Definition is_kick_page (r : Request) : bool :=
  match r with KickChannelPage _ _ => true | _ => false end.
Definition is_youtube_resolution (r : Request) : bool :=
  match r with YouTubeSearchChannel _ | YouTubeChannels _ => true | _ => false end.

Definition count_requests (P : Request -> bool) (reqs : list (Z * Request)) : nat :=
  length (List.filter (fun r => P (snd r)) reqs).

(** The state right after a request went out and its answer came in. *)
Definition dispatched (w : World) (req : Request) (s : Bot) : Bot :=
  run (suspend w 0) (with_requests (requests s ++ [(clock s, req)]) s).

(** The state in which [checkKickLive] calls the scraping step: after
    the pacing, the API step and the console line. *)
Definition before_scraping (w : World) (user : string) (s : Bot) : Bot :=
  run (log (LogKickApiFailed user))
      (run (tryKickAPI w user) (run (kickRateLimit w) s)).

(** The user-agent index [tryKickAPI] and [tryKickWebScraping] draw. *)
Definition kick_api_ua (w : World) (s : Bot) : nat := (random w (suspensions s) mod 4)%nat.
Definition kick_page_ua (w : World) (s : Bot) : nat := (random w (suspensions s) mod 2)%nat.

(** The claim that an auth rejection empties the Twitch token slot, as
    the specification words it: a check that starts with a token in the
    slot and whose streams call is rejected with 401 leaves the slot
    empty. *)
Definition token_invalidated_on_auth_rejection : Prop :=
  forall (w : World) (user : string) (s : Bot) (e : JsError),
    Js.truthy (twitchToken s) = true ->
    twitch_streams w (suspensions s) user (twitchToken s) = Rejected e ->
    status_is e 401 = true ->
    Js.truthy (twitchToken (run (checkTwitchLive w user) s)) = false.

(** The claim that two Kick checks run one after the other dispatch
    their API requests at least 3000 ms apart, as the specification
    words it. *)
Definition kick_dispatches_3000_apart : Prop :=
  forall (w : World) (user1 user2 : string) (s : Bot)
         (t1 t2 : Z) (ua1 ua2 : nat) (rest1 rest2 : list (Z * Request)),
    lastKickRequest s <= clock s ->
    requests_since s (run (checkKickLive w user1) s) =
      (t1, KickChannelApi user1 ua1) :: rest1 ->
    requests_since (run (checkKickLive w user1) s)
                   (run (checkKickLive w user2) (run (checkKickLive w user1) s)) =
      (t2, KickChannelApi user2 ua2) :: rest2 ->
    t1 + 3000 <= t2.

(** What happens to the bot between start-up and shutdown, as far as
    commands and check cycles are handled one at a time: a run in which
    no command arrives while a cycle is suspended.  ([checkAllStreamsAmid]
    is a cycle during which commands do arrive.) *)
Inductive Op :=
| Track (platform user : string) (display_name : option string)
| Remove (platform user : string)
| Cycle.

Definition step (w : World) (s : Bot) (op : Op) : Bot :=
  match op with
  | Track platform user display_name =>
      run (handleTrackCommand w platform user display_name) s
  | Remove platform user => run (handleRemoveCommand platform user) s
  | Cycle => run (checkAllStreams w) s
  end.

Definition exec (w : World) (ops : list Op) (s : Bot) : Bot :=
  List.fold_left (step w) ops s.

Definition tracked (key : string) (s : Bot) : Prop :=
  JsMap.has key (monitoredUsers s) = true.

(** The notifications posted to the webhook between two states, and
    the post that announces a user. *)
Definition is_webhook (r : Request) : bool :=
  match r with Webhook _ _ => true | _ => false end.

Definition posted (s s' : Bot) : list Request :=
  List.filter is_webhook (List.map snd (requests_since s s')).

Definition liveWebhook (user : User) : Request :=
  Webhook (liveTitle user) (generateLiveUrl (platform user) (username user)).

(** A computation only adds to the requests, and no post to the
    webhook. *)
Definition posts_nothing {A} (m : M A) : Prop :=
  forall s, exists new, requests (run m s) = requests s ++ new /\
                        Forall (fun r => is_webhook (snd r) = false) new.

(** What is posted during the turn of [entry] in the cycle that starts
    in [s]; [pre] are the entries before it in the map. *)
Definition posted_in_turn (check : string -> string -> M bool) (notify : User -> M unit)
           (pre : list (string * User)) (entry : string * User) (s : Bot) : list Request :=
  let before := run (forEntries check notify pre) s in
  posted before (run (checkEntry check notify entry) before).

(** The console lines with which the cycle reports an account whose
    turn ended in its [catch]. *)
Definition is_check_error (d : Diag) : bool :=
  match d with LogErrorChecking _ _ => true | _ => false end.

(** A checker that announces itself: it does what [check] does, and
    before that writes the platform and username it is called with to
    the console.  [announced_checks] reads these lines back, in order;
    a computation is [silent] when it only adds to the console, and no
    such line. *)
Definition announcing (check : string -> string -> M bool)
           (platform user : string) : M bool :=
  log (LogChecking platform user);; check platform user.

Fixpoint announced_checks (lines : list Diag) : list (string * string) :=
  match lines with
  | [] => []
  | LogChecking platform user :: rest => (platform, user) :: announced_checks rest
  | _ :: rest => announced_checks rest
  end.

Definition console_since (s s' : Bot) : list Diag :=
  drop (length (console s)) (console s').

Definition silent {A} (m : M A) : Prop :=
  forall s, exists new, console (run m s) = console s ++ new /\
                        announced_checks new = [].

(** A computation only adds to the requests; it opens with a given
    request. *)
Definition appends {A} (m : M A) : Prop :=
  forall s, exists new, requests (run m s) = requests s ++ new.

Definition opens_with {A} (req : Request) (m : M A) : Prop :=
  forall s, exists rest, requests (run m s) = requests s ++ (clock s, req) :: rest.

(** Every key of [liveStatus] is a key of [monitoredUsers]. *)
Definition stored_are_tracked (s : Bot) : Prop :=
  forall k, is_Some (liveStatus s !! k) -> tracked k s.

(** The number of requests a platform's check may send. *)
Definition request_budget (platform : string) : nat :=
  if String.eqb platform "youtube" then 3
  else if String.eqb platform "twitch" then 2
  else if String.eqb platform "tiktok" then 1
  else if String.eqb platform "kick" then 2
  else 0.

Definition is_youtube_live_search (r : Request) : bool :=
  match r with YouTubeSearchLive _ => true | _ => false end.

(** The kinds of request sent between two states, in order. *)
Definition sent (s s' : Bot) : list Request := List.map snd (requests_since s s').

(** The platforms the bot knows. *)
Definition supported (platform : string) : bool :=
  String.eqb platform "youtube" || String.eqb platform "twitch" ||
  String.eqb platform "tiktok" || String.eqb platform "kick".

(** Every entry sits under the key made of its own platform and
    username. *)
Definition keyed (m : list (string * User)) : Prop :=
  Forall (fun e => fst e = makeKey (platform (snd e)) (username (snd e))) m.

(** All the lines of the groups, and what makes a group right: each
    of its lines is the line of a monitored entry of that platform,
    with the status that [liveStatus] holds for the entry's key. *)
Definition listed (groups : JsMap.t (list string)) : list string :=
  concat (List.map snd groups).

Definition line_of (s : Bot) (entry : string * User) : string :=
  statusLine (wasLive (fst entry) s) (snd entry).

Definition groups_sound (s : Bot) (entries : list (string * User))
           (groups : JsMap.t (list string)) : Prop :=
  forall plat lines line,
    (plat, lines) ∈ groups -> line ∈ lines ->
    exists entry, entry ∈ entries /\ platform (snd entry) = plat /\
                  line = line_of s entry.

(** The values of the fields of the list, and whether a value fits
    within a limit. *)
Definition listValues (s : Bot) : list string :=
  List.map (fun group => join newline (snd group)) (listGroups s).

Definition fits (limit : nat) (value : string) : bool :=
  Nat.leb (Js.length value) limit.

(** A computation started with a token in the slot leaves the slot as
    it is and sends no request for a token. *)
Definition is_token_request (r : Request) : bool :=
  match r with TwitchToken => true | _ => false end.

Definition keeps_token {A} (m : M A) : Prop :=
  forall s, Js.truthy (twitchToken s) = true ->
    twitchToken (run m s) = twitchToken s /\
    exists new, requests (run m s) = requests s ++ new /\
                Forall (fun r => is_token_request (snd r) = false) new.

(** * Inputs used to exercise the properties *)

Module Examples.

Definition network_down : JsError :=
  mkError None (Some "ENOTFOUND") "getaddrinfo ENOTFOUND".

Definition http (status : Z) : JsError :=
  mkError (Some status) (Some "ERR_BAD_REQUEST") "Request failed".

(** The bot right after construction, at some wall-clock time. *)
Definition constructed : Bot :=
  mkBot [] ∅ None 0 1700000000000 0 [] [] [].

Definition ninja : User := mkUser "twitch" "ninja" "ninja" 1700000000000 None.
Definition xqc : User := mkUser "kick" "xqc" "xQc" 1700000000000 None.

(** Two tracked accounts, the first stored as live. *)
Definition two_accounts : Bot :=
  with_liveStatus {[ "twitch:ninja" := true ]}
    (with_monitoredUsers [("twitch:ninja", ninja); ("kick:xqc", xqc)] constructed).

(** A checker that throws for [ninja] and reports everyone else live,
    and a hand-off that does nothing. *)
Definition flaky_check (platform user : string) : M bool :=
  if String.eqb user "ninja" then throw network_down else ret true.

Definition quiet_notify (user : User) : M unit := ret tt.

(** Twitch answers: a token, and one active stream for every login. *)
Definition twitch_live : World :=
  mkWorld (Some "yt-key")
          (fun _ _ => Rejected network_down)
          (fun _ _ => Rejected network_down)
          (fun _ _ => Rejected network_down)
          (fun _ => Resolved (Some "token-1"))
          (fun _ _ _ => Resolved ["stream"])
          (fun _ _ _ => Resolved ["user"])
          (fun _ _ => Rejected network_down)
          (fun _ _ => Rejected (http 403))
          (fun _ _ => Rejected (http 403))
          (fun _ => Resolved tt)
          true (fun _ => 0%nat) (fun _ => 0%N) (fun _ => 0%N).

(** Twitch as above, except that the streams call finds no stream
    during the first six suspensions (the first cycle over
    [two_offline] below) and one stream afterwards. *)
Definition ninja_goes_live : World :=
  mkWorld (Some "yt-key")
          (fun _ _ => Rejected network_down)
          (fun _ _ => Rejected network_down)
          (fun _ _ => Rejected network_down)
          (fun _ => Resolved (Some "token-1"))
          (fun n _ _ => if Nat.ltb n 7 then Resolved [] else Resolved ["stream"])
          (fun _ _ _ => Resolved ["user"])
          (fun _ _ => Rejected network_down)
          (fun _ _ => Rejected (http 403))
          (fun _ _ => Rejected (http 403))
          (fun _ => Resolved tt)
          true (fun _ => 0%nat) (fun _ => 0%N) (fun _ => 0%N).

(** The same two accounts with nothing stored yet. *)
Definition two_offline : Bot :=
  with_monitoredUsers [("kick:xqc", xqc); ("twitch:ninja", ninja)] constructed.

(** A page whose description meta tag reads like a site-wide tagline
    and on which nothing else matches. *)
Definition tagline_page : Page :=
  mkPage (fun sel =>
            match sel with
            | SelMetaDescription =>
                mkSelection 1 "" (Some "Watch Live streams and chat on Kick")
            | _ => mkSelection 0 "" None
            end)
         None.

(** Kick's API answers with [livestream: null] (the channel is
    offline) and the channel page carries the tagline. *)
Definition kick_offline : World :=
  mkWorld (Some "yt-key")
          (fun _ _ => Rejected network_down)
          (fun _ _ => Rejected network_down)
          (fun _ _ => Rejected network_down)
          (fun _ => Rejected network_down)
          (fun _ _ _ => Rejected network_down)
          (fun _ _ _ => Rejected network_down)
          (fun _ _ => Rejected network_down)
          (fun _ _ => Resolved Js.FNull)
          (fun _ _ => Resolved tagline_page)
          (fun _ => Resolved tt)
          true (fun _ => 0%nat) (fun _ => 0%N) (fun _ => 0%N).

(** Kick's API rejects with the given status; the page is as above. *)
Definition kick_rejecting (status : Z) : World :=
  mkWorld (Some "yt-key")
          (fun _ _ => Rejected network_down)
          (fun _ _ => Rejected network_down)
          (fun _ _ => Rejected network_down)
          (fun _ => Rejected network_down)
          (fun _ _ _ => Rejected network_down)
          (fun _ _ _ => Rejected network_down)
          (fun _ _ => Rejected network_down)
          (fun _ _ => Rejected (http status))
          (fun _ _ => Resolved tagline_page)
          (fun _ => Resolved tt)
          true (fun _ => 0%nat) (fun _ => 0%N) (fun _ => 0%N).

(** TikTok rejects the live page with the given status. *)
Definition tiktok_rejecting (status : Z) : World :=
  mkWorld (Some "yt-key")
          (fun _ _ => Rejected network_down)
          (fun _ _ => Rejected network_down)
          (fun _ _ => Rejected network_down)
          (fun _ => Rejected network_down)
          (fun _ _ _ => Rejected network_down)
          (fun _ _ _ => Rejected network_down)
          (fun _ _ => Rejected (http status))
          (fun _ _ => Rejected network_down)
          (fun _ _ => Rejected network_down)
          (fun _ => Resolved tt)
          true (fun _ => 0%nat) (fun _ => 0%N) (fun _ => 0%N).

(** Twitch rejects the streams call with 401 and would hand out a new
    token if asked. *)
Definition twitch_unauthorized : World :=
  mkWorld (Some "yt-key")
          (fun _ _ => Rejected network_down)
          (fun _ _ => Rejected network_down)
          (fun _ _ => Rejected network_down)
          (fun _ => Resolved (Some "token-2"))
          (fun _ _ _ => Rejected (http 401))
          (fun _ _ _ => Rejected (http 401))
          (fun _ _ => Rejected network_down)
          (fun _ _ => Rejected network_down)
          (fun _ _ => Rejected network_down)
          (fun _ => Resolved tt)
          true (fun _ => 0%nat) (fun _ => 0%N) (fun _ => 0%N).

(** The bot holding a token acquired earlier. *)
Definition holding_token : Bot := with_twitchToken (Some "token-1") constructed.

(** YouTube: the handle resolved to [UCold] when the account was
    added (the first request) and resolves to [UCnew] since; [UCold] is
    live, [UCnew] is not. *)
Definition youtube_moving : World :=
  mkWorld (Some "yt-key")
          (fun n _ => match n with
                      | O => Resolved ["UCold"]
                      | _ => Resolved ["UCnew"]
                      end)
          (fun _ _ => Resolved [])
          (fun _ channelId =>
             if String.eqb channelId "UCold" then Resolved ["video"] else Resolved [])
          (fun _ => Rejected network_down)
          (fun _ _ _ => Rejected network_down)
          (fun _ _ _ => Rejected network_down)
          (fun _ _ => Rejected network_down)
          (fun _ _ => Rejected network_down)
          (fun _ _ => Rejected network_down)
          (fun _ => Resolved tt)
          true (fun _ => 0%nat) (fun _ => 0%N) (fun _ => 0%N).

(** No YouTube API key in the environment; YouTube would answer. *)
Definition no_youtube_key : World :=
  mkWorld None
          (fun _ _ => Resolved ["UCfound"])
          (fun _ _ => Resolved ["UCfound"])
          (fun _ _ => Resolved ["video"])
          (fun _ => Rejected network_down)
          (fun _ _ _ => Rejected network_down)
          (fun _ _ _ => Rejected network_down)
          (fun _ _ => Rejected network_down)
          (fun _ _ => Rejected network_down)
          (fun _ _ => Rejected network_down)
          (fun _ => Resolved tt)
          true (fun _ => 0%nat) (fun _ => 0%N) (fun _ => 0%N).

(** YouTube knows no channel for any handle; channel IDs are live. *)
Definition youtube_unknown_handle : World :=
  mkWorld (Some "yt-key")
          (fun _ _ => Resolved [])
          (fun _ _ => Resolved [])
          (fun _ _ => Resolved ["video"])
          (fun _ => Rejected network_down)
          (fun _ _ _ => Rejected network_down)
          (fun _ _ _ => Rejected network_down)
          (fun _ _ => Rejected network_down)
          (fun _ _ => Rejected network_down)
          (fun _ _ => Rejected network_down)
          (fun _ => Resolved tt)
          true (fun _ => 0%nat) (fun _ => 0%N) (fun _ => 0%N).

(** The token grant is rejected; the streams call is rejected too. *)
Definition twitch_down : World :=
  mkWorld (Some "yt-key")
          (fun _ _ => Rejected network_down)
          (fun _ _ => Rejected network_down)
          (fun _ _ => Rejected network_down)
          (fun _ => Rejected (http 400))
          (fun _ _ _ => Rejected (http 401))
          (fun _ _ _ => Rejected (http 401))
          (fun _ _ => Rejected network_down)
          (fun _ _ => Rejected network_down)
          (fun _ _ => Rejected network_down)
          (fun _ => Resolved tt)
          true (fun _ => 0%nat) (fun _ => 0%N) (fun _ => 0%N).

(** A live room in the markup, served after a redirect to the profile. *)
Definition redirected_page : Page :=
  mkPage (fun sel =>
            match sel with
            | SelLiveRoom => mkSelection 1 "" None
            | SelTitle => mkSelection 1 "charli is LIVE" None
            | _ => mkSelection 0 "" None
            end)
         (Some "https://www.tiktok.com/@charli").

Definition tiktok_redirecting : World :=
  mkWorld (Some "yt-key")
          (fun _ _ => Rejected network_down)
          (fun _ _ => Rejected network_down)
          (fun _ _ => Rejected network_down)
          (fun _ => Rejected network_down)
          (fun _ _ _ => Rejected network_down)
          (fun _ _ _ => Rejected network_down)
          (fun _ _ => Resolved redirected_page)
          (fun _ _ => Rejected network_down)
          (fun _ _ => Rejected network_down)
          (fun _ => Resolved tt)
          true (fun _ => 0%nat) (fun _ => 0%N) (fun _ => 0%N).

(** Kick's API answers with a channel object that has no [livestream]
    field at all. *)
Definition kick_field_missing : World :=
  mkWorld (Some "yt-key")
          (fun _ _ => Rejected network_down)
          (fun _ _ => Rejected network_down)
          (fun _ _ => Rejected network_down)
          (fun _ => Rejected network_down)
          (fun _ _ _ => Rejected network_down)
          (fun _ _ _ => Rejected network_down)
          (fun _ _ => Rejected network_down)
          (fun _ _ => Resolved Js.FUndefined)
          (fun _ _ => Rejected network_down)
          (fun _ => Resolved tt)
          true (fun _ => 0%nat) (fun _ => 0%N) (fun _ => 0%N).

(** A checker that finds nobody live. *)
Definition all_offline_check (platform user : string) : M bool := ret false.

(** Twitch answers "live" and the webhook rejects every post. *)
Definition webhook_down : World :=
  mkWorld (Some "yt-key")
          (fun _ _ => Rejected network_down)
          (fun _ _ => Rejected network_down)
          (fun _ _ => Rejected network_down)
          (fun _ => Resolved (Some "token-1"))
          (fun _ _ _ => Resolved ["stream"])
          (fun _ _ _ => Resolved ["user"])
          (fun _ _ => Rejected network_down)
          (fun _ _ => Rejected (http 403))
          (fun _ _ => Rejected (http 403))
          (fun _ => Rejected (http 404))
          true (fun _ => 0%nat) (fun _ => 0%N) (fun _ => 0%N).

(** Kick's API reports a stream for every channel, and every timer
    fires 1 ms ahead of its delay. *)
Definition early_timer : World :=
  mkWorld (Some "yt-key")
          (fun _ _ => Rejected network_down)
          (fun _ _ => Rejected network_down)
          (fun _ _ => Rejected network_down)
          (fun _ => Rejected network_down)
          (fun _ _ _ => Rejected network_down)
          (fun _ _ _ => Rejected network_down)
          (fun _ _ => Rejected network_down)
          (fun _ _ => Resolved Js.FObject)
          (fun _ _ => Rejected network_down)
          (fun _ => Resolved tt)
          true (fun _ => 0%nat) (fun _ => 0%N) (fun _ => 1%N).

(** A display name of 241 characters: with it the title of the
    notification has 257 UTF-16 code units. *)
Definition long_name : string := string_of_list_ascii (List.repeat "a"%char 241).

(** The entry that [/track platform:twitch username:ninja] with
    [long_name] as display name stores. *)
Definition loud : User := mkUser "twitch" "ninja" long_name 1700000000000 None.

End Examples.

(** * Properties *)

(** ** What the checkers and the notification leave alone *)

Lemma Frame_refl s : Frame s s.
Proof. by repeat split. Qed.

Lemma Frame_trans s1 s2 s3 : Frame s1 s2 -> Frame s2 s3 -> Frame s1 s3.
Proof. intros (?&?&?) (?&?&?). repeat split; congruence. Qed.

Lemma framed_ret {A} (a : A) : framed (ret a).
Proof. intros s. apply Frame_refl. Qed.

Lemma framed_throw {A} e : framed (@throw A e).
Proof. intros s. apply Frame_refl. Qed.

Lemma framed_get : framed get.
Proof. intros s. apply Frame_refl. Qed.

Lemma framed_Date_now : framed Date_now.
Proof. intros s. apply Frame_refl. Qed.

Lemma framed_bind {A B} (m : M A) (k : A -> M B) :
  framed m -> (forall a, framed (k a)) -> framed (bind m k).
Proof.
  intros Hm Hk s. unfold run, bind. specialize (Hm s). unfold run in Hm.
  destruct (m s) as [[a|e] s1]; simpl in *; [|done].
  eapply Frame_trans; [exact Hm|]. apply Hk.
Qed.

Lemma framed_try_catch {A} (m : M A) (h : JsError -> M A) :
  framed m -> (forall e, framed (h e)) -> framed (try_catch m h).
Proof.
  intros Hm Hh s. unfold run, try_catch. specialize (Hm s). unfold run in Hm.
  destruct (m s) as [[a|e] s1]; simpl in *; [done|].
  eapply Frame_trans; [exact Hm|]. apply Hh.
Qed.

Lemma framed_log d : framed (log d).
Proof. intros s. by repeat split. Qed.

Lemma framed_set_token t : framed (modify (with_twitchToken t)).
Proof. intros s. by repeat split. Qed.

Lemma framed_set_lastKick t : framed (modify (with_lastKickRequest t)).
Proof. intros s. by repeat split. Qed.

Lemma framed_suspend w ms : framed (suspend w ms).
Proof. intros s. by repeat split. Qed.

Lemma framed_randomUA w n : framed (randomUA w n).
Proof. intros s. apply Frame_refl. Qed.

Lemma framed_axios {A} w req (answer : nat -> Axios A) : framed (axios w req answer).
Proof.
  intros s. unfold run, axios. simpl.
  destruct (answer (suspensions s)); by repeat split.
Qed.

Create HintDb framed discriminated.
#[local] Hint Resolve framed_ret framed_throw framed_get framed_Date_now
  framed_log framed_axios framed_set_token framed_set_lastKick
  framed_suspend framed_randomUA : framed.

Ltac framed_step :=
  first
    [ solve [auto 1 with framed nocore]
    | apply framed_bind; [|intros ?]
    | apply framed_try_catch; [|intros ?]
    | match goal with
      | |- framed (if ?b then _ else _) => destruct b
      | |- framed (match ?x with _ => _ end) => destruct x
      end
    | progress (cbv beta zeta) ].

Ltac framed_tac := repeat framed_step.

Lemma framed_resolveYouTubeChannel w input : framed (resolveYouTubeChannel w input).
Proof. unfold resolveYouTubeChannel. framed_tac. Qed.
#[local] Hint Resolve framed_resolveYouTubeChannel : framed.

Lemma framed_checkYouTubeLive w input : framed (checkYouTubeLive w input).
Proof. unfold checkYouTubeLive. framed_tac. Qed.

Lemma framed_getTwitchToken w : framed (getTwitchToken w).
Proof. unfold getTwitchToken. framed_tac. Qed.
#[local] Hint Resolve framed_getTwitchToken : framed.

Lemma framed_checkTwitchLive w user : framed (checkTwitchLive w user).
Proof. unfold checkTwitchLive. framed_tac. Qed.

Lemma framed_checkTikTokLive w user : framed (checkTikTokLive w user).
Proof. unfold checkTikTokLive. framed_tac. Qed.

Lemma framed_tryKickAPI w user : framed (tryKickAPI w user).
Proof. unfold tryKickAPI. framed_tac. Qed.

Lemma framed_tryKickWebScraping w user : framed (tryKickWebScraping w user).
Proof. unfold tryKickWebScraping. framed_tac. Qed.

Lemma framed_kickRateLimit w : framed (kickRateLimit w).
Proof. unfold kickRateLimit, sleep. framed_tac. Qed.
#[local] Hint Resolve framed_tryKickAPI framed_tryKickWebScraping
  framed_kickRateLimit : framed.

Lemma framed_checkKickLive w user : framed (checkKickLive w user).
Proof. unfold checkKickLive. framed_tac. Qed.
#[local] Hint Resolve framed_checkYouTubeLive framed_checkTwitchLive
  framed_checkTikTokLive framed_checkKickLive : framed.

(** No checker writes [monitoredUsers], [liveStatus] or the journal. *)
Lemma framed_checkStreamStatus w platform user :
  framed (checkStreamStatus w platform user).
Proof. unfold checkStreamStatus. framed_tac. Qed.

Lemma framed_sendLiveNotification w user : framed (sendLiveNotification w user).
Proof. unfold sendLiveNotification. framed_tac. Qed.
#[local] Hint Resolve framed_checkStreamStatus framed_sendLiveNotification : framed.

(** ** The cycle, for any checker and any notification hand-off *)

Lemma attempts_app c1 c2 : attempts (c1 ++ c2) = attempts c1 ++ attempts c2.
Proof.
  induction c1 as [|[k p u|k u] c1 IH]; simpl; [done| |done].
  by rewrite IH.
Qed.

Lemma notifications_app key c1 c2 :
  notifications key (c1 ++ c2) = notifications key c1 ++ notifications key c2.
Proof.
  induction c1 as [|[k p u|k u] c1 IH]; simpl; [done|done|].
  destruct (String.eqb k key); simpl; by rewrite IH.
Qed.

Lemma notifications_other key calls :
  Forall (fun c => call_key c <> key) calls -> notifications key calls = [].
Proof.
  induction 1 as [|[k p u|k u] calls Hc _ IH]; simpl; [done|done|].
  simpl in Hc. apply String.eqb_neq in Hc. by rewrite Hc.
Qed.

Section SchedulerProperties.

Variable check : string -> string -> M bool.
Variable notify : User -> M unit.
Hypothesis check_framed : forall platform user, framed (check platform user).
Hypothesis notify_framed : forall user, framed (notify user).

Lemma checkEntry_unfold key user s :
  checkEntry check notify (key, user) s =
  match observe check key user s with
  | (Thrown _, s1) =>
      (Normal tt,
       with_console (console s1 ++ [LogErrorChecking (username user) (platform user)]) s1)
  | (Normal isLive, s1) =>
      if isLive && negb (wasLive key s1) then
        match notify user (announced key user s1) with
        | (Normal _, s3) =>
            (Normal tt, with_liveStatus (<[key := true]> (liveStatus s3)) s3)
        | (Thrown _, s3) =>
            (Normal tt,
             with_console (console s3 ++ [LogErrorChecking (username user) (platform user)]) s3)
        end
      else if negb isLive && wasLive key s1 then
        let s2 := run (log (LogWentOffline (displayName user) (platform user))) s1 in
        (Normal tt, with_liveStatus (<[key := false]> (liveStatus s2)) s2)
      else (Normal tt, s1)
  end.
Proof.
  unfold checkEntry, observe, reached, announced, run, try_catch, bind, noteCall,
    log, modify, get, ret. simpl.
  destruct (check _ _ _) as [[isLive|e] s1]; simpl; [|done].
  destruct (isLive && negb (wasLive key s1)); simpl.
  - by destruct (notify _ _) as [[[]|e] s3].
  - by destruct (negb isLive && wasLive key s1).
Qed.

Lemma observe_frame key user s :
  liveStatus (snd (observe check key user s)) = liveStatus s /\
  monitoredUsers (snd (observe check key user s)) = monitoredUsers s /\
  journal (snd (observe check key user s)) =
    journal s ++ [CallCheck key (platform user) (username user)].
Proof.
  destruct (check_framed (platform user) (username user) (reached key user s))
    as (Hu & Hl & Hj).
  unfold observe, run in *. by rewrite Hu, Hl, Hj.
Qed.

Lemma wasLive_observe key user s :
  wasLive key (snd (observe check key user s)) = wasLive key s.
Proof. unfold wasLive. by rewrite (proj1 (observe_frame key user s)). Qed.

Lemma handoff_frame key user s :
  liveStatus (snd (handoff check notify key user s)) = liveStatus s /\
  monitoredUsers (snd (handoff check notify key user s)) = monitoredUsers s /\
  journal (snd (handoff check notify key user s)) =
    journal s ++ [CallCheck key (platform user) (username user); CallNotify key user].
Proof.
  destruct (observe_frame key user s) as (Hl & Hu & Hj).
  destruct (notify_framed user (announced key user (snd (observe check key user s))))
    as (Hu' & Hl' & Hj').
  unfold handoff, run in *. rewrite Hu', Hl', Hj'. simpl.
  rewrite Hl, Hu, Hj. by rewrite <- app_assoc.
Qed.

Lemma checkEntry_normal entry s :
  completion (checkEntry check notify entry) s = Normal tt.
Proof.
  destruct entry as [key user]. unfold completion. rewrite checkEntry_unfold.
  destruct (observe check key user s) as [[isLive|e] s1]; [|done].
  destruct (isLive && negb (wasLive key s1)).
  - by destruct (notify _ _) as [[[]|?] ?].
  - by destruct (negb isLive && wasLive key s1).
Qed.

Lemma checkEntry_journal entry s :
  journal (run (checkEntry check notify entry) s) = journal s ++ entry_calls check entry s.
Proof.
  destruct entry as [key user]. unfold run, entry_calls, fires. simpl.
  rewrite checkEntry_unfold.
  pose proof (observe_frame key user s) as (Hl & Hu & Hj).
  pose proof (handoff_frame key user s) as (Hl' & Hu' & Hj').
  pose proof (wasLive_observe key user s) as Hw.
  unfold handoff in *.
  destruct (observe check key user s) as [[isLive|e] s1]; simpl in *.
  - rewrite Hw. destruct isLive; simpl.
    + destruct (wasLive key s); simpl; [done|].
      destruct (notify _ _) as [[[]|?] s3]; simpl in *; by rewrite Hj'.
    + by destruct (wasLive key s).
  - done.
Qed.

Lemma checkEntry_monitoredUsers entry s :
  monitoredUsers (run (checkEntry check notify entry) s) = monitoredUsers s.
Proof.
  destruct entry as [key user]. unfold run. rewrite checkEntry_unfold.
  pose proof (observe_frame key user s) as (Hl & Hu & Hj).
  pose proof (handoff_frame key user s) as (Hl' & Hu' & Hj').
  unfold handoff in *.
  destruct (observe check key user s) as [[isLive|e] s1]; simpl in *; [|done].
  destruct (isLive && negb (wasLive key s1)).
  - by destruct (notify _ _) as [[[]|?] s3].
  - by destruct (negb isLive && wasLive key s1).
Qed.

(** What the entry leaves in [liveStatus]. *)
Lemma checkEntry_liveStatus key user s :
  liveStatus (run (checkEntry check notify (key, user)) s) =
  match fst (observe check key user s) with
  | Thrown _ => liveStatus s
  | Normal true =>
      if wasLive key s then liveStatus s
      else match fst (handoff check notify key user s) with
           | Normal _ => <[key := true]> (liveStatus s)
           | Thrown _ => liveStatus s
           end
  | Normal false =>
      if wasLive key s then <[key := false]> (liveStatus s) else liveStatus s
  end.
Proof.
  unfold run. rewrite checkEntry_unfold.
  pose proof (observe_frame key user s) as (Hl & Hu & Hj).
  pose proof (handoff_frame key user s) as (Hl' & Hu' & Hj').
  pose proof (wasLive_observe key user s) as Hw.
  unfold handoff in *.
  destruct (observe check key user s) as [[isLive|e] s1]; simpl in *; [|done].
  rewrite Hw. destruct isLive; simpl.
  - destruct (wasLive key s); simpl; [done|].
    destruct (notify _ _) as [[[]|?] s3]; simpl in *; by rewrite ?Hl'.
  - destruct (wasLive key s); simpl; by rewrite ?Hl.
Qed.

Lemma checkEntry_liveStatus_other key user k s :
  k <> key ->
  liveStatus (run (checkEntry check notify (key, user)) s) !! k = liveStatus s !! k.
Proof.
  intros Hk. rewrite checkEntry_liveStatus.
  destruct (fst (observe check key user s)) as [[]|]; [| |done].
  - destruct (wasLive key s); [done|].
    destruct (fst (handoff check notify key user s)); [|done]. by rewrite lookup_insert_ne.
  - destruct (wasLive key s); [|done]. by rewrite lookup_insert_ne.
Qed.

(** *** The whole loop *)

Lemma forEntries_cons entry rest s :
  forEntries check notify (entry :: rest) s =
  forEntries check notify rest (run (checkEntry check notify entry) s).
Proof.
  simpl. unfold bind, run. pose proof (checkEntry_normal entry s) as Hn.
  unfold completion in Hn. destruct (checkEntry check notify entry s) as [c s1].
  simpl in *. by subst c.
Qed.

Lemma run_forEntries_cons entry rest s :
  run (forEntries check notify (entry :: rest)) s =
  run (forEntries check notify rest) (run (checkEntry check notify entry) s).
Proof. unfold run at 1 2. by rewrite forEntries_cons. Qed.

Lemma forEntries_normal entries s :
  completion (forEntries check notify entries) s = Normal tt.
Proof.
  revert s. induction entries as [|entry rest IH]; intros s; [done|].
  unfold completion in *. rewrite forEntries_cons. apply IH.
Qed.

Lemma forEntries_app l1 l2 s :
  run (forEntries check notify (l1 ++ l2)) s =
  run (forEntries check notify l2) (run (forEntries check notify l1) s).
Proof.
  revert s. induction l1 as [|entry rest IH]; intros s; [done|].
  simpl app. rewrite !run_forEntries_cons. apply IH.
Qed.

Lemma forEntries_journal entries s :
  journal (run (forEntries check notify entries) s) =
  journal s ++ cycle_calls check notify entries s.
Proof.
  revert s. induction entries as [|entry rest IH]; intros s; simpl cycle_calls.
  - by rewrite app_nil_r.
  - by rewrite run_forEntries_cons, IH, checkEntry_journal, <- app_assoc.
Qed.

Lemma cycle_calls_app l1 l2 s :
  cycle_calls check notify (l1 ++ l2) s =
  cycle_calls check notify l1 s ++
  cycle_calls check notify l2 (run (forEntries check notify l1) s).
Proof.
  revert s. induction l1 as [|entry rest IH]; intros s; [done|].
  cbn [cycle_calls app]. by rewrite IH, <- app_assoc, run_forEntries_cons.
Qed.

Lemma attempts_cycle_calls entries s :
  attempts (cycle_calls check notify entries s) = JsMap.keys entries.
Proof.
  revert s. induction entries as [|entry rest IH]; intros s; [done|].
  simpl. rewrite attempts_app, IH. unfold entry_calls.
  by destruct (fires _ _ _ _).
Qed.

Lemma forEntries_monitoredUsers entries s :
  monitoredUsers (run (forEntries check notify entries) s) = monitoredUsers s.
Proof.
  revert s. induction entries as [|entry rest IH]; intros s; [done|].
  rewrite run_forEntries_cons, IH. apply checkEntry_monitoredUsers.
Qed.

(** Entries under other keys leave the stored state of [key] alone and
    call nothing for it. *)
Lemma forEntries_liveStatus_other key entries s :
  key ∉ JsMap.keys entries ->
  liveStatus (run (forEntries check notify entries) s) !! key = liveStatus s !! key.
Proof.
  revert s. induction entries as [|[k u] rest IH]; intros s Hk; [done|].
  simpl in Hk. apply not_elem_of_cons in Hk as [Hne Hk].
  rewrite run_forEntries_cons, IH by done.
  by apply checkEntry_liveStatus_other.
Qed.

Lemma cycle_calls_other key entries s :
  key ∉ JsMap.keys entries ->
  Forall (fun c => call_key c <> key) (cycle_calls check notify entries s).
Proof.
  revert s. induction entries as [|[k u] rest IH]; intros s Hk; simpl; [done|].
  simpl in Hk. apply not_elem_of_cons in Hk as [Hne Hk].
  apply Forall_cons. split; [simpl; congruence|].
  apply Forall_app. split; [|by apply IH].
  destruct (fires _ _ _ _); [|done]. apply Forall_cons. split; [simpl; congruence|done].
Qed.

Lemma calls_since_cycle s :
  calls_since s (run (checkAllStreamsWith check notify) s) =
  cycle_calls check notify (monitoredUsers s) s.
Proof.
  unfold calls_since, checkAllStreamsWith, run, bind, get. simpl.
  pose proof (forEntries_journal (monitoredUsers s) s) as Hj. unfold run in Hj.
  rewrite Hj. apply drop_app_length.
Qed.

Lemma run_cycle s :
  run (checkAllStreamsWith check notify) s =
  run (forEntries check notify (monitoredUsers s)) s.
Proof. done. Qed.

(** The part of the cycle that concerns one key. *)
Lemma cycle_notifications s pre key user post :
  monitoredUsers s = pre ++ (key, user) :: post ->
  key ∉ JsMap.keys pre -> key ∉ JsMap.keys post ->
  notifications key (calls_since s (run (checkAllStreamsWith check notify) s)) =
  if fires check key user (run (forEntries check notify pre) s) then [user] else [].
Proof.
  intros Hs Hpre Hpost. rewrite calls_since_cycle, Hs, cycle_calls_app.
  cbn [cycle_calls]. rewrite !notifications_app.
  rewrite (notifications_other key (cycle_calls check notify pre s))
    by by apply cycle_calls_other.
  rewrite (notifications_other key (cycle_calls check notify post _))
    by by apply cycle_calls_other.
  rewrite app_nil_r. unfold entry_calls. simpl.
  destruct (fires _ _ _ _); simpl; [|done].
  by rewrite String.eqb_refl.
Qed.

Lemma cycle_liveStatus s pre key user post :
  monitoredUsers s = pre ++ (key, user) :: post ->
  key ∉ JsMap.keys pre -> key ∉ JsMap.keys post ->
  liveStatus (run (checkAllStreamsWith check notify) s) !! key =
  liveStatus (run (checkEntry check notify (key, user))
                  (run (forEntries check notify pre) s)) !! key.
Proof.
  intros Hs Hpre Hpost. rewrite run_cycle, Hs, forEntries_app.
  rewrite run_forEntries_cons. by apply forEntries_liveStatus_other.
Qed.

Lemma wasLive_before key pre s :
  key ∉ JsMap.keys pre ->
  wasLive key (run (forEntries check notify pre) s) = wasLive key s.
Proof. intros H. unfold wasLive. by rewrite forEntries_liveStatus_other. Qed.

Lemma cycles_monitoredUsers n s :
  monitoredUsers (cycles check notify n s) = monitoredUsers s.
Proof.
  induction n as [|n IH]; [done|]. unfold cycles in *. simpl.
  by rewrite run_cycle, forEntries_monitoredUsers.
Qed.

End SchedulerProperties.

Lemma wasLive_true key s : wasLive key s = true <-> liveStatus s !! key = Some true.
Proof.
  unfold wasLive. destruct (liveStatus s !! key) as [[]|]; simpl; split; congruence.
Qed.

Lemma wasLive_false key s : wasLive key s = false <-> liveStatus s !! key <> Some true.
Proof.
  unfold wasLive. destruct (liveStatus s !! key) as [[]|]; simpl; split; congruence.
Qed.

(** In a [Map] an entry's key occurs nowhere else. *)
Lemma NoDup_keys_split {V} (pre post : JsMap.t V) key v :
  NoDup (JsMap.keys (pre ++ (key, v) :: post)) ->
  (key ∉ JsMap.keys pre) /\ (key ∉ JsMap.keys post).
Proof.
  unfold JsMap.keys. rewrite map_app. simpl. intros H.
  apply NoDup_app in H as (_ & Hpre & Hpost).
  apply NoDup_cons in Hpost as [Hpost _]. split; [|done].
  intros Hin. apply (Hpre key Hin). by left.
Qed.

(** One cycle, seen from one tracked key: what is handed off for the
    key, and what the cycle leaves stored for it. *)
Lemma cycle_edge_triggered
  (check : string -> string -> M bool) (notify : User -> M unit)
  (check_framed : forall platform user, framed (check platform user))
  (notify_framed : forall user, framed (notify user))
  (s : Bot) (pre post : list (string * User)) (key : string) (user : User) :
  monitoredUsers s = pre ++ (key, user) :: post ->
  NoDup (JsMap.keys (monitoredUsers s)) ->
  let before := run (forEntries check notify pre) s in
  let observed := fst (observe check key user before) in
  let s' := run (checkAllStreamsWith check notify) s in
  let emitted := notifications key (calls_since s s') in
  (emitted <> [] <-> liveStatus s !! key <> Some true /\ observed = Normal true) /\
  (emitted = [] \/ emitted = [user]) /\
  (liveStatus s !! key = Some true -> emitted = []) /\
  (observed = Normal true ->
   liveStatus s !! key = Some true \/
   fst (handoff check notify key user before) = Normal tt ->
   liveStatus s' !! key = Some true).
Proof.
  intros Hs Hnd before observed s' emitted.
  rewrite Hs in Hnd. apply NoDup_keys_split in Hnd as [Hpre Hpost].
  assert (Hw : wasLive key before = wasLive key s) by by apply wasLive_before.
  assert (He : emitted =
               match observed with
               | Normal true => if wasLive key s then [] else [user]
               | _ => []
               end).
  { unfold emitted, s'. rewrite (cycle_notifications check notify) with
      (pre := pre) (user := user) (post := post) by done.
    unfold fires. fold before. fold observed. rewrite Hw.
    destruct observed as [[]|]; [|done|done]. by destruct (wasLive key s). }
  assert (Hl : liveStatus s' !! key =
               liveStatus (run (checkEntry check notify (key, user)) before) !! key).
  { unfold s'. by apply cycle_liveStatus with (post := post). }
  clearbody emitted s'. subst emitted.
  rewrite <- wasLive_false, <- wasLive_true.
  split; [|split; [|split]].
  - destruct observed as [[]|]; [|split; [done|intros [_ ?]; done]..].
    destruct (wasLive key s); split; try done. by intros [? _].
  - destruct observed as [[]|]; auto. destruct (wasLive key s); auto.
  - intros Ht. rewrite Ht. by destruct observed as [[]|].
  - intros Ho Hor. rewrite Hl, checkEntry_liveStatus by done.
    fold before. fold observed. rewrite Ho, Hw.
    destruct (wasLive key s) eqn:Hws.
    + by apply (proj1 (wasLive_true key before)).
    + destruct Hor as [Hor|Hor]; [done|].
      rewrite Hor. apply lookup_insert_eq.
Qed.

Lemma announced_checks_app l1 l2 :
  announced_checks (l1 ++ l2) = announced_checks l1 ++ announced_checks l2.
Proof.
  induction l1 as [|d l1 IH]; [done|]. destruct d; simpl; by rewrite ?IH.
Qed.

Lemma framed_announcing check platform user :
  framed (check platform user) -> framed (announcing check platform user).
Proof.
  intros H. unfold announcing. apply framed_bind; [apply framed_log|by intros _].
Qed.

Section Announcing.

Variable check : string -> string -> M bool.
Variable notify : User -> M unit.
Hypothesis check_framed : forall platform user, framed (check platform user).
Hypothesis notify_framed : forall user, framed (notify user).
Hypothesis check_silent : forall platform user, silent (check platform user).
Hypothesis notify_silent : forall user, silent (notify user).

(** One turn of the loop calls the checker once, for the entry's
    platform and username, whatever the checker and the hand-off do. *)
Lemma checkEntry_announces key user s :
  exists new,
    console (run (checkEntry (announcing check) notify (key, user)) s) = console s ++ new /\
    announced_checks new = [(platform user, username user)].
Proof.
  unfold run. rewrite checkEntry_unfold. unfold observe, announcing, reached.
  unfold bind at 1, log at 1, noteCall, modify, run. simpl.
  match goal with
  | |- context [check ?p ?u ?s0] =>
      destruct (check_silent p u s0) as (n1 & Hc1 & Ha1); unfold run in Hc1;
      destruct (check p u s0) as [[isLive|e] s1]
  end; simpl in *.
  - destruct (isLive && negb (wasLive key s1)).
    + match goal with
      | |- context [notify ?u ?s0] =>
          destruct (notify_silent u s0) as (n2 & Hc2 & Ha2); unfold run in Hc2;
          destruct (notify u s0) as [[[]|e] s3]
      end; simpl in *.
      * eexists. split; [rewrite Hc2, Hc1, <- !app_assoc; reflexivity|].
        rewrite !announced_checks_app. simpl. by rewrite ?Ha1, ?Ha2.
      * eexists. split; [rewrite Hc2, Hc1, <- !app_assoc; reflexivity|].
        rewrite !announced_checks_app. simpl. by rewrite ?Ha1, ?Ha2.
    + destruct (negb isLive && wasLive key s1); simpl.
      * eexists. split; [rewrite Hc1, <- !app_assoc; reflexivity|].
        rewrite !announced_checks_app. simpl. by rewrite ?Ha1.
      * eexists. split; [rewrite Hc1, <- !app_assoc; reflexivity|].
        rewrite !announced_checks_app. simpl. by rewrite ?Ha1.
  - eexists. split; [rewrite Hc1, <- !app_assoc; reflexivity|].
    rewrite !announced_checks_app. simpl. by rewrite ?Ha1.
Qed.

Lemma observe_console key user s :
  exists new,
    console (snd (observe (announcing check) key user s)) = console s ++ new.
Proof.
  unfold observe, announcing, reached. unfold bind, log, noteCall, modify, run. simpl.
  match goal with
  | |- context [check ?p ?u ?s0] =>
      destruct (check_silent p u s0) as (n1 & Hc1 & _); unfold run in Hc1
  end.
  simpl in Hc1. rewrite Hc1, <- app_assoc. eauto.
Qed.

Lemma forEntries_announces entries s :
  exists new,
    console (run (forEntries (announcing check) notify entries) s) = console s ++ new /\
    announced_checks new =
      List.map (fun entry => (platform (snd entry), username (snd entry))) entries.
Proof.
  revert s. induction entries as [|[key user] rest IH]; intros s.
  - exists []. by rewrite app_nil_r.
  - rewrite run_forEntries_cons
      by (try (intros; apply framed_announcing); done).
    destruct (checkEntry_announces key user s) as (n1 & Hc1 & Ha1).
    destruct (IH (run (checkEntry (announcing check) notify (key, user)) s))
      as (n2 & Hc2 & Ha2).
    exists (n1 ++ n2). split; [by rewrite Hc2, Hc1, <- app_assoc|].
    by rewrite announced_checks_app, Ha1, Ha2.
Qed.

End Announcing.



(** *** The properties at concrete inputs *)

Lemma framed_flaky_check platform user : framed (Examples.flaky_check platform user).
Proof. unfold Examples.flaky_check. framed_tac. Qed.

Lemma NoDup_two_accounts : NoDup (JsMap.keys (monitoredUsers Examples.two_accounts)).
Proof. by apply (bool_decide_unpack _). Qed.

Lemma NoDup_two_offline : NoDup (JsMap.keys (monitoredUsers Examples.two_offline)).
Proof. by apply (bool_decide_unpack _). Qed.

Lemma silent_flaky_check platform user : silent (Examples.flaky_check platform user).
Proof.
  intros s. exists []. unfold Examples.flaky_check.
  destruct (String.eqb user "ninja"); by rewrite app_nil_r.
Qed.

Lemma silent_quiet_notify user : silent (Examples.quiet_notify user).
Proof. intros s. exists []. by rewrite app_nil_r. Qed.



(** ** Requests *)

Lemma axios_resolved {A} w req (answer : nat -> Axios A) s a :
  answer (suspensions s) = Resolved a ->
  axios w req answer s = (Normal a, dispatched w req s).
Proof. intros H. unfold axios. simpl. by rewrite H. Qed.

Lemma axios_rejected {A} w req (answer : nat -> Axios A) s e :
  answer (suspensions s) = Rejected e ->
  axios w req answer s = (Thrown e, dispatched w req s).
Proof. intros H. unfold axios. simpl. by rewrite H. Qed.

Lemma requests_since_app s s' new :
  requests s' = requests s ++ new -> requests_since s s' = new.
Proof. intros H. unfold requests_since. rewrite H. apply drop_app_length. Qed.

(** ** Kick *)

Lemma kickRateLimit_normal w s : completion (kickRateLimit w) s = Normal tt.
Proof.
  unfold completion, kickRateLimit, bind, Date_now, get, modify, sleep, suspend, ret.
  simpl. by destruct (Z.ltb _ _).
Qed.

Lemma kickRateLimit_requests w s : requests (run (kickRateLimit w) s) = requests s.
Proof.
  unfold run, kickRateLimit, bind, Date_now, get, modify, sleep, suspend, ret.
  simpl. by destruct (Z.ltb _ _).
Qed.

(** The pacing records the time at which it lets the caller go on. *)
Lemma kickRateLimit_records w s :
  lastKickRequest (run (kickRateLimit w) s) = clock (run (kickRateLimit w) s).
Proof.
  unfold run, kickRateLimit, bind, Date_now, get, modify, sleep, suspend, ret.
  simpl. by destruct (Z.ltb _ _).
Qed.

(** The pacing lets the caller go on 3000 ms after the recorded time,
    less the time by which the timer fires early. *)
Lemma kickRateLimit_spacing w s :
  lastKickRequest s <= clock s ->
  lastKickRequest s + kickRequestDelay - Z.of_N (timer_early w (suspensions s)) <=
    lastKickRequest (run (kickRateLimit w) s) /\
  clock s <= clock (run (kickRateLimit w) s).
Proof.
  intros Hle.
  unfold run, kickRateLimit, bind, Date_now, get, modify, sleep, suspend, ret,
    timerDelay, kickRequestDelay.
  simpl. destruct (Z.ltb_spec (clock s - lastKickRequest s) 3000); simpl; [|lia].
  destruct (Z.leb_spec 1 (3000 - (clock s - lastKickRequest s))); [|lia].
  destruct (Z.leb_spec (3000 - (clock s - lastKickRequest s)) 2147483647); simpl; lia.
Qed.

Lemma tryKickWebScraping_never_throws w user s :
  exists live, completion (tryKickWebScraping w user) s = Normal live.
Proof.
  unfold completion, tryKickWebScraping, try_catch, bind, randomUA, log, modify, ret.
  simpl. destruct (axios _ _ _ _) as [[p|e] s1]; simpl; eauto.
Qed.

Lemma checkKickLive_unfold w user s :
  checkKickLive w user s =
  match tryKickAPI w user (run (kickRateLimit w) s) with
  | (Normal (Some true), s1) => (Normal true, s1)
  | (Normal _, s1) => tryKickWebScraping w user (run (log (LogKickApiFailed user)) s1)
  | (Thrown _, s1) => (Normal false, run (log (LogKickAllFailed user)) s1)
  end.
Proof.
  unfold checkKickLive, bind at 1. pose proof (kickRateLimit_normal w s) as Hn.
  unfold completion, run in *. destruct (kickRateLimit w s) as [c s0]. simpl in *.
  subst c. unfold try_catch, bind at 1.
  destruct (tryKickAPI w user s0) as [[[[]|]|e] s1]; simpl; try done.
  all: unfold bind, log, modify; simpl.
  all: match goal with
       | |- context [tryKickWebScraping ?w0 ?u0 ?s2] =>
           destruct (tryKickWebScraping_never_throws w0 u0 s2) as [live Hl];
           unfold completion in Hl;
           destruct (tryKickWebScraping w0 u0 s2) as [c s3]; simpl in Hl; by subst c
       end.
Qed.

Ltac munfold :=
  unfold run, completion, bind, ret, try_catch, throw, get, modify, log, noteCall,
    Date_now, axios, suspend, sleep, randomUA in *; simpl in *.

Lemma tryKickAPI_resolved w user s livestream :
  kick_api w (suspensions s) user = Resolved livestream ->
  tryKickAPI w user s =
  (Normal (Some (Js.strict_ne_null livestream)),
   dispatched w (KickChannelApi user (kick_api_ua w s)) s).
Proof. intros H. unfold tryKickAPI, dispatched, kick_api_ua. munfold. by rewrite H. Qed.

Lemma tryKickAPI_rejected w user s e :
  kick_api w (suspensions s) user = Rejected e ->
  tryKickAPI w user s =
  if status_is e 403
  then (Normal None,
        run (log (LogKick403 user)) (dispatched w (KickChannelApi user (kick_api_ua w s)) s))
  else (Thrown e, dispatched w (KickChannelApi user (kick_api_ua w s)) s).
Proof.
  intros H. unfold tryKickAPI, dispatched, kick_api_ua. munfold. rewrite H.
  by destruct (status_is e 403).
Qed.

Lemma tryKickWebScraping_requests w user s :
  requests (run (tryKickWebScraping w user) s) =
  requests s ++ [(clock s, KickChannelPage user (kick_page_ua w s))].
Proof.
  unfold tryKickWebScraping, kick_page_ua. munfold.
  by destruct (kick_page w (suspensions s) user).
Qed.

Lemma tryKickWebScraping_lastKickRequest w user s :
  lastKickRequest (run (tryKickWebScraping w user) s) = lastKickRequest s.
Proof.
  unfold tryKickWebScraping. munfold. by destruct (kick_page w (suspensions s) user).
Qed.

Lemma tryKickAPI_requests w user s :
  requests (run (tryKickAPI w user) s) =
  requests s ++ [(clock s, KickChannelApi user (kick_api_ua w s))].
Proof.
  unfold tryKickAPI, kick_api_ua. munfold.
  destruct (kick_api w (suspensions s) user) as [f|e]; simpl; [done|].
  by destruct (status_is e 403).
Qed.

Lemma tryKickAPI_lastKickRequest w user s :
  lastKickRequest (run (tryKickAPI w user) s) = lastKickRequest s.
Proof.
  unfold tryKickAPI. munfold.
  destruct (kick_api w (suspensions s) user) as [f|e]; simpl; [done|].
  by destruct (status_is e 403).
Qed.

(** What a Kick check leaves: the time recorded by its pacing, and its
    API request, dispatched at that time, first among its requests. *)
Lemma checkKickLive_dispatch w user s :
  let s0 := run (kickRateLimit w) s in
  let s' := run (checkKickLive w user) s in
  lastKickRequest s' = lastKickRequest s0 /\
  exists rest,
    requests_since s s' =
    (lastKickRequest s', KickChannelApi user (kick_api_ua w s0)) :: rest.
Proof.
  intros s0 s'. subst s'.
  replace (run (checkKickLive w user) s) with (snd (checkKickLive w user s)) by done.
  rewrite checkKickLive_unfold. fold s0.
  pose proof (tryKickAPI_requests w user s0) as Hr.
  pose proof (tryKickAPI_lastKickRequest w user s0) as Hk.
  unfold run at 1 in Hr. unfold run at 1 in Hk.
  assert (Hc : clock s0 = lastKickRequest s0) by (symmetry; apply kickRateLimit_records).
  assert (Hr0 : requests s0 = requests s) by apply kickRateLimit_requests.
  rewrite Hc, Hr0 in Hr.
  destruct (tryKickAPI w user s0) as [[[[]|]|e] s1]; simpl in *.
  - split; [done|]. exists []. rewrite Hk. by apply requests_since_app.
  - pose proof (tryKickWebScraping_requests w user (run (log (LogKickApiFailed user)) s1)) as Hr2.
    pose proof (tryKickWebScraping_lastKickRequest w user (run (log (LogKickApiFailed user)) s1)) as Hk2.
    unfold run at 1 in Hr2. unfold run at 1 in Hk2.
    destruct (tryKickWebScraping _ _ _) as [c s2]. simpl in *.
    rewrite Hk2, Hk. split; [done|]. eexists. apply requests_since_app.
    rewrite Hr2, Hr, <- app_assoc. reflexivity.
  - pose proof (tryKickWebScraping_requests w user (run (log (LogKickApiFailed user)) s1)) as Hr2.
    pose proof (tryKickWebScraping_lastKickRequest w user (run (log (LogKickApiFailed user)) s1)) as Hk2.
    unfold run at 1 in Hr2. unfold run at 1 in Hk2.
    destruct (tryKickWebScraping _ _ _) as [c s2]. simpl in *.
    rewrite Hk2, Hk. split; [done|]. eexists. apply requests_since_app.
    rewrite Hr2, Hr, <- app_assoc. reflexivity.
  - split; [done|]. exists []. rewrite Hk. by apply requests_since_app.
Qed.

Lemma tryKickAPI_clock w user s : clock s <= clock (run (tryKickAPI w user) s).
Proof.
  unfold tryKickAPI. munfold.
  destruct (kick_api w (suspensions s) user) as [f|e]; simpl; [lia|].
  destruct (status_is e 403); simpl; lia.
Qed.

Lemma tryKickWebScraping_clock w user s :
  clock s <= clock (run (tryKickWebScraping w user) s).
Proof.
  unfold tryKickWebScraping. munfold.
  destruct (kick_page w (suspensions s) user); simpl; lia.
Qed.

(** After a Kick check the recorded time is not ahead of the clock. *)
Lemma checkKickLive_clock w user s :
  lastKickRequest (run (checkKickLive w user) s) <= clock (run (checkKickLive w user) s).
Proof.
  replace (run (checkKickLive w user) s) with (snd (checkKickLive w user s)) by done.
  rewrite checkKickLive_unfold.
  pose proof (kickRateLimit_records w s) as Hrec.
  set (s0 := run (kickRateLimit w) s) in *.
  pose proof (tryKickAPI_clock w user s0) as Hc.
  pose proof (tryKickAPI_lastKickRequest w user s0) as Hk.
  unfold run at 1 in Hc. unfold run at 1 in Hk.
  destruct (tryKickAPI w user s0) as [[[[]|]|e] s1]; simpl in *; try lia.
  all: pose proof (tryKickWebScraping_clock w user (run (log (LogKickApiFailed user)) s1))
         as Hc2;
       pose proof (tryKickWebScraping_lastKickRequest
                     w user (run (log (LogKickApiFailed user)) s1)) as Hk2;
       unfold run at 2 in Hc2; unfold run at 1 in Hk2;
       destruct (tryKickWebScraping _ _ _) as [c s2]; simpl in *; lia.
Qed.




Lemma count_requests_app P l1 l2 :
  count_requests P (l1 ++ l2) = (count_requests P l1 + count_requests P l2)%nat.
Proof. unfold count_requests. by rewrite List.filter_app, length_app. Qed.

(** The requests of a Kick check that goes on to the scraping step. *)
Lemma checkKickLive_fallback_requests w user s :
  requests (run (tryKickWebScraping w user) (before_scraping w user s)) =
  requests s ++
  [(clock (run (kickRateLimit w) s),
    KickChannelApi user (kick_api_ua w (run (kickRateLimit w) s)));
   (clock (before_scraping w user s),
    KickChannelPage user (kick_page_ua w (before_scraping w user s)))].
Proof.
  rewrite tryKickWebScraping_requests. unfold before_scraping at 1.
  replace (requests (run (log (LogKickApiFailed user))
                         (run (tryKickAPI w user) (run (kickRateLimit w) s))))
    with (requests (run (tryKickAPI w user) (run (kickRateLimit w) s))) by done.
  by rewrite tryKickAPI_requests, kickRateLimit_requests, <- app_assoc.
Qed.

(** C3. When the API step of a Kick check is rejected with status 403,
    the check is the scraping step: it completes as the scraping step
    does, in the state the scraping step leaves, and exactly one page
    request goes out.  When the API step is rejected with anything
    else, the check completes normally with [false] and no page request
    goes out. *)
Theorem kick_rejected_api_step (w : World) (user : string) (s : Bot) (e : JsError) :
  kick_api w (suspensions (run (kickRateLimit w) s)) user = Rejected e ->
  let s' := run (checkKickLive w user) s in
  (status_is e 403 = true ->
   checkKickLive w user s = tryKickWebScraping w user (before_scraping w user s) /\
   count_requests is_kick_page (requests_since s s') = 1%nat) /\
  (status_is e 403 = false ->
   completion (checkKickLive w user) s = Normal false /\
   count_requests is_kick_page (requests_since s s') = 0%nat).
Proof.
  intros Hrej s'. subst s'.
  pose proof (tryKickAPI_rejected w user _ e Hrej) as Hapi.
  split; intros H403; rewrite H403 in Hapi.
  - assert (Heq : checkKickLive w user s =
                  tryKickWebScraping w user (before_scraping w user s)).
    { rewrite checkKickLive_unfold. unfold before_scraping.
      replace (run (tryKickAPI w user) (run (kickRateLimit w) s))
        with (snd (tryKickAPI w user (run (kickRateLimit w) s))) by done.
      rewrite Hapi. reflexivity. }
    split; [done|].
    unfold run. rewrite Heq.
    erewrite requests_since_app by apply checkKickLive_fallback_requests.
    reflexivity.
  - unfold completion, run. rewrite checkKickLive_unfold, Hapi. split; [done|].
    erewrite requests_since_app
      by (simpl; rewrite kickRateLimit_requests; reflexivity).
    reflexivity.
Qed.

(** With a 403 from the API the page is fetched once and its verdict is
    the result; with a 500 the result is [false] and no page is
    fetched. *)
Lemma kick_rejected_api_step_witness :
  let s := Examples.constructed in
  (completion (checkKickLive (Examples.kick_rejecting 403) "xqc") s = Normal true /\
   count_requests is_kick_page
     (requests_since s (run (checkKickLive (Examples.kick_rejecting 403) "xqc") s)) = 1%nat) /\
  (completion (checkKickLive (Examples.kick_rejecting 500) "xqc") s = Normal false /\
   count_requests is_kick_page
     (requests_since s (run (checkKickLive (Examples.kick_rejecting 500) "xqc") s)) = 0%nat).
Proof.
  split.
  - destruct (kick_rejected_api_step (Examples.kick_rejecting 403) "xqc"
                Examples.constructed (Examples.http 403) eq_refl) as [H403 _].
    destruct (H403 eq_refl) as [Heq Hcount]. split; [|exact Hcount].
    unfold completion. rewrite Heq. vm_compute. reflexivity.
  - destruct (kick_rejected_api_step (Examples.kick_rejecting 500) "xqc"
                Examples.constructed (Examples.http 500) eq_refl) as [_ Hother].
    exact (Hother eq_refl).
Defined.

(** When the API step answers, the check goes on to the scraping step
    unless the answer says live. *)
Lemma checkKickLive_answered w user s livestream :
  kick_api w (suspensions (run (kickRateLimit w) s)) user = Resolved livestream ->
  checkKickLive w user s =
  if Js.strict_ne_null livestream
  then (Normal true, run (tryKickAPI w user) (run (kickRateLimit w) s))
  else tryKickWebScraping w user (before_scraping w user s).
Proof.
  intros Hres. rewrite checkKickLive_unfold. unfold before_scraping.
  pose proof (tryKickAPI_resolved w user _ livestream Hres) as Hapi.
  replace (run (tryKickAPI w user) (run (kickRateLimit w) s))
    with (snd (tryKickAPI w user (run (kickRateLimit w) s))) by done.
  rewrite Hapi. by destruct (Js.strict_ne_null livestream).
Qed.

(** C2, at the failing input.  The API step completes and reports
    [livestream: null]; the check nevertheless fetches the channel page
    and returns the verdict of the scraping heuristics, here [true]. *)
Theorem kick_offline_answer_still_scraped :
  let w := Examples.kick_offline in
  let s := Examples.constructed in
  kick_api w (suspensions (run (kickRateLimit w) s)) "xqc" = Resolved Js.FNull /\
  Js.strict_ne_null Js.FNull = false /\
  completion (checkKickLive w "xqc") s = Normal true /\
  count_requests is_kick_page (requests_since s (run (checkKickLive w "xqc") s)) = 1%nat.
Proof. vm_compute. repeat split. Qed.

(** ** TikTok *)

(** C8. The TikTok check always completes normally.  When the request
    for the live page is rejected, whatever the error (a 403, a 404,
    another status, a timeout, no response at all), the check returns
    [false], and what it leaves differs from the state right after the
    request by one console line only. *)
Theorem tiktok_check_never_throws (w : World) (user : string) (s : Bot) :
  (exists live, completion (checkTikTokLive w user) s = Normal live) /\
  (forall e,
     tiktok_page w (suspensions s) user = Rejected e ->
     completion (checkTikTokLive w user) s = Normal false /\
     exists d, run (checkTikTokLive w user) s =
               run (log d) (dispatched w (TikTokLivePage user) s)).
Proof.
  split.
  - unfold checkTikTokLive. munfold.
    destruct (tiktok_page w (suspensions s) user) as [p|e]; simpl.
    + destruct (Js.truthy (responseUrl p) && _); simpl; eauto.
    + destruct (status_is e 404); [|destruct (status_is e 403);
        [|destruct (code_is e "ECONNABORTED")]]; simpl; eauto.
  - intros e He. unfold checkTikTokLive, dispatched. munfold. rewrite He. simpl.
    destruct (status_is e 404); [|destruct (status_is e 403);
      [|destruct (code_is e "ECONNABORTED")]]; simpl; eauto.
Qed.

(** A 403 and a 404 both give [false]; only the console line differs. *)
Lemma tiktok_check_never_throws_witness :
  let s := Examples.constructed in
  (completion (checkTikTokLive (Examples.tiktok_rejecting 403) "charli") s = Normal false /\
   console (run (checkTikTokLive (Examples.tiktok_rejecting 403) "charli") s) =
     [LogTikTokBlocked "charli"]) /\
  (completion (checkTikTokLive (Examples.tiktok_rejecting 404) "charli") s = Normal false /\
   console (run (checkTikTokLive (Examples.tiktok_rejecting 404) "charli") s) =
     [LogTikTokNotFound "charli"]).
Proof.
  split.
  - destruct (tiktok_check_never_throws (Examples.tiktok_rejecting 403) "charli"
                Examples.constructed) as [_ Hrej].
    destruct (Hrej (Examples.http 403) eq_refl) as [Hfalse _].
    split; [exact Hfalse|vm_compute; reflexivity].
  - destruct (tiktok_check_never_throws (Examples.tiktok_rejecting 404) "charli"
                Examples.constructed) as [_ Hrej].
    destruct (Hrej (Examples.http 404) eq_refl) as [Hfalse _].
    split; [exact Hfalse|vm_compute; reflexivity].
Defined.

(** ** Twitch *)

(** The slot after an acquisition attempt: the granted token, or what
    it held before when the grant is rejected. *)
Lemma getTwitchToken_slot w s :
  twitchToken (run (getTwitchToken w) s) =
  match twitch_token w (suspensions s) with
  | Resolved access_token => access_token
  | Rejected _ => twitchToken s
  end.
Proof.
  unfold getTwitchToken. munfold. by destruct (twitch_token w (suspensions s)).
Qed.

(** With a token in the slot, a check sends that token and leaves the
    slot alone, however the streams call settles. *)
Lemma checkTwitchLive_holding w user s :
  Js.truthy (twitchToken s) = true ->
  twitchToken (run (checkTwitchLive w user) s) = twitchToken s /\
  requests (run (checkTwitchLive w user) s) =
    requests s ++ [(clock s, TwitchStreams user (twitchToken s))] /\
  clock s <= clock (run (checkTwitchLive w user) s) /\
  (forall e, twitch_streams w (suspensions s) user (twitchToken s) = Rejected e ->
             completion (checkTwitchLive w user) s = Normal false).
Proof.
  intros Ht. unfold checkTwitchLive. munfold. rewrite Ht. simpl.
  destruct (twitch_streams w (suspensions s) user (twitchToken s)) as [d|e]; simpl;
    repeat split; try done; lia.
Qed.

(** C4, as amended.  A token in the slot stays there: a check with a
    token in the slot sends that token and requests no new one, leaves
    the slot as it was however the streams call settles, and returns
    [false] when the call is rejected; the next check then again sends
    the same token and requests no new one. *)
Theorem twitch_token_kept_after_rejection (w : World) (user next : string) (s : Bot) :
  Js.truthy (twitchToken s) = true ->
  let s' := run (checkTwitchLive w user) s in
  let s'' := run (checkTwitchLive w next) s' in
  twitchToken s' = twitchToken s /\
  requests_since s s' = [(clock s, TwitchStreams user (twitchToken s))] /\
  (forall e, twitch_streams w (suspensions s) user (twitchToken s) = Rejected e ->
             completion (checkTwitchLive w user) s = Normal false) /\
  twitchToken s'' = twitchToken s /\
  requests_since s' s'' = [(clock s', TwitchStreams next (twitchToken s))].
Proof.
  intros Ht s' s''.
  destruct (checkTwitchLive_holding w user s Ht) as (Htok & Hreq & _ & Hrej).
  fold s' in Htok, Hreq.
  assert (Ht' : Js.truthy (twitchToken s') = true) by by rewrite Htok.
  destruct (checkTwitchLive_holding w next s' Ht') as (Htok' & Hreq' & _ & _).
  fold s'' in Htok', Hreq'. rewrite Htok in Htok', Hreq'.
  repeat split; try done; by apply requests_since_app.
Qed.

(** The streams call is rejected with 401 twice; both checks send
    [token-1] and no token is requested. *)
Lemma twitch_token_kept_after_rejection_witness :
  let w := Examples.twitch_unauthorized in
  let s := Examples.holding_token in
  let s' := run (checkTwitchLive w "ninja") s in
  let s'' := run (checkTwitchLive w "ninja") s' in
  twitchToken s' = Some "token-1" /\
  completion (checkTwitchLive w "ninja") s = Normal false /\
  List.map snd (requests s'') =
    [TwitchStreams "ninja" (Some "token-1"); TwitchStreams "ninja" (Some "token-1")].
Proof.
  destruct (twitch_token_kept_after_rejection Examples.twitch_unauthorized
              "ninja" "ninja" Examples.holding_token eq_refl)
    as (Htok & _ & Hrej & _ & _).
  split; [exact Htok|]. split; [exact (Hrej (Examples.http 401) eq_refl)|].
  vm_compute. reflexivity.
Defined.

(** C4, as the specification words it, fails: after a 401 the slot
    still holds the rejected token. *)
Lemma token_not_invalidated_on_auth_rejection :
  ~ token_invalidated_on_auth_rejection.
Proof.
  intros H.
  specialize (H Examples.twitch_unauthorized "ninja" Examples.holding_token
                (Examples.http 401) eq_refl eq_refl eq_refl).
  vm_compute in H. discriminate H.
Qed.

(** ** YouTube *)

Lemma appends_pure {A} (m : M A) :
  (forall s, requests (run m s) = requests s) -> appends m.
Proof. intros H s. exists []. by rewrite app_nil_r. Qed.

Lemma appends_bind {A B} (m : M A) (k : A -> M B) :
  appends m -> (forall a, appends (k a)) -> appends (bind m k).
Proof.
  intros Hm Hk s. unfold appends, opens_with, run, bind in *.
  destruct (Hm s) as [n1 H1].
  destruct (m s) as [[a|e] s1]; simpl in *; [|eauto].
  destruct (Hk a s1) as [n2 H2]. exists (n1 ++ n2). by rewrite H2, H1, app_assoc.
Qed.

Lemma appends_try_catch {A} (m : M A) (h : JsError -> M A) :
  appends m -> (forall e, appends (h e)) -> appends (try_catch m h).
Proof.
  intros Hm Hh s. unfold appends, opens_with, run, try_catch in *.
  destruct (Hm s) as [n1 H1].
  destruct (m s) as [[a|e] s1]; simpl in *; [eauto|].
  destruct (Hh e s1) as [n2 H2]. exists (n1 ++ n2). by rewrite H2, H1, app_assoc.
Qed.

Lemma appends_axios {A} w req (answer : nat -> Axios A) : appends (axios w req answer).
Proof.
  intros s. exists [(clock s, req)]. unfold run, axios. simpl.
  by destruct (answer (suspensions s)).
Qed.

Lemma appends_ret {A} (a : A) : appends (ret a).
Proof. by apply appends_pure. Qed.

Lemma appends_log d : appends (log d).
Proof. by apply appends_pure. Qed.

Lemma opens_axios {A} w req (answer : nat -> Axios A) : opens_with req (axios w req answer).
Proof.
  intros s. exists []. unfold run, axios. simpl. by destruct (answer (suspensions s)).
Qed.

Lemma opens_bind {A B} req (m : M A) (k : A -> M B) :
  opens_with req m -> (forall a, appends (k a)) -> opens_with req (bind m k).
Proof.
  intros Hm Hk s. unfold appends, opens_with, run, bind in *.
  destruct (Hm s) as [n1 H1].
  destruct (m s) as [[a|e] s1]; simpl in *; [|eauto].
  destruct (Hk a s1) as [n2 H2]. exists (n1 ++ n2).
  by rewrite H2, H1, <- app_assoc.
Qed.

Lemma opens_try_catch {A} req (m : M A) (h : JsError -> M A) :
  opens_with req m -> (forall e, appends (h e)) -> opens_with req (try_catch m h).
Proof.
  intros Hm Hh s. unfold appends, opens_with, run, try_catch in *.
  destruct (Hm s) as [n1 H1].
  destruct (m s) as [[a|e] s1]; simpl in *; [eauto|].
  destruct (Hh e s1) as [n2 H2]. exists (n1 ++ n2).
  by rewrite H2, H1, <- app_assoc.
Qed.

Ltac appends_step :=
  first
    [ apply appends_ret | apply appends_log | apply appends_axios
    | apply appends_bind; [|intros ?]
    | apply appends_try_catch; [|intros ?]
    | match goal with
      | |- appends (if ?b then _ else _) => destruct b
      | |- appends (match ?x with _ => _ end) => destruct x
      end
    | progress (cbv beta zeta) ].

Ltac appends_tac := repeat appends_step.

Lemma opens_resolveYouTubeChannel w input :
  opens_with (YouTubeSearchChannel input) (resolveYouTubeChannel w input).
Proof.
  unfold resolveYouTubeChannel.
  apply opens_try_catch; [apply opens_bind; [apply opens_axios|intros ?]|intros ?];
    appends_tac.
Qed.

(** A check of an input that is not a channel ID starts with a
    resolution request, every time. *)
Lemma checkYouTubeLive_resolves w input s :
  Js.truthy (YOUTUBE_API_KEY w) = true ->
  Js.startsWith "UC" input = false ->
  exists rest,
    requests_since s (run (checkYouTubeLive w input) s) =
    (clock s, YouTubeSearchChannel input) :: rest.
Proof.
  intros Hkey Huc.
  assert (Ho : opens_with (YouTubeSearchChannel input) (checkYouTubeLive w input)).
  { unfold checkYouTubeLive. rewrite Hkey, Huc. simpl.
    apply opens_try_catch;
      [apply opens_bind; [apply opens_resolveYouTubeChannel|intros ?]|intros ?];
      appends_tac. }
  destruct (Ho s) as [rest Hr]. exists rest. by apply requests_since_app.
Qed.

(** C5, at the failing input.  The handle is resolved when the account
    is added and the result is stored in [resolvedId]; the next cycle
    nevertheless resolves the handle again and asks for the live events
    of the freshly resolved channel, not of the stored one. *)
Theorem youtube_poll_ignores_resolvedId :
  let w := Examples.youtube_moving in
  let s0 := Examples.constructed in
  let s1 := run (handleTrackCommand w "youtube" "somehandle" None) s0 in
  let s2 := run (checkAllStreams w) s1 in
  List.map snd (requests_since s0 s1) = [YouTubeSearchChannel "somehandle"] /\
  option_map resolvedId (JsMap.get "youtube:somehandle" (monitoredUsers s1)) =
    Some (Some "UCold") /\
  List.map snd (requests_since s1 s2) =
    [YouTubeSearchChannel "somehandle"; YouTubeSearchLive "UCnew"] /\
  count_requests is_youtube_resolution (requests_since s1 s2) = 1%nat.
Proof. vm_compute. repeat split. Qed.

(** ** The two maps *)

Lemma has_delete_same {V} key (m : JsMap.t V) : JsMap.has key (JsMap.delete key m) = false.
Proof.
  unfold JsMap.has, JsMap.delete. induction m as [|[k v] m IH]; simpl; [done|].
  destruct (String.eqb k key) eqn:E; simpl; [done|]. by rewrite E.
Qed.

Lemma has_delete_other {V} k key (m : JsMap.t V) :
  k <> key -> JsMap.has k (JsMap.delete key m) = JsMap.has k m.
Proof.
  intros Hne. unfold JsMap.has, JsMap.delete.
  induction m as [|[k' v] m IH]; simpl; [done|].
  destruct (String.eqb k' key) eqn:E; simpl; [|by rewrite IH].
  apply String.eqb_eq in E. subst k'.
  assert (String.eqb key k = false) as -> by (apply String.eqb_neq; congruence).
  done.
Qed.

Lemma has_snoc {V} k key v (m : JsMap.t V) :
  JsMap.has k m = true -> JsMap.has k (m ++ [(key, v)]) = true.
Proof. intros H. unfold JsMap.has in *. rewrite existsb_app, H. done. Qed.

Lemma has_elem_of {V} k (m : JsMap.t V) : k ∈ JsMap.keys m -> JsMap.has k m = true.
Proof.
  unfold JsMap.has, JsMap.keys. induction m as [|[k' v] m IH]; simpl.
  - by intros ?%elem_of_nil.
  - intros [->|Hin]%elem_of_cons; [by rewrite String.eqb_refl|].
    rewrite IH by done. apply orb_true_r.
Qed.

Lemma framed_validateUser w platform user : framed (validateUser w platform user).
Proof.
  unfold validateUser, validateYouTubeUser, validateTwitchUser. framed_tac.
Qed.

Lemma handleTrackCommand_liveStatus w platform user display_name s :
  liveStatus (run (handleTrackCommand w platform user display_name) s) = liveStatus s.
Proof.
  unfold handleTrackCommand. munfold.
  destruct (JsMap.has _ _); [done|].
  destruct (framed_validateUser w platform user s) as (_ & Hl & _). unfold run in Hl.
  destruct (validateUser w platform user s) as [[v|e] s1]; simpl in *; [|done].
  by destruct (valid v).
Qed.

Lemma handleTrackCommand_keeps w platform user display_name k s :
  tracked k s -> tracked k (run (handleTrackCommand w platform user display_name) s).
Proof.
  unfold tracked, handleTrackCommand. munfold. intros Hk.
  destruct (JsMap.has (makeKey platform user) (monitoredUsers s)) eqn:Hhas; [done|].
  destruct (framed_validateUser w platform user s) as (Hu & _ & _). unfold run in Hu.
  destruct (validateUser w platform user s) as [[v|e] s1]; simpl in *;
    [|by rewrite Hu].
  destruct (valid v); simpl; [|by rewrite Hu].
  unfold JsMap.set. rewrite Hu, Hhas. by apply has_snoc.
Qed.

Lemma handleRemoveCommand_unfold platform user s :
  run (handleRemoveCommand platform user) s =
  if JsMap.has (makeKey platform user) (monitoredUsers s)
  then with_liveStatus (delete (makeKey platform user) (liveStatus s))
         (with_monitoredUsers (JsMap.delete (makeKey platform user) (monitoredUsers s)) s)
  else s.
Proof. unfold handleRemoveCommand. munfold. by destruct (JsMap.has _ _). Qed.

(** A cycle stores state only under keys of [monitoredUsers]. *)
Lemma forEntries_stores_tracked check notify
  (check_framed : forall platform user, framed (check platform user))
  (notify_framed : forall user, framed (notify user)) entries k s :
  is_Some (liveStatus (run (forEntries check notify entries) s) !! k) ->
  is_Some (liveStatus s !! k) \/ k ∈ JsMap.keys entries.
Proof.
  revert s. induction entries as [|[key user] rest IH]; intros s; [by left|].
  rewrite run_forEntries_cons by done. intros H%IH.
  destruct H as [H|H]; [|right; simpl; by apply elem_of_cons; right].
  destruct (decide (k = key)) as [->|Hne]; [right; simpl; by apply elem_of_cons; left|].
  left. by rewrite checkEntry_liveStatus_other in H.
Qed.

Lemma step_stored_are_tracked w s op :
  stored_are_tracked s -> stored_are_tracked (step w s op).
Proof.
  intros Hinv k. destruct op as [platform user display_name|platform user|]; simpl.
  - rewrite handleTrackCommand_liveStatus. intros H.
    by apply handleTrackCommand_keeps, Hinv.
  - rewrite handleRemoveCommand_unfold. unfold tracked.
    destruct (JsMap.has (makeKey platform user) (monitoredUsers s)) eqn:Hhas;
      [|apply Hinv].
    simpl. destruct (decide (k = makeKey platform user)) as [->|Hne].
    + rewrite lookup_delete_eq. by intros [? ?].
    + rewrite lookup_delete_ne by done. rewrite has_delete_other by done. apply Hinv.
  - unfold checkAllStreams, tracked.
    rewrite run_cycle, forEntries_monitoredUsers by auto with framed.
    intros H. apply forEntries_stores_tracked in H; [|auto with framed..].
    destruct H as [H|H]; [by apply Hinv|by apply has_elem_of].
Qed.

Lemma exec_stored_are_tracked w ops s :
  stored_are_tracked s -> stored_are_tracked (exec w ops s).
Proof.
  revert s. unfold exec. induction ops as [|op ops IH]; intros s Hs; [done|].
  simpl. apply IH. by apply step_stored_are_tracked.
Qed.

(** X22. Removal and the stored state, for commands and cycles that
    are handled one at a time.  Removing a tracked account deletes its
    [liveStatus] entry together with its [monitoredUsers] entry; the
    [track] command for the same platform and username, handled next,
    leaves the entry absent, whatever was stored before the removal.
    And in a bot that started with an empty [liveStatus], after any
    commands and cycles none of which overlaps another, every key of
    [liveStatus] is tracked. *)
Theorem remove_clears_liveStatus (w : World) (platform user : string) (s : Bot) :
  let key := makeKey platform user in
  tracked key s ->
  let s1 := run (handleRemoveCommand platform user) s in
  (liveStatus s1 !! key = None /\ ~ tracked key s1) /\
  (forall display_name,
     liveStatus (run (handleTrackCommand w platform user display_name) s1) !! key = None) /\
  (forall ops s0 k,
     liveStatus s0 = ∅ ->
     is_Some (liveStatus (exec w ops s0) !! k) ->
     tracked k (exec w ops s0)).
Proof.
  intros key Ht s1.
  assert (Hs1 : liveStatus s1 !! key = None /\ ~ tracked key s1).
  { unfold s1, tracked. rewrite handleRemoveCommand_unfold. fold key.
    unfold tracked in Ht. rewrite Ht. simpl. split; [apply lookup_delete_eq|].
    by rewrite has_delete_same. }
  split; [done|]. split.
  - intros display_name. rewrite handleTrackCommand_liveStatus. apply Hs1.
  - intros ops s0 k Hempty Hsome.
    apply (exec_stored_are_tracked w ops s0); [|done].
    intros k'. rewrite Hempty, lookup_empty. by intros [? ?].
Qed.

(** [ninja] is stored as live; after [remove] and a new [track] the
    account is tracked again and nothing is stored for it. *)
Lemma remove_clears_liveStatus_witness :
  let w := Examples.twitch_live in
  let s := Examples.two_accounts in
  let s1 := run (handleRemoveCommand "twitch" "ninja") s in
  let s2 := run (handleTrackCommand w "twitch" "ninja" None) s1 in
  liveStatus s !! "twitch:ninja" = Some true /\
  liveStatus s1 !! "twitch:ninja" = None /\
  tracked "twitch:ninja" s2 /\
  liveStatus s2 !! "twitch:ninja" = None.
Proof.
  destruct (remove_clears_liveStatus Examples.twitch_live "twitch" "ninja"
              Examples.two_accounts eq_refl) as ((Hgone & _) & Hagain & _).
  split; [vm_compute; reflexivity|]. split; [exact Hgone|].
  split; [vm_compute; reflexivity|exact (Hagain None)].
Defined.

(** ** How the checkers and the notification complete *)

Ltac split_cases :=
  repeat (simpl;
          match goal with
          | |- context [match ?x with _ => _ end] => destruct x
          | |- context [if ?b then _ else _] => destruct b
          end); simpl; eauto.

Lemma resolveYouTubeChannel_never_throws w input s :
  exists id, completion (resolveYouTubeChannel w input) s = Normal id.
Proof. unfold resolveYouTubeChannel. munfold. split_cases. Qed.

Lemma checkYouTubeLive_never_throws w input s :
  exists live, completion (checkYouTubeLive w input) s = Normal live.
Proof.
  unfold checkYouTubeLive. destruct (negb (Js.truthy (YOUTUBE_API_KEY w))); [by eexists|].
  destruct (negb (Js.startsWith "UC" input)).
  - unfold completion, try_catch, bind at 1.
    destruct (resolveYouTubeChannel w input s) as [[id|?] s1]; [|simpl; eauto].
    munfold. split_cases.
  - munfold. split_cases.
Qed.

Lemma checkTwitchLive_never_throws w user s :
  exists live, completion (checkTwitchLive w user) s = Normal live.
Proof. unfold checkTwitchLive, getTwitchToken. munfold. split_cases. Qed.

Lemma checkKickLive_never_throws w user s :
  exists live, completion (checkKickLive w user) s = Normal live.
Proof.
  unfold completion. rewrite checkKickLive_unfold.
  destruct (tryKickAPI w user _) as [[[[]|]|e] s1]; simpl; eauto;
    apply tryKickWebScraping_never_throws.
Qed.

Lemma checkTikTokLive_never_throws w user s :
  exists live, completion (checkTikTokLive w user) s = Normal live.
Proof.
  unfold checkTikTokLive. munfold.
  destruct (tiktok_page w (suspensions s) user) as [p|e]; simpl.
  - destruct (Js.truthy (responseUrl p) && _); simpl; eauto.
  - destruct (status_is e 404); [|destruct (status_is e 403);
      [|destruct (code_is e "ECONNABORTED")]]; simpl; eauto.
Qed.

(** Every checker of the repository swallows its own errors. *)
Lemma checkStreamStatus_never_throws w platform user s :
  exists live, completion (checkStreamStatus w platform user) s = Normal live.
Proof.
  unfold checkStreamStatus.
  destruct (String.eqb platform "youtube"); [apply checkYouTubeLive_never_throws|].
  destruct (String.eqb platform "twitch"); [apply checkTwitchLive_never_throws|].
  destruct (String.eqb platform "tiktok"); [apply checkTikTokLive_never_throws|].
  destruct (String.eqb platform "kick"); [apply checkKickLive_never_throws|].
  by eexists.
Qed.

(** The hand-off throws on an embed the builder refuses, before
    anything is sent; otherwise it posts once and completes normally,
    with a console line when the post is rejected. *)
Lemma sendLiveNotification_unfold w user s :
  sendLiveNotification w user s =
  if liveEmbed_ok user then
    (Normal tt,
     match webhook w (suspensions s) with
     | Resolved _ => dispatched w (liveWebhook user) s
     | Rejected _ => run (log LogWebhookError) (dispatched w (liveWebhook user) s)
     end)
  else (Thrown Embed.refused, s).
Proof.
  unfold sendLiveNotification, liveWebhook, dispatched.
  destruct (liveEmbed_ok user); simpl; [|done].
  munfold. by destruct (webhook w (suspensions s)) as [[]|].
Qed.

(** * Further properties of the engine *)

(** ** YouTube resolution and checks *)

Lemma sent_app s s' new :
  requests s' = requests s ++ new -> sent s s' = List.map snd new.
Proof. intros H. unfold sent. by rewrite (requests_since_app s s' new). Qed.

Ltac sent_tac :=
  erewrite sent_app by (simpl; rewrite <- ?app_assoc; reflexivity); reflexivity.

(** X1. Resolving a handle never throws and tries the two endpoints in
    order: the search by query first, and the [forUsername] lookup only
    when the search was answered with no item.  A search that is
    rejected ends the resolution with [null] at once, without the
    second endpoint; so does a rejected lookup. *)
Theorem resolveYouTubeChannel_fallback (w : World) (input : string) (s : Bot) :
  let s' := run (resolveYouTubeChannel w input) s in
  let result := completion (resolveYouTubeChannel w input) s in
  match youtube_search_channel w (suspensions s) input with
  | Resolved (channelId :: _) =>
      result = Normal (Some channelId) /\ sent s s' = [YouTubeSearchChannel input]
  | Resolved [] =>
      sent s s' = [YouTubeSearchChannel input; YouTubeChannels input] /\
      result = Normal match youtube_channels w (S (suspensions s)) input with
                      | Resolved (id :: _) => Some id
                      | _ => None
                      end
  | Rejected _ =>
      result = Normal None /\ sent s s' = [YouTubeSearchChannel input]
  end.
Proof.
  unfold resolveYouTubeChannel. munfold.
  destruct (youtube_search_channel w (suspensions s) input) as [[|id ids]|e]; simpl.
  - destruct (youtube_channels w (S (suspensions s)) input) as [[|id ids]|e]; simpl;
      (split; [sent_tac|done]).
  - split; [done|sent_tac].
  - split; [done|sent_tac].
Qed.

(** What a resolution leaves: only resolution requests, after those
    that were there. *)
Lemma resolveYouTubeChannel_requests w input s :
  exists new,
    requests (run (resolveYouTubeChannel w input) s) = requests s ++ new /\
    count_requests is_youtube_live_search new = 0%nat /\
    (length new <= 2)%nat.
Proof.
  unfold resolveYouTubeChannel. munfold.
  destruct (youtube_search_channel w (suspensions s) input) as [[|id ids]|e]; simpl.
  - destruct (youtube_channels w (S (suspensions s)) input) as [[|id ids]|e]; simpl;
      eexists; (split; [by rewrite <- app_assoc|split; [done|simpl; lia]]).
  - eexists. split; [done|]. split; [done|simpl; lia].
  - eexists. split; [done|]. split; [done|simpl; lia].
Qed.

(** How a YouTube check goes once the key is there: for a channel ID the
    live search at once, for anything else the resolution first. *)
Lemma checkYouTubeLive_unfold w input s :
  Js.truthy (YOUTUBE_API_KEY w) = true ->
  checkYouTubeLive w input s =
  let search channelId s0 :=
    match youtube_search_live w (suspensions s0) channelId with
    | Resolved items =>
        (Normal (Nat.ltb 0 (length items)), dispatched w (YouTubeSearchLive channelId) s0)
    | Rejected _ =>
        (Normal false,
         run (log (LogYouTubeError input)) (dispatched w (YouTubeSearchLive channelId) s0))
    end in
  if Js.startsWith "UC" input then search input s
  else
    let s1 := run (resolveYouTubeChannel w input) s in
    match completion (resolveYouTubeChannel w input) s with
    | Normal (Some channelId) =>
        if String.eqb channelId ""
        then (Normal false, run (log (LogYouTubeUnresolved input)) s1)
        else search channelId s1
    | _ => (Normal false, run (log (LogYouTubeUnresolved input)) s1)
    end.
Proof.
  intros Hkey. unfold checkYouTubeLive. rewrite Hkey. simpl.
  destruct (Js.startsWith "UC" input); simpl.
  - unfold dispatched. munfold. by destruct (youtube_search_live w (suspensions s) input).
  - destruct (resolveYouTubeChannel_never_throws w input s) as [r Hr].
    unfold completion, run in *. unfold try_catch. unfold bind at 1.
    destruct (resolveYouTubeChannel w input s) as [c s1]. simpl in *. subst c.
    destruct r as [id|]; simpl; [|done].
    destruct (String.eqb id ""); simpl; [done|].
    unfold dispatched. munfold. by destruct (youtube_search_live w (suspensions s1) id).
Qed.

(** X2. Without an API key nothing goes out to YouTube: a check logs
    the missing key and returns [false], and a [track] command for a
    YouTube account is refused without a request and adds nothing. *)
Theorem youtube_without_key_is_silent
  (w : World) (input : string) (display_name : option string) (s : Bot) :
  Js.truthy (YOUTUBE_API_KEY w) = false ->
  let s' := run (handleTrackCommand w "youtube" input display_name) s in
  checkYouTubeLive w input s = (Normal false, run (log LogYouTubeNoKey) s) /\
  completion (handleTrackCommand w "youtube" input display_name) s <> Normal NowMonitoring /\
  monitoredUsers s' = monitoredUsers s /\
  requests s' = requests s.
Proof.
  intros Hkey. unfold checkYouTubeLive, handleTrackCommand, validateUser,
    validateYouTubeUser. rewrite Hkey. munfold.
  split; [done|]. by destruct (JsMap.has _ _).
Qed.

Lemma youtube_without_key_is_silent_witness :
  let w := Examples.no_youtube_key in
  let s := Examples.constructed in
  completion (checkYouTubeLive w "somehandle") s = Normal false /\
  requests (run (checkYouTubeLive w "somehandle") s) = [] /\
  monitoredUsers (run (handleTrackCommand w "youtube" "somehandle" None) s) = [].
Proof.
  destruct (youtube_without_key_is_silent Examples.no_youtube_key "somehandle" None
              Examples.constructed eq_refl) as (Hcheck & _ & Husers & _).
  unfold completion, run. rewrite Hcheck. split; [reflexivity|].
  split; [reflexivity|exact Husers].
Defined.

(** X3. An input that starts with [UC] is taken for a channel ID: the
    check sends the live search for it and nothing else, and reports
    whether the search returned an item ([false] when it is rejected);
    a [track] command accepts it as its own [resolvedId] without asking
    YouTube at all. *)
Theorem youtube_channel_id_skips_resolution (w : World) (input : string) (s : Bot) :
  Js.truthy (YOUTUBE_API_KEY w) = true ->
  Js.startsWith "UC" input = true ->
  sent s (run (checkYouTubeLive w input) s) = [YouTubeSearchLive input] /\
  completion (checkYouTubeLive w input) s =
    Normal match youtube_search_live w (suspensions s) input with
           | Resolved items => Nat.ltb 0 (length items)
           | Rejected _ => false
           end /\
  validateYouTubeUser w input s = (Normal (mkValidation true (Some input)), s).
Proof.
  intros Hkey Huc. unfold completion, run. rewrite checkYouTubeLive_unfold by done.
  rewrite Huc. unfold validateYouTubeUser. rewrite Hkey, Huc. simpl.
  destruct (youtube_search_live w (suspensions s) input); simpl;
    (split; [sent_tac|done]).
Qed.

Lemma youtube_channel_id_skips_resolution_witness :
  let w := Examples.youtube_unknown_handle in
  let s := Examples.constructed in
  sent s (run (checkYouTubeLive w "UC-lHJZR3Gqxm24_Vd_AJ5Yw") s) =
    [YouTubeSearchLive "UC-lHJZR3Gqxm24_Vd_AJ5Yw"] /\
  completion (checkYouTubeLive w "UC-lHJZR3Gqxm24_Vd_AJ5Yw") s = Normal true.
Proof.
  destruct (youtube_channel_id_skips_resolution Examples.youtube_unknown_handle
              "UC-lHJZR3Gqxm24_Vd_AJ5Yw" Examples.constructed eq_refl eq_refl)
    as (Hsent & Hres & _).
  split; [exact Hsent|exact Hres].
Defined.

(** X4. When the resolution of a handle yields nothing ([null], or an
    empty channel ID), the check reports [false] and never sends the
    live search. *)
Theorem youtube_unresolved_handle_not_searched
  (w : World) (input : string) (s : Bot) (resolved : option string) :
  Js.truthy (YOUTUBE_API_KEY w) = true ->
  Js.startsWith "UC" input = false ->
  completion (resolveYouTubeChannel w input) s = Normal resolved ->
  Js.truthy resolved = false ->
  completion (checkYouTubeLive w input) s = Normal false /\
  count_requests is_youtube_live_search
    (requests_since s (run (checkYouTubeLive w input) s)) = 0%nat.
Proof.
  intros Hkey Huc Hres Hfalsy. unfold completion at 1. unfold run at 1.
  rewrite checkYouTubeLive_unfold by done. rewrite Huc. simpl. rewrite Hres.
  destruct (resolveYouTubeChannel_requests w input s) as (new & Hnew & Hcount & _).
  assert (Hgoal : forall d,
            count_requests is_youtube_live_search
              (requests_since s (run (log d) (run (resolveYouTubeChannel w input) s))) = 0%nat).
  { intros d. erewrite requests_since_app; [exact Hcount|]. simpl. exact Hnew. }
  destruct resolved as [id|]; [|split; [done|apply Hgoal]].
  simpl in Hfalsy. apply negb_false_iff in Hfalsy. rewrite Hfalsy.
  split; [done|apply Hgoal].
Qed.

Lemma youtube_unresolved_handle_not_searched_witness :
  let w := Examples.youtube_unknown_handle in
  let s := Examples.constructed in
  completion (checkYouTubeLive w "somehandle") s = Normal false /\
  sent s (run (checkYouTubeLive w "somehandle") s) =
    [YouTubeSearchChannel "somehandle"; YouTubeChannels "somehandle"].
Proof.
  destruct (youtube_unresolved_handle_not_searched Examples.youtube_unknown_handle
              "somehandle" Examples.constructed None eq_refl eq_refl eq_refl eq_refl)
    as (Hres & _).
  split; [exact Hres|vm_compute; reflexivity].
Defined.

(** ** Twitch with an empty slot *)

(** X5. A Twitch check that finds the slot empty asks for a token
    first and then sends the streams call in any case: with the granted
    token when the grant succeeds (the slot then holds it), and with
    the empty slot as bearer when the grant is rejected (the slot stays
    as it was).  The result is whether the streams call returned a
    stream, [false] when it is rejected. *)
Theorem twitch_check_acquires_when_empty (w : World) (user : string) (s : Bot) :
  Js.truthy (twitchToken s) = false ->
  let s' := run (checkTwitchLive w user) s in
  let slot := match twitch_token w (suspensions s) with
              | Resolved access_token => access_token
              | Rejected _ => twitchToken s
              end in
  twitchToken s' = slot /\
  sent s s' = [TwitchToken; TwitchStreams user slot] /\
  completion (checkTwitchLive w user) s =
    Normal match twitch_streams w (S (suspensions s)) user slot with
           | Resolved data => Nat.ltb 0 (length data)
           | Rejected _ => false
           end.
Proof.
  intros Hempty. unfold checkTwitchLive, getTwitchToken. munfold. rewrite Hempty. simpl.
  destruct (twitch_token w (suspensions s)) as [t|e]; simpl.
  - destruct (twitch_streams w (S (suspensions s)) user t); simpl;
      (split; [done|split; [sent_tac|done]]).
  - destruct (twitch_streams w (S (suspensions s)) user (twitchToken s)); simpl;
      (split; [done|split; [sent_tac|done]]).
Qed.

(** The grant is rejected: the streams call still goes out, without a
    token. *)
Lemma twitch_check_acquires_when_empty_witness :
  let w := Examples.twitch_down in
  let s := Examples.constructed in
  twitchToken (run (checkTwitchLive w "ninja") s) = None /\
  sent s (run (checkTwitchLive w "ninja") s) = [TwitchToken; TwitchStreams "ninja" None] /\
  completion (checkTwitchLive w "ninja") s = Normal false.
Proof.
  exact (twitch_check_acquires_when_empty Examples.twitch_down "ninja"
           Examples.constructed eq_refl).
Defined.

(** ** TikTok redirects *)

(** X6. When the live page is answered from a final URL that does not
    contain [/live], the TikTok check returns [false] whatever the
    markup shows, and writes nothing to the console. *)
Theorem tiktok_redirect_means_not_live
  (w : World) (user : string) (s : Bot) (p : Page) (url : string) :
  tiktok_page w (suspensions s) user = Resolved p ->
  responseUrl p = Some url ->
  url <> "" ->
  Js.includes "/live" url = false ->
  checkTikTokLive w user s = (Normal false, dispatched w (TikTokLivePage user) s).
Proof.
  intros Hpage Hurl Hne Hlive. unfold checkTikTokLive, dispatched. munfold.
  rewrite Hpage. simpl. rewrite Hurl. simpl. rewrite Hlive.
  apply String.eqb_neq in Hne. by rewrite Hne.
Qed.

Lemma tiktok_redirect_means_not_live_witness :
  let w := Examples.tiktok_redirecting in
  let s := Examples.constructed in
  some (tiktok_indicators Examples.redirected_page) = true /\
  completion (checkTikTokLive w "charli") s = Normal false /\
  console (run (checkTikTokLive w "charli") s) = [].
Proof.
  pose proof (tiktok_redirect_means_not_live Examples.tiktok_redirecting "charli"
                Examples.constructed Examples.redirected_page
                "https://www.tiktok.com/@charli" eq_refl eq_refl
                ltac:(discriminate) eq_refl) as Hcheck.
  unfold completion, run. rewrite Hcheck. split; [vm_compute; reflexivity|].
  split; reflexivity.
Defined.

(** ** Kick pacing and answers *)

(** X7. The pacing delays a Kick check only when it must, and no
    longer than it must.  When at least 3000 ms have passed since the
    recorded dispatch time, the check goes on at once: nothing changes
    but the recorded time, which becomes the current time.  Otherwise
    the caller is suspended once, on a timer set for the remaining
    time: it resumes no later than 3000 ms after the recorded time plus
    the delay the world adds, no earlier than 3000 ms after it less the
    time by which the timer fires early, and never before the time of
    the call; the recorded time is then the time at which it resumes.
    The pacing sends no request. *)
Theorem kick_pacing_delays_only_when_needed (w : World) (s : Bot) :
  let s' := run (kickRateLimit w) s in
  let since := clock s - lastKickRequest s in
  (3000 <= since -> s' = with_lastKickRequest (clock s) s) /\
  (0 <= since < 3000 ->
   suspensions s' = S (suspensions s) /\
   lastKickRequest s + 3000 - Z.of_N (timer_early w (suspensions s)) <= clock s' /\
   clock s <= clock s' /\
   clock s' <= lastKickRequest s + 3000 + Z.of_N (elapsed w (suspensions s)) /\
   lastKickRequest s' = clock s' /\
   requests s' = requests s).
Proof.
  unfold kickRateLimit, kickRequestDelay. munfold. unfold timerDelay.
  destruct (Z.ltb_spec (clock s - lastKickRequest s) 3000) as [Hlt|Hge]; simpl.
  - split; [intros ?; lia|]. intros [Hpos _].
    destruct (Z.leb_spec 1 (3000 - (clock s - lastKickRequest s))); [|lia].
    destruct (Z.leb_spec (3000 - (clock s - lastKickRequest s)) 2147483647); [|lia].
    simpl. repeat split; lia.
  - split; [done|]. intros ?; lia.
Qed.

(** X8. When Kick's API answers with a [livestream] field that is not
    [null], the check returns [true] on that answer alone: one request
    goes out and the channel page is not fetched.  A missing field
    ([undefined]) counts as not [null]. *)
Theorem kick_live_answer_is_final
  (w : World) (user : string) (s : Bot) (livestream : Js.Field) :
  kick_api w (suspensions (run (kickRateLimit w) s)) user = Resolved livestream ->
  livestream <> Js.FNull ->
  let s' := run (checkKickLive w user) s in
  completion (checkKickLive w user) s = Normal true /\
  sent s s' = [KickChannelApi user (kick_api_ua w (run (kickRateLimit w) s))].
Proof.
  intros Hres Hne s'. subst s'. unfold completion, run at 1.
  rewrite (checkKickLive_answered w user s livestream Hres).
  assert (Js.strict_ne_null livestream = true) as -> by by destruct livestream.
  split; [done|]. simpl.
  erewrite sent_app
    by (rewrite tryKickAPI_requests, kickRateLimit_requests; reflexivity).
  reflexivity.
Qed.

(** The field is missing in the answer: the check says live after one
    request. *)
Lemma kick_live_answer_is_final_witness :
  let w := Examples.kick_field_missing in
  let s := Examples.constructed in
  completion (checkKickLive w "xqc") s = Normal true /\
  sent s (run (checkKickLive w "xqc") s) = [KickChannelApi "xqc" 0].
Proof.
  exact (kick_live_answer_is_final Examples.kick_field_missing "xqc"
           Examples.constructed Js.FUndefined eq_refl ltac:(discriminate)).
Defined.

(** ** Requests per check *)

Lemma requests_since_length s s' new :
  requests s' = requests s ++ new -> length (requests_since s s') = length new.
Proof. intros H. by rewrite (requests_since_app s s' new). Qed.

Lemma checkYouTubeLive_budget w input s :
  (length (requests_since s (run (checkYouTubeLive w input) s)) <= 3)%nat.
Proof.
  destruct (Js.truthy (YOUTUBE_API_KEY w)) eqn:Hkey.
  - unfold run at 1. rewrite checkYouTubeLive_unfold by done. simpl.
    destruct (resolveYouTubeChannel_requests w input s) as (new & Hnew & _ & Hlen).
    set (s1 := run (resolveYouTubeChannel w input) s) in *. clearbody s1.
    assert (Hsearch : forall id,
      (length (requests_since s
         (match youtube_search_live w (suspensions s1) id with
          | Resolved items =>
              (Normal (Nat.ltb 0 (length items)), dispatched w (YouTubeSearchLive id) s1)
          | Rejected _ =>
              (Normal false,
               run (log (LogYouTubeError input)) (dispatched w (YouTubeSearchLive id) s1))
          end).2) <= 3)%nat).
    { intros id. destruct (youtube_search_live w _ id); simpl;
        (erewrite requests_since_length
           by (unfold dispatched; simpl; rewrite Hnew, <- app_assoc; reflexivity));
        rewrite length_app; simpl; lia. }
    assert (Hnone : forall d,
      (length (requests_since s (run (log d) s1)) <= 3)%nat).
    { intros d. erewrite requests_since_length by (simpl; exact Hnew). lia. }
    destruct (Js.startsWith "UC" input).
    + destruct (youtube_search_live w (suspensions s) input); simpl;
        (erewrite requests_since_length by reflexivity); simpl; lia.
    + destruct (completion (resolveYouTubeChannel w input) s) as [[id|]|]; simpl;
        [|apply Hnone..].
      destruct (String.eqb id ""); simpl; [apply Hnone|apply Hsearch].
  - unfold checkYouTubeLive. rewrite Hkey. simpl.
    erewrite requests_since_length by (simpl; symmetry; apply app_nil_r).
    simpl; lia.
Qed.

Ltac since_tac :=
  erewrite requests_since_length by (simpl; rewrite <- ?app_assoc; reflexivity).

Lemma checkTwitchLive_budget w user s :
  (length (requests_since s (run (checkTwitchLive w user) s)) <= 2)%nat.
Proof.
  unfold checkTwitchLive, getTwitchToken. munfold.
  destruct (Js.truthy (twitchToken s)); simpl.
  - destruct (twitch_streams w (suspensions s) user (twitchToken s)); simpl;
      since_tac; simpl; lia.
  - destruct (twitch_token w (suspensions s)) as [t|e]; simpl;
      destruct (twitch_streams w (S (suspensions s)) user _); simpl;
      since_tac; simpl; lia.
Qed.

Lemma checkTikTokLive_budget w user s :
  length (requests_since s (run (checkTikTokLive w user) s)) = 1%nat.
Proof.
  unfold checkTikTokLive. munfold.
  destruct (tiktok_page w (suspensions s) user) as [p|e]; simpl.
  - destruct (Js.truthy (responseUrl p) && _); simpl; by since_tac.
  - destruct (status_is e 404); [|destruct (status_is e 403);
      [|destruct (code_is e "ECONNABORTED")]]; simpl; by since_tac.
Qed.

Lemma checkKickLive_budget w user s :
  (1 <= length (requests_since s (run (checkKickLive w user) s)) <= 2)%nat.
Proof.
  replace (run (checkKickLive w user) s) with (snd (checkKickLive w user s)) by done.
  rewrite checkKickLive_unfold.
  pose proof (tryKickAPI_requests w user (run (kickRateLimit w) s)) as Hapi.
  rewrite kickRateLimit_requests in Hapi. unfold run at 1 in Hapi.
  destruct (tryKickAPI w user (run (kickRateLimit w) s)) as [[[[]|]|e] s1]; simpl in *.
  - erewrite requests_since_length by exact Hapi. simpl; lia.
  - pose proof (tryKickWebScraping_requests w user (run (log (LogKickApiFailed user)) s1)) as Hp.
    unfold run at 1 in Hp.
    erewrite requests_since_length
      by (rewrite Hp; simpl; rewrite Hapi, <- app_assoc; reflexivity).
    simpl; lia.
  - pose proof (tryKickWebScraping_requests w user (run (log (LogKickApiFailed user)) s1)) as Hp.
    unfold run at 1 in Hp.
    erewrite requests_since_length
      by (rewrite Hp; simpl; rewrite Hapi, <- app_assoc; reflexivity).
    simpl; lia.
  - erewrite requests_since_length by exact Hapi. simpl; lia.
Qed.

(** X9. One check of one account sends a bounded number of requests:
    at most three for YouTube (two to resolve, one live search), at
    most two for Twitch (token, streams), exactly one for TikTok, one
    or two for Kick (API, then page), and none for a platform the bot
    does not know, whose check just returns [false]. *)
Theorem check_request_budget (w : World) (platform user : string) (s : Bot) :
  let n := length (requests_since s (run (checkStreamStatus w platform user) s)) in
  (n <= request_budget platform)%nat /\
  (platform = "tiktok" -> n = 1%nat) /\
  (platform = "kick" -> (1 <= n)%nat) /\
  (request_budget platform = 0%nat ->
   checkStreamStatus w platform user s = (Normal false, s)).
Proof.
  unfold checkStreamStatus, request_budget.
  destruct (String.eqb platform "youtube") eqn:Ey.
  { apply String.eqb_eq in Ey. subst platform.
    split; [apply checkYouTubeLive_budget|]. repeat split; discriminate. }
  destruct (String.eqb platform "twitch") eqn:Et.
  { apply String.eqb_eq in Et. subst platform.
    split; [apply checkTwitchLive_budget|]. repeat split; discriminate. }
  destruct (String.eqb platform "tiktok") eqn:Ek.
  { apply String.eqb_eq in Ek. subst platform.
    rewrite checkTikTokLive_budget. repeat split; try done; discriminate. }
  destruct (String.eqb platform "kick") eqn:Ec.
  { apply String.eqb_eq in Ec. subst platform.
    pose proof (checkKickLive_budget w user s).
    repeat split; try lia; discriminate. }
  simpl. repeat split; try done.
  - unfold requests_since, run, ret. simpl. rewrite drop_all. simpl. lia.
  - intros ->. discriminate.
  - intros ->. discriminate.
Qed.

(** ** Going offline *)


Lemma framed_all_offline_check platform user :
  framed (Examples.all_offline_check platform user).
Proof. apply framed_ret. Qed.


(** ** Live URLs *)

Lemma string_cons_append c (a b : string) :
  (String c a ++ b)%string = String c (a ++ b)%string.
Proof. reflexivity. Qed.

Lemma string_nil_append (b : string) : ("" ++ b)%string = b.
Proof. reflexivity. Qed.

Lemma string_length_append (a b : string) :
  String.length (a ++ b)%string = (String.length a + String.length b)%nat.
Proof.
  induction a as [|c a IH]; [done|].
  rewrite string_cons_append. simpl. by rewrite IH.
Qed.

Lemma string_append_inv_tail (a b t : string) :
  (a ++ t)%string = (b ++ t)%string -> a = b.
Proof.
  revert b. induction a as [|c a IH]; intros [|c' b] H.
  - done.
  - apply (f_equal String.length) in H.
    rewrite !string_length_append in H. simpl in H. lia.
  - apply (f_equal String.length) in H.
    rewrite !string_length_append in H. simpl in H. lia.
  - rewrite !string_cons_append in H. injection H as -> H. f_equal. by apply IH.
Qed.

Lemma supported_cases platform :
  supported platform = true ->
  platform = "youtube" \/ platform = "twitch" \/ platform = "tiktok" \/ platform = "kick".
Proof.
  unfold supported. intros H.
  repeat (apply orb_true_iff in H as [H|H]);
    apply String.eqb_eq in H; auto.
Qed.

Ltac peel_prefix H :=
  rewrite ?string_cons_append, ?string_nil_append in H.

Lemma generateYouTubeUrl_inj u1 u2 :
  generateYouTubeUrl u1 = generateYouTubeUrl u2 -> u1 = u2.
Proof.
  unfold generateYouTubeUrl.
  destruct (Js.startsWith "UC" u1), (Js.startsWith "UC" u2); intros H;
    peel_prefix H; simplify_eq; by eapply string_append_inv_tail.
Qed.

(** X12. The live URLs tell the accounts apart: on the four platforms
    the URL put in a notification determines the platform and the
    username, so two different tracked accounts never share a link.
    (For a YouTube name the channel form is used when it starts with
    [UC], the handle form otherwise.) *)
Theorem live_urls_are_unambiguous (p1 u1 p2 u2 : string) :
  supported p1 = true ->
  supported p2 = true ->
  generateLiveUrl p1 u1 = generateLiveUrl p2 u2 ->
  p1 = p2 /\ u1 = u2.
Proof.
  intros H1 H2.
  apply supported_cases in H1 as [-> | [-> | [-> | ->]]];
    apply supported_cases in H2 as [-> | [-> | [-> | ->]]];
    unfold generateLiveUrl; simpl; intros H;
    try (split; [done|by apply generateYouTubeUrl_inj]);
    try (unfold generateYouTubeUrl in H;
         repeat match type of H with
                | context [Js.startsWith "UC" ?u] => destruct (Js.startsWith "UC" u)
                end);
    peel_prefix H; simplify_eq; split; try done; by eapply string_append_inv_tail.
Qed.

Lemma live_urls_are_unambiguous_witness :
  generateLiveUrl "tiktok" "ninja" <> generateLiveUrl "twitch" "ninja" /\
  generateLiveUrl "youtube" "UCabc" <> generateLiveUrl "youtube" "abc".
Proof.
  split; intros H.
  - destruct (live_urls_are_unambiguous "tiktok" "ninja" "twitch" "ninja"
                eq_refl eq_refl H) as [Hp _]. discriminate Hp.
  - destruct (live_urls_are_unambiguous "youtube" "UCabc" "youtube" "abc"
                eq_refl eq_refl H) as [_ Hu]. discriminate Hu.
Defined.

(** ** The [track] command *)

Lemma validateYouTubeUser_result w user s :
  exists v, completion (validateYouTubeUser w user) s = Normal v /\
            (valid v = true -> Js.truthy (v_resolvedId v) = true).
Proof.
  unfold validateYouTubeUser.
  destruct (negb (Js.truthy (YOUTUBE_API_KEY w))); [by eexists|].
  destruct (Js.startsWith "UC" user) eqn:Huc; simpl.
  - eexists. split; [done|]. intros _. simpl.
    destruct user as [|c user]; [discriminate Huc|done].
  - destruct (resolveYouTubeChannel_never_throws w user s) as [r Hr].
    unfold completion, try_catch in *. unfold bind at 1.
    destruct (resolveYouTubeChannel w user s) as [c s1]. simpl in *. subst c.
    destruct (Js.truthy r) eqn:Ht; simpl; eexists; (split; [done|]); simpl; done.
Qed.

Lemma validateTwitchUser_never_throws w user s :
  exists v, completion (validateTwitchUser w user) s = Normal v.
Proof. unfold validateTwitchUser, getTwitchToken. munfold. split_cases. Qed.

(** A validation completes normally; it accepts only the four
    platforms, and a YouTube account only with a resolved ID. *)
Lemma validateUser_result w plat user s :
  exists v, completion (validateUser w plat user) s = Normal v /\
            (valid v = true ->
             supported plat = true /\
             (plat = "youtube" -> Js.truthy (v_resolvedId v) = true)).
Proof.
  unfold validateUser, supported.
  destruct (String.eqb plat "youtube") eqn:Ey.
  { destruct (validateYouTubeUser_result w user s) as (v & Hv & Hr).
    exists v. split; [done|]. intros Hvalid. split; [done|auto]. }
  assert (Hny : plat <> "youtube") by by apply String.eqb_neq.
  destruct (String.eqb plat "twitch") eqn:Et.
  { destruct (validateTwitchUser_never_throws w user s) as (v & Hv).
    exists v. split; [done|]. intros _. split; [done|]. intros; done. }
  destruct (String.eqb plat "tiktok") eqn:Ek.
  { eexists. split; [done|]. intros _. split; [done|]. intros; done. }
  destruct (String.eqb plat "kick") eqn:Ec.
  { eexists. split; [done|]. intros _. split; [done|]. intros; done. }
  eexists. split; [done|]. simpl. discriminate.
Qed.

Lemma handleTrackCommand_unfold w plat user display_name s :
  handleTrackCommand w plat user display_name s =
  if JsMap.has (makeKey plat user) (monitoredUsers s)
  then (Normal AlreadyMonitored, s)
  else
    let s1 := run (validateUser w plat user) s in
    match completion (validateUser w plat user) s with
    | Normal v =>
        if valid v
        then (Normal NowMonitoring,
              with_monitoredUsers
                (JsMap.set (makeKey plat user)
                   (mkUser plat user
                      (if Js.truthy display_name then default "" display_name else user)
                      (clock s1) (v_resolvedId v))
                   (monitoredUsers s1)) s1)
        else (Normal Refused, s1)
    | Thrown e => (Thrown e, s1)
    end.
Proof.
  unfold handleTrackCommand. munfold.
  destruct (JsMap.has _ _); [done|].
  destruct (validateUser w plat user s) as [[v|e] s1]; simpl; [|done].
  by destruct (valid v).
Qed.

(** X13. What a [track] command does to the two maps.  For a key that
    is already monitored it changes nothing at all.  Otherwise it
    either leaves [monitoredUsers] as it was or adds exactly one entry,
    at the end of the map and under the key [platform:username].  An
    entry is added only for one of the four platforms, carries the
    platform and username given, the display name given or else the
    username, and for YouTube a non-empty resolved channel ID.  The
    command never touches [liveStatus]. *)
Theorem track_adds_one_wellformed_entry
  (w : World) (plat user : string) (display_name : option string) (s : Bot) :
  let key := makeKey plat user in
  let s' := run (handleTrackCommand w plat user display_name) s in
  (JsMap.has key (monitoredUsers s) = true -> s' = s) /\
  (monitoredUsers s' = monitoredUsers s \/
   JsMap.has key (monitoredUsers s) = false /\
   supported plat = true /\
   exists added,
     monitoredUsers s' = monitoredUsers s ++ [(key, added)] /\
     platform added = plat /\
     username added = user /\
     displayName added =
       (if Js.truthy display_name then default "" display_name else user) /\
     (plat = "youtube" -> Js.truthy (resolvedId added) = true)) /\
  liveStatus s' = liveStatus s.
Proof.
  intros key s'. subst s'. unfold run.
  rewrite handleTrackCommand_unfold. fold key.
  destruct (JsMap.has key (monitoredUsers s)) eqn:Hhas.
  { simpl. split; [done|]. split; [by left|done]. }
  destruct (validateUser_result w plat user s) as (v & Hv & Hvalid).
  destruct (framed_validateUser w plat user s) as (Hu & Hl & _).
  rewrite Hv. simpl. split; [discriminate|].
  destruct (valid v) eqn:Hval; simpl.
  - split; [|exact Hl]. right. split; [done|].
    destruct (Hvalid eq_refl) as [Hsup Hyt]. split; [done|]. eexists.
    split; [unfold JsMap.set; simpl; by rewrite Hu, Hhas|].
    simpl. split; [done|]. split; [done|]. split; [done|exact Hyt].
  - split; [by left|exact Hl].
Qed.

(** ** The map of monitored users over a run *)

Lemma has_false_not_elem {V} k (m : JsMap.t V) :
  JsMap.has k m = false -> k ∉ JsMap.keys m.
Proof.
  intros Hhas Hin. apply has_elem_of in Hin. congruence.
Qed.

Lemma keys_delete_elem {V} k key (m : JsMap.t V) :
  k ∈ JsMap.keys (JsMap.delete key m) -> k ∈ JsMap.keys m /\ k <> key.
Proof.
  unfold JsMap.keys, JsMap.delete. induction m as [|[k' v] m IH]; simpl.
  - by intros ?%elem_of_nil.
  - destruct (String.eqb k' key) eqn:E; simpl.
    + intros [? ?]%IH. split; [by right|done].
    + intros [->|Hin]%elem_of_cons.
      * split; [by left|]. by apply String.eqb_neq.
      * destruct (IH Hin). split; [by right|done].
Qed.

Lemma NoDup_keys_delete {V} key (m : JsMap.t V) :
  NoDup (JsMap.keys m) -> NoDup (JsMap.keys (JsMap.delete key m)).
Proof.
  unfold JsMap.keys, JsMap.delete. induction m as [|[k v] m IH]; simpl; [done|].
  intros [Hk Hm]%NoDup_cons. destruct (String.eqb k key); simpl; [by apply IH|].
  apply NoDup_cons. split; [|by apply IH].
  intros Hin. apply Hk. by apply (keys_delete_elem k key m).
Qed.

Lemma NoDup_keys_snoc {V} key (v : V) (m : JsMap.t V) :
  JsMap.has key m = false -> NoDup (JsMap.keys m) ->
  NoDup (JsMap.keys (m ++ [(key, v)])).
Proof.
  intros Hhas Hnd. unfold JsMap.keys. rewrite map_app. simpl.
  apply NoDup_app. split; [done|]. split; [|apply NoDup_singleton].
  intros k Hk ->%list_elem_of_singleton. by apply (has_false_not_elem key m).
Qed.

Lemma delete_absent {V} key (m : JsMap.t V) :
  JsMap.has key m = false -> JsMap.delete key m = m.
Proof.
  unfold JsMap.has, JsMap.delete. induction m as [|[k v] m IH]; simpl; [done|].
  intros [Hk Hm]%orb_false_iff. rewrite Hk. simpl. by rewrite IH.
Qed.

Lemma delete_snoc {V} key (v : V) (m : JsMap.t V) :
  JsMap.has key m = false -> JsMap.delete key (m ++ [(key, v)]) = m.
Proof.
  intros Hhas. unfold JsMap.delete. rewrite List.filter_app. simpl.
  rewrite String.eqb_refl. simpl. rewrite app_nil_r. by apply delete_absent.
Qed.

Lemma keyed_delete key m : keyed m -> keyed (JsMap.delete key m).
Proof.
  unfold keyed, JsMap.delete. induction 1 as [|e m He Hm IH]; simpl; [done|].
  destruct (negb _); [by apply Forall_cons|done].
Qed.

(** What a [track] command leaves in [monitoredUsers]. *)
Lemma handleTrackCommand_monitoredUsers w plat user display_name s :
  let s' := run (handleTrackCommand w plat user display_name) s in
  monitoredUsers s' = monitoredUsers s \/
  (JsMap.has (makeKey plat user) (monitoredUsers s) = false /\
   completion (handleTrackCommand w plat user display_name) s = Normal NowMonitoring /\
   exists added,
     monitoredUsers s' = monitoredUsers s ++ [(makeKey plat user, added)] /\
     platform added = plat /\ username added = user).
Proof.
  unfold completion, run. rewrite handleTrackCommand_unfold.
  destruct (JsMap.has (makeKey plat user) (monitoredUsers s)) eqn:Hhas; [by left|].
  destruct (validateUser_result w plat user s) as (v & Hv & _).
  destruct (framed_validateUser w plat user s) as (Hu & _ & _).
  rewrite Hv. simpl. destruct (valid v); simpl; [|by left].
  right. split; [done|]. split; [done|]. eexists.
  split; [unfold JsMap.set; by rewrite Hu, Hhas|done].
Qed.

Lemma step_wellformed w s op :
  NoDup (JsMap.keys (monitoredUsers s)) /\ keyed (monitoredUsers s) ->
  NoDup (JsMap.keys (monitoredUsers (step w s op))) /\
  keyed (monitoredUsers (step w s op)).
Proof.
  intros [Hnd Hk]. destruct op as [plat user display_name|plat user|]; simpl.
  - destruct (handleTrackCommand_monitoredUsers w plat user display_name s)
      as [->|(Hhas & _ & added & -> & Hp & Hu)]; [done|].
    split; [by apply NoDup_keys_snoc|].
    apply Forall_app. split; [done|]. apply Forall_singleton. simpl. by rewrite Hp, Hu.
  - rewrite handleRemoveCommand_unfold.
    destruct (JsMap.has _ _); [|done]. simpl.
    split; [by apply NoDup_keys_delete|by apply keyed_delete].
  - unfold checkAllStreams.
    by rewrite run_cycle, forEntries_monitoredUsers by auto with framed.
Qed.

(** X14. The map of monitored users stays well formed through any
    commands and cycles: no key occurs twice, and every entry sits
    under the key [platform:username] of its own platform and
    username. *)
Theorem monitored_map_stays_wellformed (w : World) (ops : list Op) (s : Bot) :
  NoDup (JsMap.keys (monitoredUsers s)) ->
  keyed (monitoredUsers s) ->
  NoDup (JsMap.keys (monitoredUsers (exec w ops s))) /\
  keyed (monitoredUsers (exec w ops s)).
Proof.
  intros Hnd Hk. assert (H : NoDup (JsMap.keys (monitoredUsers s)) /\
                             keyed (monitoredUsers s)) by done.
  clear Hnd Hk. revert s H. unfold exec.
  induction ops as [|op ops IH]; intros s H; [done|].
  simpl. apply IH. by apply step_wellformed.
Qed.

(** Two accounts are added, a cycle runs, one account is removed and
    added again: it comes back at the end of the map. *)
Lemma monitored_map_stays_wellformed_witness :
  let w := Examples.twitch_live in
  let ops := [Track "twitch" "ninja" None; Track "kick" "xqc" (Some "xQc"); Cycle;
              Remove "twitch" "ninja"; Track "twitch" "ninja" None] in
  JsMap.keys (monitoredUsers (exec w ops Examples.constructed)) =
    ["kick:xqc"; "twitch:ninja"] /\
  NoDup (JsMap.keys (monitoredUsers (exec w ops Examples.constructed))) /\
  keyed (monitoredUsers (exec w ops Examples.constructed)).
Proof.
  split; [vm_compute; reflexivity|].
  exact (monitored_map_stays_wellformed Examples.twitch_live
           [Track "twitch" "ninja" None; Track "kick" "xqc" (Some "xQc"); Cycle;
            Remove "twitch" "ninja"; Track "twitch" "ninja" None]
           Examples.constructed (NoDup_nil_2 (A:=string)) (Forall_nil_2 _)).
Defined.

(** ** The [remove] command *)

Lemma get_delete_other {V} k key (m : JsMap.t V) :
  k <> key -> JsMap.get k (JsMap.delete key m) = JsMap.get k m.
Proof.
  intros Hne. unfold JsMap.get, JsMap.delete.
  induction m as [|[k' v] m IH]; simpl; [done|].
  destruct (String.eqb k' key) eqn:E; simpl.
  - apply String.eqb_eq in E. subst k'.
    assert (String.eqb key k = false) as -> by (apply String.eqb_neq; congruence).
    exact IH.
  - destruct (String.eqb k' k); [done|exact IH].
Qed.

Lemma keys_delete {V} key (m : JsMap.t V) :
  JsMap.keys (JsMap.delete key m) =
  List.filter (fun k => negb (String.eqb k key)) (JsMap.keys m).
Proof.
  unfold JsMap.keys, JsMap.delete. induction m as [|[k v] m IH]; simpl; [done|].
  destruct (String.eqb k key); simpl; by rewrite IH.
Qed.

(** X15. A [remove] command touches one key only.  For a key that is
    not monitored it replies so and changes nothing.  Otherwise the
    entries and the stored states under all other keys stay as they
    were, the remaining entries keep their order, and no request goes
    out. *)
Theorem remove_touches_one_key (plat user : string) (s : Bot) :
  let key := makeKey plat user in
  let s' := run (handleRemoveCommand plat user) s in
  (JsMap.has key (monitoredUsers s) = false ->
   handleRemoveCommand plat user s = (Normal NotMonitored, s)) /\
  (forall k, k <> key ->
     JsMap.get k (monitoredUsers s') = JsMap.get k (monitoredUsers s) /\
     liveStatus s' !! k = liveStatus s !! k) /\
  JsMap.keys (monitoredUsers s') =
    List.filter (fun k => negb (String.eqb k key)) (JsMap.keys (monitoredUsers s)) /\
  requests s' = requests s.
Proof.
  intros key s'. subst s'. rewrite handleRemoveCommand_unfold. fold key.
  split; [|split; [|split]].
  - intros Hhas. unfold handleRemoveCommand. munfold. fold key. by rewrite Hhas.
  - intros k Hne. destruct (JsMap.has key (monitoredUsers s)); [|done]. simpl.
    split; [by apply get_delete_other|by apply lookup_delete_ne].
  - destruct (JsMap.has key (monitoredUsers s)) eqn:Hhas; simpl; [apply keys_delete|].
    rewrite <- keys_delete. by rewrite delete_absent.
  - by destruct (JsMap.has key (monitoredUsers s)).
Qed.

(** X16. Adding an account and removing it again restores both maps:
    in a state where every stored key is monitored, a [track] command
    that is accepted, followed by the [remove] command for the same
    platform and username, leaves [monitoredUsers] and [liveStatus]
    exactly as they were before the two commands. *)
Theorem track_then_remove_restores
  (w : World) (plat user : string) (display_name : option string) (s : Bot) :
  stored_are_tracked s ->
  completion (handleTrackCommand w plat user display_name) s = Normal NowMonitoring ->
  let s1 := run (handleTrackCommand w plat user display_name) s in
  let s2 := run (handleRemoveCommand plat user) s1 in
  completion (handleRemoveCommand plat user) s1 = Normal Removed /\
  monitoredUsers s2 = monitoredUsers s /\
  liveStatus s2 = liveStatus s.
Proof.
  intros Hinv Hreply s1 s2.
  destruct (handleTrackCommand_monitoredUsers w plat user display_name s)
    as [Hsame|(Hhas & _ & added & Hadd & _)]; fold s1 in Hsame || fold s1 in Hadd.
  { exfalso. revert Hreply. unfold completion. rewrite handleTrackCommand_unfold.
    destruct (JsMap.has (makeKey plat user) (monitoredUsers s)) eqn:Hhas; [done|].
    destruct (validateUser_result w plat user s) as (v & Hv & _).
    destruct (framed_validateUser w plat user s) as (Hu & _ & _).
    rewrite Hv. simpl. destruct (valid v) eqn:Hval; [|done]. intros _.
    revert Hsame. unfold s1, run. rewrite handleTrackCommand_unfold, Hhas, Hv, Hval.
    simpl. unfold JsMap.set. rewrite Hu, Hhas. intros Heq.
    apply (f_equal length) in Heq. rewrite length_app in Heq. simpl in Heq. lia. }
  assert (Hnow : JsMap.has (makeKey plat user) (monitoredUsers s1) = true).
  { rewrite Hadd. unfold JsMap.has. rewrite existsb_app. simpl.
    rewrite String.eqb_refl. apply orb_true_r. }
  assert (Hlive : liveStatus s1 = liveStatus s) by apply handleTrackCommand_liveStatus.
  assert (Hnone : liveStatus s !! makeKey plat user = None).
  { destruct (liveStatus s !! makeKey plat user) eqn:E; [|done].
    assert (Ht : tracked (makeKey plat user) s) by (apply Hinv; by rewrite E).
    unfold tracked in Ht. congruence. }
  split.
  - unfold completion, handleRemoveCommand. munfold. by rewrite Hnow.
  - unfold s2. rewrite handleRemoveCommand_unfold, Hnow. simpl.
    rewrite Hadd, Hlive. split; [by apply delete_snoc|by apply delete_id].
Qed.

(** [charli] is added to the two tracked accounts and removed again. *)
Lemma track_then_remove_restores_witness :
  let w := Examples.twitch_live in
  let s := Examples.two_offline in
  let s1 := run (handleTrackCommand w "tiktok" "charli" None) s in
  let s2 := run (handleRemoveCommand "tiktok" "charli") s1 in
  JsMap.keys (monitoredUsers s1) = ["kick:xqc"; "twitch:ninja"; "tiktok:charli"] /\
  monitoredUsers s2 = monitoredUsers s /\
  liveStatus s2 = liveStatus s.
Proof.
  split; [vm_compute; reflexivity|].
  refine (proj2 (track_then_remove_restores Examples.twitch_live "tiktok" "charli" None
                   Examples.two_offline _ eq_refl)).
  intros k [v Hv]. vm_compute in Hv. discriminate Hv.
Defined.

(** ** The data file *)

Lemma keys_set {V} key (v : V) (m : JsMap.t V) :
  JsMap.keys (JsMap.set key v m) =
  if JsMap.has key m then JsMap.keys m else JsMap.keys m ++ [key].
Proof.
  unfold JsMap.set, JsMap.keys. destruct (JsMap.has key m).
  - induction m as [|[k x] m IH]; simpl; [done|].
    rewrite IH. destruct (String.eqb k key) eqn:E; simpl; [|done].
    apply String.eqb_eq in E. by subst k.
  - by rewrite map_app.
Qed.

Lemma NoDup_keys_set {V} key (v : V) (m : JsMap.t V) :
  NoDup (JsMap.keys m) -> NoDup (JsMap.keys (JsMap.set key v m)).
Proof.
  intros Hnd. rewrite keys_set. destruct (JsMap.has key m) eqn:Hhas; [done|].
  apply NoDup_app. split; [done|]. split; [|apply NoDup_singleton].
  intros k Hk ->%list_elem_of_singleton. by apply (has_false_not_elem key m).
Qed.

Lemma get_replace {V} k key (v : V) (m : JsMap.t V) :
  JsMap.get k (List.map (fun e => if String.eqb (fst e) key then (key, v) else e) m) =
  if String.eqb key k
  then (if JsMap.has key m then Some v else None)
  else JsMap.get k m.
Proof.
  unfold JsMap.get, JsMap.has. induction m as [|[k' x] m IH]; simpl.
  - by destruct (String.eqb key k).
  - destruct (String.eqb k' key) eqn:E; simpl.
    + apply String.eqb_eq in E. subst k'.
      destruct (String.eqb key k); [done|exact IH].
    + destruct (String.eqb k' k) eqn:E'; simpl; [|exact IH].
      apply String.eqb_eq in E'. subst k'.
      assert (String.eqb key k = false) as ->; [|done].
      apply String.eqb_neq. apply String.eqb_neq in E. congruence.
Qed.

Lemma get_snoc {V} k key (v : V) (m : JsMap.t V) :
  JsMap.has key m = false ->
  JsMap.get k (m ++ [(key, v)]) = if String.eqb key k then Some v else JsMap.get k m.
Proof.
  unfold JsMap.get, JsMap.has. induction m as [|[k' x] m IH]; simpl; intros Hhas.
  - by destruct (String.eqb key k).
  - apply orb_false_iff in Hhas as [Hk Hm].
    destruct (String.eqb k' k) eqn:E'; simpl; [|by apply IH].
    apply String.eqb_eq in E'. subst k'. by rewrite String.eqb_sym, Hk.
Qed.

Lemma get_set {V} k key (v : V) (m : JsMap.t V) :
  JsMap.get k (JsMap.set key v m) =
  if String.eqb key k then Some v else JsMap.get k m.
Proof.
  unfold JsMap.set. destruct (JsMap.has key m) eqn:Hhas.
  - by rewrite get_replace, Hhas.
  - by apply get_snoc.
Qed.

Lemma fold_set_NoDup {V} (entries : list (string * V)) (acc : JsMap.t V) :
  NoDup (JsMap.keys acc) ->
  NoDup (JsMap.keys (List.fold_left (fun m e => JsMap.set (fst e) (snd e) m) entries acc)).
Proof.
  revert acc. induction entries as [|[k v] entries IH]; intros acc Hnd; simpl; [done|].
  apply IH. by apply NoDup_keys_set.
Qed.

Lemma get_app {V} k (l1 l2 : JsMap.t V) :
  JsMap.get k (l1 ++ l2) =
  match JsMap.get k l1 with
  | Some v => Some v
  | None => JsMap.get k l2
  end.
Proof.
  unfold JsMap.get. induction l1 as [|[k' x] l1 IH]; simpl; [done|].
  destruct (String.eqb k' k); [done|exact IH].
Qed.

Lemma fold_set_get {V} k (entries : list (string * V)) (acc : JsMap.t V) :
  JsMap.get k (List.fold_left (fun m e => JsMap.set (fst e) (snd e) m) entries acc) =
  match JsMap.get k (rev entries) with
  | Some v => Some v
  | None => JsMap.get k acc
  end.
Proof.
  revert acc. induction entries as [|[k' v] entries IH]; intros acc;
    cbn [List.fold_left fst snd rev]; [done|].
  rewrite IH, get_set, get_app.
  destruct (JsMap.get k (rev entries)); [done|].
  unfold JsMap.get at 2. simpl. by destruct (String.eqb k' k).
Qed.

(** X18. Loading never fails and always yields a well-formed map.  A
    missing or unparsable file gives the empty map.  For a file of
    entries no key occurs twice in the map, each key holds the value of
    its last entry in the file, and nothing but [monitoredUsers]
    changes ([liveStatus] in particular is not loaded). *)
Theorem load_yields_unique_keys (file : DataFile) (s : Bot) :
  let s' := run (loadMonitoredUsers file) s in
  completion (loadMonitoredUsers file) s = Normal tt /\
  NoDup (JsMap.keys (monitoredUsers s')) /\
  s' = with_monitoredUsers (monitoredUsers s') s /\
  match file with
  | Entries users =>
      forall k, JsMap.get k (monitoredUsers s') = JsMap.get k (rev users)
  | _ => monitoredUsers s' = []
  end.
Proof.
  unfold loadMonitoredUsers. munfold. destruct file as [| |users]; simpl.
  - repeat split; try done. apply NoDup_nil_2.
  - repeat split; try done. apply NoDup_nil_2.
  - repeat split; try done.
    + unfold Map_of_entries. apply fold_set_NoDup, NoDup_nil_2.
    + intros k. unfold Map_of_entries. rewrite fold_set_get.
      by destruct (JsMap.get k (rev users)).
Qed.

(** ** The [list] command *)

Lemma replace_absent {V} key (v : V) (m : JsMap.t V) :
  JsMap.has key m = false ->
  List.map (fun e => if String.eqb (fst e) key then (key, v) else e) m = m.
Proof.
  unfold JsMap.has. induction m as [|[k x] m IH]; simpl; [done|].
  intros [Hk Hm]%orb_false_iff. rewrite Hk, IH; done.
Qed.

Lemma get_None_of_has {V} key (m : JsMap.t V) :
  JsMap.has key m = false -> JsMap.get key m = None.
Proof.
  unfold JsMap.has, JsMap.get. induction m as [|[k x] m IH]; simpl; [done|].
  intros [Hk Hm]%orb_false_iff. rewrite Hk. by apply IH.
Qed.

Lemma not_elem_has_false {V} key (m : JsMap.t V) :
  key ∉ JsMap.keys m -> JsMap.has key m = false.
Proof.
  intros Hnot. destruct (JsMap.has key m) eqn:Hhas; [|done]. exfalso. apply Hnot.
  unfold JsMap.has, JsMap.keys in *. apply existsb_exists in Hhas as ([k x] & Hin & Heq).
  simpl in Heq. apply String.eqb_eq in Heq. subst k.
  apply list_elem_of_In. apply in_map_iff. by exists (key, x).
Qed.

Lemma get_Some_elem {V} key (v : V) (m : JsMap.t V) :
  JsMap.get key m = Some v -> (key, v) ∈ m.
Proof.
  unfold JsMap.get. induction m as [|[k x] m IH]; simpl; [done|].
  destruct (String.eqb k key) eqn:E; simpl.
  - apply String.eqb_eq in E. subst k. intros [= ->]. by left.
  - intros H. right. by apply IH.
Qed.

Lemma elem_of_set {V} key (v : V) (m : JsMap.t V) e :
  e ∈ JsMap.set key v m -> e ∈ m \/ e = (key, v).
Proof.
  unfold JsMap.set. destruct (JsMap.has key m).
  - rewrite list_elem_of_In. intros ([k x] & He & Hin)%in_map_iff. simpl in He.
    destruct (String.eqb k key); [by right|]. left. subst e. by apply list_elem_of_In.
  - intros [H|H%list_elem_of_singleton]%elem_of_app; [by left|by right].
Qed.

Lemma listed_replace key (old : list string) x (m : JsMap.t (list string)) :
  NoDup (JsMap.keys m) -> JsMap.get key m = Some old ->
  Permutation
    (listed (List.map (fun e => if String.eqb (fst e) key then (key, old ++ [x]) else e) m))
    (x :: listed m).
Proof.
  unfold listed. induction m as [|[k y] m IH]; [done|].
  unfold JsMap.keys, JsMap.get. simpl. intros [Hk Hnd]%NoDup_cons.
  destruct (String.eqb k key) eqn:E; simpl.
  - apply String.eqb_eq in E. subst k. intros [= ->].
    rewrite (replace_absent key (old ++ [x]) m) by by apply not_elem_has_false.
    rewrite <- app_assoc. simpl. symmetry. apply Permutation_middle.
  - intros Hget. etrans; [apply Permutation_app_head, IH; done|].
    symmetry. apply Permutation_middle.
Qed.

Lemma listed_set key x (m : JsMap.t (list string)) :
  NoDup (JsMap.keys m) ->
  Permutation (listed (JsMap.set key (default [] (JsMap.get key m) ++ [x]) m))
              (x :: listed m).
Proof.
  intros Hnd. destruct (JsMap.get key m) as [old|] eqn:Hget; simpl.
  - unfold JsMap.set. destruct (JsMap.has key m) eqn:Hhas.
    + by apply listed_replace.
    + apply get_None_of_has in Hhas. congruence.
  - unfold JsMap.set. destruct (JsMap.has key m) eqn:Hhas.
    + exfalso. unfold JsMap.has, JsMap.get in *.
      apply existsb_exists in Hhas as (e & Hin & Heq).
      destruct (List.find _ m) eqn:Hfind; [done|].
      eapply find_none in Hfind; [|exact Hin]. simpl in Hfind. congruence.
    + unfold listed. rewrite map_app, concat_app. simpl.
      symmetry. apply Permutation_cons_append.
Qed.

Lemma listEntry_unfold s acc e :
  listEntry s acc e =
  JsMap.set (platform (snd e))
            (default [] (JsMap.get (platform (snd e)) acc) ++ [line_of s e]) acc.
Proof.
  unfold listEntry, line_of. cbv zeta.
  destruct (JsMap.has (platform (snd e)) acc) eqn:Hhas; simpl; [done|].
  rewrite (get_None_of_has _ _ Hhas). simpl.
  replace (JsMap.set (platform (snd e)) [] acc) with (acc ++ [(platform (snd e), [])])
    by (unfold JsMap.set; by rewrite Hhas).
  rewrite get_snoc by done. rewrite String.eqb_refl. simpl.
  unfold JsMap.set. rewrite Hhas.
  assert (JsMap.has (platform (snd e)) (acc ++ [(platform (snd e), [])]) = true) as ->.
  { unfold JsMap.has. rewrite existsb_app. simpl. rewrite String.eqb_refl.
    apply orb_true_iff. right. done. }
  rewrite map_app, replace_absent by done. simpl. by rewrite String.eqb_refl.
Qed.

Lemma listEntry_invariant s done acc e :
  NoDup (JsMap.keys acc) /\
  Permutation (listed acc) (List.map (line_of s) done) /\
  groups_sound s done acc /\
  Forall (fun g => snd g <> []) acc ->
  NoDup (JsMap.keys (listEntry s acc e)) /\
  Permutation (listed (listEntry s acc e)) (List.map (line_of s) (done ++ [e])) /\
  groups_sound s (done ++ [e]) (listEntry s acc e) /\
  Forall (fun g => snd g <> []) (listEntry s acc e).
Proof.
  intros (Hnd & Hperm & Hsound & Hne). rewrite listEntry_unfold.
  split; [by apply NoDup_keys_set|]. split; [|split].
  - rewrite listed_set by done. rewrite map_app. simpl. rewrite Hperm.
    apply Permutation_cons_append.
  - intros plat lines line [Hin|Heq]%elem_of_set Hline.
    + destruct (Hsound _ _ _ Hin Hline) as (e0 & He0 & Hp & Hl).
      exists e0. split; [apply elem_of_app; by left|done].
    + injection Heq as Hp Hl. subst plat lines.
      apply elem_of_app in Hline as [Hline|Hline%list_elem_of_singleton].
      * destruct (JsMap.get (platform (snd e)) acc) as [old|] eqn:Hget; simpl in Hline;
          [|by apply elem_of_nil in Hline].
        apply get_Some_elem in Hget.
        destruct (Hsound _ _ _ Hget Hline) as (e0 & He0 & Hp & Hl).
        exists e0. split; [apply elem_of_app; by left|done].
      * exists e. split; [apply elem_of_app; right; by apply list_elem_of_singleton|done].
  - apply Forall_forall. intros g [Hin | ->]%elem_of_set.
    + by apply (proj1 (Forall_forall _ _) Hne).
    + simpl. intros H. apply app_eq_nil in H as [_ H]. discriminate H.
Qed.

Lemma listGroups_invariant s l done acc :
  NoDup (JsMap.keys acc) /\
  Permutation (listed acc) (List.map (line_of s) done) /\
  groups_sound s done acc /\
  Forall (fun g => snd g <> []) acc ->
  NoDup (JsMap.keys (List.fold_left (listEntry s) l acc)) /\
  Permutation (listed (List.fold_left (listEntry s) l acc))
              (List.map (line_of s) (done ++ l)) /\
  groups_sound s (done ++ l) (List.fold_left (listEntry s) l acc) /\
  Forall (fun g => snd g <> []) (List.fold_left (listEntry s) l acc).
Proof.
  revert done acc. induction l as [|e l IH]; intros done acc H; simpl.
  - by rewrite app_nil_r.
  - replace (done ++ e :: l) with ((done ++ [e]) ++ l) by (by rewrite <- app_assoc).
    apply IH. by apply listEntry_invariant.
Qed.

Lemma statusLine_nonempty live user : statusLine live user <> "".
Proof.
  unfold statusLine. intros H. apply (f_equal String.length) in H.
  rewrite string_length_append in H. destruct live; simpl in H; lia.
Qed.

Lemma join_nonempty sep line lines : line <> "" -> join sep (line :: lines) <> "".
Proof.
  intros Hline. destruct line as [|c line]; [done|].
  destruct lines; simpl; [done|]. by rewrite string_cons_append.
Qed.

Lemma capitalize_inj_supported p q :
  supported p = true -> supported q = true -> Js.capitalize p = Js.capitalize q -> p = q.
Proof.
  intros Hp%supported_cases Hq%supported_cases.
  destruct Hp as [-> | [-> | [-> | ->]]]; destruct Hq as [-> | [-> | [-> | ->]]];
    intros H; try reflexivity; vm_compute in H; discriminate H.
Qed.

Lemma Js_length_append (a b : string) :
  Js.length (a ++ b)%string = (Js.length a + Js.length b)%nat.
Proof.
  induction a as [|c a IH]; [done|].
  rewrite string_cons_append. simpl. rewrite IH. lia.
Qed.

Lemma statusLine_length live user : (1 <= Js.length (statusLine live user))%nat.
Proof.
  unfold statusLine. rewrite Js_length_append. destruct live; simpl; lia.
Qed.

Lemma join_length sep line lines :
  (Js.length line <= Js.length (join sep (line :: lines)))%nat.
Proof.
  destruct lines; simpl; [lia|]. rewrite Js_length_append. lia.
Qed.

Lemma forallb_map_ext {A B C} (f : A -> B) (g : A -> C) (P : B -> bool) (Q : C -> bool)
      (l : list A) :
  (forall a, In a l -> P (f a) = Q (g a)) ->
  List.forallb P (List.map f l) = List.forallb Q (List.map g l).
Proof.
  induction l as [|a l IH]; intros H; simpl; [done|].
  rewrite (H a) by by left. rewrite IH; [done|]. intros b Hb. apply H. by right.
Qed.

Lemma supported_name_ok p : supported p = true -> Embed.field_name_ok (Js.capitalize p) = true.
Proof. by intros [-> | [-> | [-> | ->]]]%supported_cases. Qed.

Lemma supported_keys_length (keys : list string) :
  NoDup keys -> (forall p, p ∈ keys -> supported p = true) -> (length keys <= 4)%nat.
Proof.
  intros Hnd Hsup.
  assert (Hsub : keys ⊆+ ["youtube"; "twitch"; "tiktok"; "kick"]).
  { apply NoDup_submseteq; [done|]. intros p Hp.
    destruct (supported_cases p (Hsup p Hp)) as [-> | [-> | [-> | ->]]];
      set_solver. }
  by apply submseteq_length in Hsub.
Qed.

(** X19. The list shows the monitored accounts, each exactly once and
    under its own platform, for a map whose entries are on the four
    platforms.  The command changes nothing.  The groups it builds hold
    the lines of the entries of the map, one for one, each platform
    once; every line of a group belongs to an entry of that platform
    and says LIVE exactly when [liveStatus] holds [true] for the
    entry's key.  The reply is the plain text exactly when the map is
    empty.  Otherwise, when the lines of every platform together fit in
    1024 characters, the embed has one field per platform that has an
    account, under distinct names, and no field shows the text [None];
    and when the lines of some platform do not fit, the builder refuses
    the field and the command throws without a list. *)
Theorem list_shows_every_account_once (s : Bot) :
  Forall (fun e => supported (platform (snd e)) = true) (monitoredUsers s) ->
  run handleListCommand s = s /\
  NoDup (JsMap.keys (listGroups s)) /\
  Permutation (listed (listGroups s)) (List.map (line_of s) (monitoredUsers s)) /\
  groups_sound s (monitoredUsers s) (listGroups s) /\
  (completion handleListCommand s = Normal NothingMonitored <-> monitoredUsers s = []) /\
  (monitoredUsers s <> [] ->
   (List.forallb (fits 1024) (listValues s) = true ->
    exists fields,
      completion handleListCommand s = Normal (Embed fields) /\
      List.map fst fields = List.map Js.capitalize (JsMap.keys (listGroups s)) /\
      List.map snd fields = listValues s /\
      NoDup (List.map fst fields)) /\
   (List.forallb (fits 1024) (listValues s) = false ->
    completion handleListCommand s = Thrown Embed.refused)).
Proof.
  intros Hsup.
  destruct (listGroups_invariant s (monitoredUsers s) [] []) as (Hnd & Hperm & Hsound & Hne).
  { split; [apply NoDup_nil_2|]. split; [done|]. split; [|done].
    intros plat lines line Hin. by apply elem_of_nil in Hin. }
  simpl in Hnd, Hperm, Hsound, Hne. fold (listGroups s) in Hnd, Hperm, Hsound, Hne.
  split.
  { unfold handleListCommand. munfold. destruct (monitoredUsers s); simpl; [done|].
    by destruct (fields_ok _). }
  split; [done|]. split; [done|]. split; [done|].
  assert (Hvalue : forall g, g ∈ listGroups s ->
                     Js.truthy (Some (join newline (snd g))) = true /\
                     (1 <= Js.length (join newline (snd g)))%nat).
  { intros [plat lines] Hin. simpl.
    pose proof (proj1 (Forall_forall _ _) Hne _ Hin) as Hlines. simpl in Hlines.
    destruct lines as [|line lines]; [done|].
    destruct (Hsound plat (line :: lines) line Hin) as (e & _ & _ & ->); [by left|].
    split.
    - apply negb_true_iff, String.eqb_neq, join_nonempty, statusLine_nonempty.
    - etrans; [apply statusLine_length|apply join_length]. }
  assert (Hplat : forall p, p ∈ JsMap.keys (listGroups s) -> supported p = true).
  { intros p Hp. unfold JsMap.keys in Hp. apply list_elem_of_In, in_map_iff in Hp.
    destruct Hp as ([plat lines] & <- & Hin). apply list_elem_of_In in Hin. simpl.
    pose proof (proj1 (Forall_forall _ _) Hne _ Hin) as Hlines. simpl in Hlines.
    destruct lines as [|line lines]; [done|].
    destruct (Hsound plat (line :: lines) line Hin) as (e & He & <- & _); [by left|].
    by apply (proj1 (Forall_forall _ _) Hsup). }
  assert (Hfields : listFields s =
                    List.map (fun g => (Js.capitalize (fst g), join newline (snd g)))
                             (listGroups s)).
  { unfold listFields. apply map_ext_in. intros g Hg%list_elem_of_In.
    destruct (Hvalue g Hg) as [Ht _]. simpl. unfold Js.truthy in Ht. by rewrite Ht. }
  assert (Hok : fields_ok (listFields s) = List.forallb (fits 1024) (listValues s)).
  { unfold fields_ok. rewrite Hfields, length_map.
    assert (Hlen : (length (listGroups s) <= Embed.max_fields)%nat).
    { replace (length (listGroups s)) with (length (JsMap.keys (listGroups s)))
        by (unfold JsMap.keys; apply length_map).
      pose proof (supported_keys_length _ Hnd Hplat). unfold Embed.max_fields. lia. }
    apply Nat.leb_le in Hlen. rewrite Hlen. simpl.
    unfold listValues. apply forallb_map_ext.
    intros g Hg%list_elem_of_In. simpl.
    destruct (Hvalue g Hg) as [_ Hpos].
    rewrite supported_name_ok; [|apply Hplat; unfold JsMap.keys;
      apply list_elem_of_In, in_map; by apply list_elem_of_In].
    simpl. unfold Embed.field_value_ok, Embed.within, fits.
    apply Nat.leb_le in Hpos. by rewrite Hpos. }
  split.
  - unfold handleListCommand. munfold. destruct (monitoredUsers s); simpl; [done|].
    destruct (fields_ok _); split; discriminate.
  - intros Hsome. split.
    + intros Hfit. exists (listFields s). split.
      { unfold handleListCommand. munfold. rewrite Hok, Hfit.
        destruct (monitoredUsers s); simpl; [done|reflexivity]. }
      rewrite Hfields, !List.map_map. simpl.
      split; [by unfold JsMap.keys; rewrite List.map_map|]. split; [done|].
      change (NoDup (List.map (fun g => Js.capitalize (fst g)) (listGroups s))).
      rewrite <- (List.map_map fst Js.capitalize). fold (JsMap.keys (listGroups s)).
      revert Hnd Hplat. generalize (JsMap.keys (listGroups s)). intros keys Hnd Hplat.
      induction Hnd as [|k keys Hk Hnd IH]; simpl; [apply NoDup_nil_2|].
      apply NoDup_cons. split.
      * rewrite list_elem_of_In. intros (k' & Heq & Hin%list_elem_of_In)%in_map_iff.
        apply capitalize_inj_supported in Heq;
          [subst k'; done|apply Hplat; by right|apply Hplat; by left].
      * apply IH. intros p Hp. apply Hplat. by right.
    + intros Hfit. unfold handleListCommand. munfold. rewrite Hok, Hfit.
      destruct (monitoredUsers s); simpl; [done|reflexivity].
Qed.

(** Two accounts, the first stored as live: one field per platform,
    in the order of the map. *)
Lemma list_shows_every_account_once_witness :
  let s := Examples.two_accounts in
  completion handleListCommand s =
    Normal (Embed [("Twitch", "🔴 LIVE ninja (ninja)"); ("Kick", "⚫ Offline xQc (xqc)")]) /\
  Permutation (listed (listGroups s)) (List.map (line_of s) (monitoredUsers s)).
Proof.
  split; [vm_compute; reflexivity|].
  refine (proj1 (proj2 (proj2 (list_shows_every_account_once Examples.two_accounts _)))).
  vm_compute. repeat constructor.
Defined.

(** ** The token slot over a run *)

Lemma keeps_modify (f : Bot -> Bot) :
  (forall s, twitchToken (f s) = twitchToken s /\ requests (f s) = requests s) ->
  keeps_token (modify f).
Proof.
  intros Hf s _. destruct (Hf s) as [Ht Hr]. unfold run, modify. simpl.
  split; [done|]. exists []. by rewrite app_nil_r.
Qed.

Lemma keeps_ret {A} (a : A) : keeps_token (ret a).
Proof. intros s _. split; [done|]. exists []. by rewrite app_nil_r. Qed.

Lemma keeps_throw {A} e : keeps_token (@throw A e).
Proof. intros s _. split; [done|]. exists []. by rewrite app_nil_r. Qed.

Lemma keeps_get : keeps_token get.
Proof. intros s _. split; [done|]. exists []. by rewrite app_nil_r. Qed.

Lemma keeps_Date_now : keeps_token Date_now.
Proof. intros s _. split; [done|]. exists []. by rewrite app_nil_r. Qed.

Lemma keeps_randomUA w n : keeps_token (randomUA w n).
Proof. intros s _. split; [done|]. exists []. by rewrite app_nil_r. Qed.

Lemma keeps_log d : keeps_token (log d).
Proof. by apply keeps_modify. Qed.

Lemma keeps_noteCall c : keeps_token (noteCall c).
Proof. by apply keeps_modify. Qed.

Lemma keeps_suspend w ms : keeps_token (suspend w ms).
Proof. by apply keeps_modify. Qed.

Lemma keeps_axios {A} w req (answer : nat -> Axios A) :
  is_token_request req = false -> keeps_token (axios w req answer).
Proof.
  intros Hreq s _. unfold run, axios. simpl.
  destruct (answer (suspensions s)); simpl;
    (split; [done|]; eexists; split; [reflexivity|]; by apply Forall_singleton).
Qed.

Lemma keeps_bind {A B} (m : M A) (k : A -> M B) :
  keeps_token m -> (forall a, keeps_token (k a)) -> keeps_token (bind m k).
Proof.
  intros Hm Hk s Ht. unfold run, bind. destruct (Hm s Ht) as (Ht1 & n1 & Hr1 & Hf1).
  unfold run in Ht1, Hr1. destruct (m s) as [[a|e] s1]; simpl in *; [|eauto].
  destruct (Hk a s1) as (Ht2 & n2 & Hr2 & Hf2); [by rewrite Ht1|].
  unfold run in Ht2, Hr2. split; [congruence|]. exists (n1 ++ n2).
  split; [by rewrite Hr2, Hr1, <- app_assoc|]. by apply Forall_app.
Qed.

Lemma keeps_try_catch {A} (m : M A) (h : JsError -> M A) :
  keeps_token m -> (forall e, keeps_token (h e)) -> keeps_token (try_catch m h).
Proof.
  intros Hm Hh s Ht. unfold run, try_catch. destruct (Hm s Ht) as (Ht1 & n1 & Hr1 & Hf1).
  unfold run in Ht1, Hr1. destruct (m s) as [[a|e] s1]; simpl in *; [eauto|].
  destruct (Hh e s1) as (Ht2 & n2 & Hr2 & Hf2); [by rewrite Ht1|].
  unfold run in Ht2, Hr2. split; [congruence|]. exists (n1 ++ n2).
  split; [by rewrite Hr2, Hr1, <- app_assoc|]. by apply Forall_app.
Qed.

Create HintDb keeps discriminated.
#[local] Hint Resolve keeps_ret keeps_throw keeps_get keeps_Date_now keeps_randomUA
  keeps_log keeps_noteCall keeps_suspend : keeps.

Ltac keeps_step :=
  first
    [ solve [auto 1 with keeps nocore]
    | apply keeps_axios; reflexivity
    | apply keeps_modify; intros ?; split; reflexivity
    | apply keeps_bind; [|intros ?]
    | apply keeps_try_catch; [|intros ?]
    | match goal with
      | |- keeps_token (if ?b then _ else _) => destruct b
      | |- keeps_token (match ?x with _ => _ end) => destruct x
      end
    | progress (cbv beta zeta) ].

Ltac keeps_tac := repeat keeps_step.

Lemma keeps_resolveYouTubeChannel w input : keeps_token (resolveYouTubeChannel w input).
Proof. unfold resolveYouTubeChannel. keeps_tac. Qed.
#[local] Hint Resolve keeps_resolveYouTubeChannel : keeps.

Lemma keeps_checkYouTubeLive w input : keeps_token (checkYouTubeLive w input).
Proof. unfold checkYouTubeLive. keeps_tac. Qed.

Lemma keeps_checkTikTokLive w user : keeps_token (checkTikTokLive w user).
Proof. unfold checkTikTokLive. keeps_tac. Qed.

Lemma keeps_checkKickLive w user : keeps_token (checkKickLive w user).
Proof. unfold checkKickLive, kickRateLimit, tryKickAPI, tryKickWebScraping, sleep. keeps_tac. Qed.

(** With a token in the slot the acquisition is skipped. *)
Lemma keeps_checkTwitchLive w user : keeps_token (checkTwitchLive w user).
Proof.
  intros s Ht. destruct (checkTwitchLive_holding w user s Ht) as (Htok & Hreq & _).
  split; [done|]. eexists. split; [exact Hreq|]. by apply Forall_singleton.
Qed.

Lemma keeps_validateTwitchUser w user : keeps_token (validateTwitchUser w user).
Proof.
  intros s Ht. unfold validateTwitchUser.
  destruct (TWITCH_CONFIGURED w); simpl; [|by apply keeps_ret].
  munfold. rewrite Ht. simpl.
  destruct (twitch_users w (suspensions s) user (twitchToken s)) as [[|d data]|e]; simpl;
    (split; [done|]; eexists; split; [reflexivity|]; by apply Forall_singleton).
Qed.
#[local] Hint Resolve keeps_checkYouTubeLive keeps_checkTikTokLive keeps_checkKickLive
  keeps_checkTwitchLive keeps_validateTwitchUser : keeps.

Lemma keeps_checkStreamStatus w platform user :
  keeps_token (checkStreamStatus w platform user).
Proof. unfold checkStreamStatus. keeps_tac. Qed.

Lemma keeps_sendLiveNotification w user : keeps_token (sendLiveNotification w user).
Proof. unfold sendLiveNotification. keeps_tac. Qed.

Lemma keeps_validateUser w platform user : keeps_token (validateUser w platform user).
Proof. unfold validateUser, validateYouTubeUser. keeps_tac. Qed.
#[local] Hint Resolve keeps_checkStreamStatus keeps_sendLiveNotification
  keeps_validateUser : keeps.

Lemma keeps_checkAllStreams w : keeps_token (checkAllStreams w).
Proof.
  unfold checkAllStreams, checkAllStreamsWith.
  apply keeps_bind; [apply keeps_get|]. intros s0.
  induction (monitoredUsers s0) as [|entry rest IH]; simpl; [apply keeps_ret|].
  apply keeps_bind; [|by intros _]. unfold checkEntry. keeps_tac.
Qed.

Lemma keeps_handleTrackCommand w platform user display_name :
  keeps_token (handleTrackCommand w platform user display_name).
Proof. unfold handleTrackCommand. keeps_tac. Qed.

Lemma keeps_handleRemoveCommand platform user :
  keeps_token (handleRemoveCommand platform user).
Proof. unfold handleRemoveCommand. keeps_tac. Qed.

(** X20. A token in the slot is there for good: through any sequence
    of track and remove commands and check cycles, whatever the
    platforms answer, the slot holds the same token at the end and no
    request for a new token is ever sent. *)
Theorem held_twitch_token_is_never_renewed (w : World) (ops : list Op) (s : Bot) :
  Js.truthy (twitchToken s) = true ->
  twitchToken (exec w ops s) = twitchToken s /\
  Forall (fun r => is_token_request r = false) (sent s (exec w ops s)).
Proof.
  intros Ht.
  assert (H : exists new, twitchToken (exec w ops s) = twitchToken s /\
                          requests (exec w ops s) = requests s ++ new /\
                          Forall (fun r => is_token_request (snd r) = false) new).
  { revert s Ht. unfold exec. induction ops as [|op ops IH]; intros s Ht; simpl.
    - exists []. by rewrite app_nil_r.
    - assert (Hstep : twitchToken (step w s op) = twitchToken s /\
                      exists new, requests (step w s op) = requests s ++ new /\
                        Forall (fun r => is_token_request (snd r) = false) new).
      { destruct op; simpl;
          [by apply keeps_handleTrackCommand
          |by apply keeps_handleRemoveCommand
          |by apply keeps_checkAllStreams]. }
      destruct Hstep as (Ht1 & n1 & Hr1 & Hf1).
      destruct (IH (step w s op)) as (n2 & Ht2 & Hr2 & Hf2); [by rewrite Ht1|].
      exists (n1 ++ n2). split; [congruence|].
      split; [by rewrite Hr2, Hr1, <- app_assoc|]. by apply Forall_app. }
  destruct H as (new & Htok & Hreq & Hall). split; [done|].
  rewrite (sent_app _ _ _ Hreq). by apply Forall_map.
Qed.

(** With [token-1] in the slot, an account is added on Twitch, a cycle
    runs with every streams call rejected with 401, and another cycle
    runs: the slot still holds [token-1]. *)
Lemma held_twitch_token_is_never_renewed_witness :
  let w := Examples.twitch_unauthorized in
  let ops := [Track "twitch" "ninja" None; Cycle; Track "kick" "xqc" None; Cycle] in
  twitchToken (exec w ops Examples.holding_token) = twitchToken Examples.holding_token /\
  Forall (fun r => is_token_request r = false)
         (sent Examples.holding_token (exec w ops Examples.holding_token)).
Proof.
  exact (held_twitch_token_is_never_renewed Examples.twitch_unauthorized
           [Track "twitch" "ninja" None; Cycle; Track "kick" "xqc" None; Cycle]
           Examples.holding_token eq_refl).
Defined.

(** ** What the checkers and the notification write to the console *)

Lemma silent_pure {A} (m : M A) :
  (forall s, console (run m s) = console s) -> silent m.
Proof. intros H s. exists []. by rewrite app_nil_r, H. Qed.

Lemma silent_log d : announced_checks [d] = [] -> silent (log d).
Proof. intros H s. by exists [d]. Qed.

Lemma silent_bind {A B} (m : M A) (k : A -> M B) :
  silent m -> (forall a, silent (k a)) -> silent (bind m k).
Proof.
  intros Hm Hk s. unfold run, bind. destruct (Hm s) as (n1 & Hr1 & Hf1).
  unfold run in Hr1. destruct (m s) as [[a|e] s1]; simpl in *; [|eauto].
  destruct (Hk a s1) as (n2 & Hr2 & Hf2). unfold run in Hr2.
  exists (n1 ++ n2). split; [by rewrite Hr2, Hr1, <- app_assoc|].
  by rewrite announced_checks_app, Hf1, Hf2.
Qed.

Lemma silent_try_catch {A} (m : M A) (h : JsError -> M A) :
  silent m -> (forall e, silent (h e)) -> silent (try_catch m h).
Proof.
  intros Hm Hh s. unfold run, try_catch. destruct (Hm s) as (n1 & Hr1 & Hf1).
  unfold run in Hr1. destruct (m s) as [[a|e] s1]; simpl in *; [eauto|].
  destruct (Hh e s1) as (n2 & Hr2 & Hf2). unfold run in Hr2.
  exists (n1 ++ n2). split; [by rewrite Hr2, Hr1, <- app_assoc|].
  by rewrite announced_checks_app, Hf1, Hf2.
Qed.

Ltac silent_step :=
  first
    [ apply silent_log; reflexivity
    | apply silent_bind; [|intros ?]
    | apply silent_try_catch; [|intros ?]
    | match goal with
      | |- silent (if ?b then _ else _) => destruct b
      | |- silent (match ?x with _ => _ end) => destruct x
      end
    | solve [apply silent_pure; intros ?; unfold run, axios; simpl;
             repeat match goal with
                    | |- context [match ?x with _ => _ end] => destruct x
                    end; reflexivity]
    | progress (cbv beta zeta) ].

Ltac silent_tac := repeat silent_step.

(** No checker of the repository, and not the notification, writes an
    announcement. *)
Lemma silent_checkStreamStatus w platform user :
  silent (checkStreamStatus w platform user).
Proof.
  unfold checkStreamStatus, checkYouTubeLive, resolveYouTubeChannel, checkTwitchLive,
    getTwitchToken, checkTikTokLive, checkKickLive, kickRateLimit, tryKickAPI,
    tryKickWebScraping.
  silent_tac.
Qed.

Lemma silent_sendLiveNotification w user : silent (sendLiveNotification w user).
Proof. unfold sendLiveNotification. silent_tac. Qed.

(** ** Notifications posted to the webhook *)

Lemma posted_app s s' new :
  requests s' = requests s ++ new -> posted s s' = List.filter is_webhook (List.map snd new).
Proof. intros H. unfold posted. by rewrite (requests_since_app s s' new). Qed.

Lemma filter_quiet (new : list (Z * Request)) :
  Forall (fun r => is_webhook (snd r) = false) new ->
  List.filter is_webhook (List.map snd new) = [].
Proof. induction 1 as [|r new Hr _ IH]; simpl; [done|]. by rewrite Hr. Qed.

Lemma quiet_modify (f : Bot -> Bot) :
  (forall s, requests (f s) = requests s) -> posts_nothing (modify f).
Proof.
  intros Hf s. exists []. unfold run, modify. simpl. by rewrite app_nil_r, Hf.
Qed.

Lemma quiet_ret {A} (a : A) : posts_nothing (ret a).
Proof. intros s. exists []. by rewrite app_nil_r. Qed.

Lemma quiet_throw {A} e : posts_nothing (@throw A e).
Proof. intros s. exists []. by rewrite app_nil_r. Qed.

Lemma quiet_get : posts_nothing get.
Proof. intros s. exists []. by rewrite app_nil_r. Qed.

Lemma quiet_Date_now : posts_nothing Date_now.
Proof. intros s. exists []. by rewrite app_nil_r. Qed.

Lemma quiet_randomUA w n : posts_nothing (randomUA w n).
Proof. intros s. exists []. by rewrite app_nil_r. Qed.

Lemma quiet_log d : posts_nothing (log d).
Proof. by apply quiet_modify. Qed.

Lemma quiet_suspend w ms : posts_nothing (suspend w ms).
Proof. by apply quiet_modify. Qed.

Lemma quiet_sleep w ms : posts_nothing (sleep w ms).
Proof. intros s. exists []. by rewrite app_nil_r. Qed.

Lemma quiet_axios {A} w req (answer : nat -> Axios A) :
  is_webhook req = false -> posts_nothing (axios w req answer).
Proof.
  intros Hreq s. unfold run, axios. simpl.
  destruct (answer (suspensions s)); simpl;
    (eexists; split; [reflexivity|]; by apply Forall_singleton).
Qed.

Lemma quiet_bind {A B} (m : M A) (k : A -> M B) :
  posts_nothing m -> (forall a, posts_nothing (k a)) -> posts_nothing (bind m k).
Proof.
  intros Hm Hk s. unfold run, bind. destruct (Hm s) as (n1 & Hr1 & Hf1).
  unfold run in Hr1. destruct (m s) as [[a|e] s1]; simpl in *; [|eauto].
  destruct (Hk a s1) as (n2 & Hr2 & Hf2). unfold run in Hr2.
  exists (n1 ++ n2). split; [by rewrite Hr2, Hr1, <- app_assoc|]. by apply Forall_app.
Qed.

Lemma quiet_try_catch {A} (m : M A) (h : JsError -> M A) :
  posts_nothing m -> (forall e, posts_nothing (h e)) -> posts_nothing (try_catch m h).
Proof.
  intros Hm Hh s. unfold run, try_catch. destruct (Hm s) as (n1 & Hr1 & Hf1).
  unfold run in Hr1. destruct (m s) as [[a|e] s1]; simpl in *; [eauto|].
  destruct (Hh e s1) as (n2 & Hr2 & Hf2). unfold run in Hr2.
  exists (n1 ++ n2). split; [by rewrite Hr2, Hr1, <- app_assoc|]. by apply Forall_app.
Qed.

Create HintDb quiet discriminated.
#[local] Hint Resolve quiet_ret quiet_throw quiet_get quiet_Date_now quiet_randomUA
  quiet_log quiet_suspend quiet_sleep : quiet.

Ltac quiet_step :=
  first
    [ solve [auto 1 with quiet nocore]
    | apply quiet_axios; reflexivity
    | apply quiet_modify; intros ?; reflexivity
    | apply quiet_bind; [|intros ?]
    | apply quiet_try_catch; [|intros ?]
    | match goal with
      | |- posts_nothing (if ?b then _ else _) => destruct b
      | |- posts_nothing (match ?x with _ => _ end) => destruct x
      end
    | progress (cbv beta zeta) ].

Ltac quiet_tac := repeat quiet_step.

Lemma quiet_resolveYouTubeChannel w input : posts_nothing (resolveYouTubeChannel w input).
Proof. unfold resolveYouTubeChannel. quiet_tac. Qed.
#[local] Hint Resolve quiet_resolveYouTubeChannel : quiet.

Lemma quiet_checkYouTubeLive w input : posts_nothing (checkYouTubeLive w input).
Proof. unfold checkYouTubeLive. quiet_tac. Qed.

Lemma quiet_checkTwitchLive w user : posts_nothing (checkTwitchLive w user).
Proof. unfold checkTwitchLive, getTwitchToken. quiet_tac. Qed.

Lemma quiet_checkTikTokLive w user : posts_nothing (checkTikTokLive w user).
Proof. unfold checkTikTokLive. quiet_tac. Qed.

Lemma quiet_checkKickLive w user : posts_nothing (checkKickLive w user).
Proof. unfold checkKickLive, kickRateLimit, tryKickAPI, tryKickWebScraping. quiet_tac. Qed.
#[local] Hint Resolve quiet_checkYouTubeLive quiet_checkTwitchLive quiet_checkTikTokLive
  quiet_checkKickLive : quiet.

(** No checker posts to the webhook. *)
Lemma quiet_checkStreamStatus w platform user :
  posts_nothing (checkStreamStatus w platform user).
Proof. unfold checkStreamStatus. quiet_tac. Qed.

Section Posting.

Variable w : World.
Variable check : string -> string -> M bool.
Hypothesis check_framed : forall platform user, framed (check platform user).
Hypothesis check_quiet : forall platform user, posts_nothing (check platform user).

Lemma observe_requests key user s :
  exists new, requests (snd (observe check key user s)) = requests s ++ new /\
              Forall (fun r => is_webhook (snd r) = false) new.
Proof.
  destruct (check_quiet (platform user) (username user) (reached key user s))
    as (new & Hr & Hq).
  exists new. split; [|done]. unfold observe, run in *. by rewrite Hr.
Qed.

(** What one turn of the loop posts. *)
Lemma checkEntry_posted key user s :
  posted s (run (checkEntry check (sendLiveNotification w) (key, user)) s) =
  if fires check key user s && liveEmbed_ok user then [liveWebhook user] else [].
Proof.
  unfold run. rewrite checkEntry_unfold.
  destruct (observe_requests key user s) as (new & Hr & Hq).
  pose proof (wasLive_observe check check_framed key user s) as Hw.
  unfold fires.
  destruct (observe check key user s) as [[isLive|e] s1]; simpl in *.
  - rewrite Hw. destruct isLive; simpl.
    + destruct (wasLive key s); simpl.
      * rewrite (posted_app s s1 new Hr). by apply filter_quiet.
      * rewrite sendLiveNotification_unfold. destruct (liveEmbed_ok user); simpl.
        -- erewrite posted_app;
             [|destruct (webhook w _); simpl; rewrite Hr, <- app_assoc; reflexivity].
           by rewrite map_app, List.filter_app, filter_quiet.
        -- erewrite posted_app; [|simpl; exact Hr]. by apply filter_quiet.
    + destruct (wasLive key s); simpl;
        (erewrite posted_app; [|simpl; exact Hr]); by apply filter_quiet.
  - erewrite posted_app; [|simpl; exact Hr]. by apply filter_quiet.
Qed.

Lemma checkEntry_grows entry s :
  exists new,
    requests (run (checkEntry check (sendLiveNotification w) entry) s) = requests s ++ new.
Proof.
  destruct entry as [key user]. unfold run. rewrite checkEntry_unfold.
  destruct (observe_requests key user s) as (new & Hr & _).
  destruct (observe check key user s) as [[isLive|e] s1]; simpl in *; [|eauto].
  destruct (isLive && negb (wasLive key s1)).
  - rewrite sendLiveNotification_unfold. destruct (liveEmbed_ok user); simpl; [|eauto].
    destruct (webhook w _); simpl; rewrite Hr, <- app_assoc; eauto.
  - destruct (negb isLive && wasLive key s1); simpl; eauto.
Qed.

Lemma forEntries_grows entries s :
  exists new,
    requests (run (forEntries check (sendLiveNotification w) entries) s) =
    requests s ++ new.
Proof.
  revert s. induction entries as [|entry rest IH]; intros s.
  - exists []. by rewrite app_nil_r.
  - rewrite run_forEntries_cons.
    destruct (checkEntry_grows entry s) as (n1 & H1).
    destruct (IH (run (checkEntry check (sendLiveNotification w) entry) s)) as (n2 & H2).
    exists (n1 ++ n2). by rewrite H2, H1, <- app_assoc.
Qed.

(** The posts of a cycle are those made before the turn of an entry,
    those of its turn, and those made after it. *)
Lemma posted_around_turn pre entry post s :
  monitoredUsers s = pre ++ entry :: post ->
  let notify := sendLiveNotification w in
  let before := run (forEntries check notify pre) s in
  let after := run (checkEntry check notify entry) before in
  posted s (run (checkAllStreamsWith check notify) s) =
  posted s before ++ posted_in_turn check notify pre entry s ++
  posted after (run (forEntries check notify post) after).
Proof.
  intros Hs notify before after.
  rewrite run_cycle, Hs, forEntries_app, run_forEntries_cons.
  fold notify before after. unfold posted_in_turn. fold notify before after.
  destruct (forEntries_grows pre s) as (n0 & H0). fold notify before in H0.
  destruct (checkEntry_grows entry before) as (n1 & H1). fold notify after in H1.
  destruct (forEntries_grows post after) as (n2 & H2). fold notify in H2.
  rewrite (posted_app s before n0 H0), (posted_app before after n1 H1),
    (posted_app after _ n2 H2).
  erewrite posted_app; [|rewrite H2, H1, H0, <- !app_assoc; reflexivity].
  by rewrite !map_app, !List.filter_app.
Qed.

Lemma posted_in_turn_edge pre key user s :
  key ∉ JsMap.keys pre ->
  posted_in_turn check (sendLiveNotification w) pre (key, user) s =
  match fst (observe check key user
                     (run (forEntries check (sendLiveNotification w) pre) s)) with
  | Normal true =>
      if wasLive key s then []
      else if liveEmbed_ok user then [liveWebhook user] else []
  | _ => []
  end.
Proof.
  intros Hk. unfold posted_in_turn. cbv zeta. rewrite checkEntry_posted. unfold fires.
  rewrite (wasLive_before check (sendLiveNotification w) check_framed
             (framed_sendLiveNotification w)) by done.
  destruct (fst (observe _ _ _ _)) as [[]|]; [|done|done].
  by destruct (wasLive key s).
Qed.

(** With an embed the builder refuses, a cycle leaves a stored state
    that is not [true] as it is. *)
Lemma cycle_refused_embed s pre key user post :
  monitoredUsers s = pre ++ (key, user) :: post ->
  NoDup (JsMap.keys (monitoredUsers s)) ->
  liveEmbed_ok user = false ->
  liveStatus s !! key <> Some true ->
  liveStatus (run (checkAllStreamsWith check (sendLiveNotification w)) s) !! key =
    liveStatus s !! key.
Proof.
  intros Hs Hnd Hbad Hoff. pose proof Hnd as Hnd'.
  rewrite Hs in Hnd'. apply NoDup_keys_split in Hnd' as [Hpre Hpost].
  pose proof (framed_sendLiveNotification w) as notify_framed.
  rewrite cycle_liveStatus with (pre := pre) (user := user) (post := post) by done.
  rewrite checkEntry_liveStatus by done.
  rewrite (wasLive_before check (sendLiveNotification w)) by done.
  apply wasLive_false in Hoff. rewrite Hoff.
  assert (Hkeep : liveStatus (run (forEntries check (sendLiveNotification w) pre) s) !! key =
                  liveStatus s !! key) by by apply forEntries_liveStatus_other.
  destruct (fst (observe _ _ _ _)) as [[]|]; [|done|done].
  unfold handoff. rewrite sendLiveNotification_unfold, Hbad. exact Hkeep.
Qed.

End Posting.

(** One cycle, seen from one tracked account with an embed the builder
    accepts: what its turn posts, and what a [true] observation leaves
    for the next cycle. *)
Lemma posted_edge
  (w : World) (check : string -> string -> M bool)
  (check_framed : forall platform user, framed (check platform user))
  (check_quiet : forall platform user, posts_nothing (check platform user))
  (s : Bot) (pre post : list (string * User)) (key : string) (user : User) :
  monitoredUsers s = pre ++ (key, user) :: post ->
  NoDup (JsMap.keys (monitoredUsers s)) ->
  liveEmbed_ok user = true ->
  let notify := sendLiveNotification w in
  let cycle := run (checkAllStreamsWith check notify) in
  let turn := posted_in_turn check notify pre (key, user) in
  let observed := fst (observe check key user (run (forEntries check notify pre) s)) in
  turn s =
    match observed with
    | Normal true => if wasLive key s then [] else [liveWebhook user]
    | _ => []
    end /\
  (observed = Normal true ->
   liveStatus (cycle s) !! key = Some true /\ turn (cycle s) = []).
Proof.
  intros Hs Hnd Hok notify cycle turn observed.
  pose proof (framed_sendLiveNotification w) as notify_framed.
  pose proof Hnd as Hnd'. rewrite Hs in Hnd'.
  apply NoDup_keys_split in Hnd' as [Hpre Hpost].
  assert (Hturn : forall s0,
            turn s0 =
            match fst (observe check key user (run (forEntries check notify pre) s0)) with
            | Normal true => if wasLive key s0 then [] else [liveWebhook user]
            | _ => []
            end).
  { intros s0. unfold turn, notify. rewrite posted_in_turn_edge by done. by rewrite Hok. }
  split; [apply Hturn|]. intros Ho.
  destruct (cycle_edge_triggered check notify check_framed notify_framed
              s pre post key user Hs Hnd) as (_ & _ & _ & Hstays).
  assert (Hstored : liveStatus (cycle s) !! key = Some true).
  { apply Hstays; [exact Ho|]. right.
    unfold handoff, notify. by rewrite sendLiveNotification_unfold, Hok. }
  split; [exact Hstored|].
  rewrite (Hturn (cycle s)). apply wasLive_true in Hstored. rewrite Hstored.
  by repeat case_match.
Qed.

(** X21. Edge-triggered notification, as it reaches the webhook.  Take
    any run of cycles and any tracked account whose embed the builder
    accepts (a title of at most 256 characters).  In the account's turn
    of a cycle a post goes to the webhook exactly when the stored state
    of its key before that cycle is false or absent and its check
    returns [true]; it is then one post, with the account's own title
    and link.  A cycle that finds the stored state [true] posts
    nothing; and after a [true] observation the stored state is [true],
    whether or not the post was delivered, so the account's turn of the
    next cycle posts nothing whatever it observes.  What a turn posts
    is part of what the cycle posts. *)
Theorem notification_posted_iff_edge
  (w : World) (check : string -> string -> M bool)
  (check_framed : forall platform user, framed (check platform user))
  (check_quiet : forall platform user, posts_nothing (check platform user))
  (s : Bot) (pre post : list (string * User)) (key : string) (user : User)
  (n : nat) :
  monitoredUsers s = pre ++ (key, user) :: post ->
  NoDup (JsMap.keys (monitoredUsers s)) ->
  liveEmbed_ok user = true ->
  let notify := sendLiveNotification w in
  let cycle := run (checkAllStreamsWith check notify) in
  let turn := posted_in_turn check notify pre (key, user) in
  let sn := cycles check notify n s in
  let observed := fst (observe check key user (run (forEntries check notify pre) sn)) in
  (turn sn <> [] <-> liveStatus sn !! key <> Some true /\ observed = Normal true) /\
  (turn sn = [] \/ turn sn = [liveWebhook user]) /\
  (liveStatus sn !! key = Some true -> turn sn = []) /\
  (observed = Normal true ->
   liveStatus (cycle sn) !! key = Some true /\ turn (cycle sn) = []) /\
  (exists earlier later, posted sn (cycle sn) = earlier ++ turn sn ++ later).
Proof.
  intros Hs Hnd Hok notify cycle turn sn observed.
  pose proof (framed_sendLiveNotification w) as notify_framed.
  assert (Hsn : monitoredUsers sn = pre ++ (key, user) :: post).
  { unfold sn. by rewrite cycles_monitoredUsers. }
  assert (Hndn : NoDup (JsMap.keys (monitoredUsers sn))).
  { unfold sn. by rewrite cycles_monitoredUsers. }
  destruct (posted_edge w check check_framed check_quiet sn pre post key user
              Hsn Hndn Hok) as (Hturn & Hnext).
  fold notify cycle turn observed in Hturn, Hnext.
  assert (Hpart : exists earlier later, posted sn (cycle sn) = earlier ++ turn sn ++ later).
  { pose proof (posted_around_turn w check check_quiet pre (key, user) post sn Hsn) as H.
    cbv zeta in H. fold notify cycle turn in H. eauto. }
  rewrite Hturn in *. rewrite <- wasLive_false, <- wasLive_true.
  split; [|split; [|split; [|split]]].
  - destruct observed as [[]|]; [|split; [done|intros [_ ?]; done]..].
    destruct (wasLive key sn); split; try done. by intros [? _].
  - destruct observed as [[]|]; auto. destruct (wasLive key sn); auto.
  - intros Ht. rewrite Ht. by destruct observed as [[]|].
  - exact Hnext.
  - exact Hpart.
Qed.

(** [ninja] is offline in the first cycle and live from the second on:
    the first cycle posts nothing, the second posts the notification,
    the third nothing. *)
Lemma notification_posted_iff_edge_witness :
  let w := Examples.ninja_goes_live in
  let check := checkStreamStatus w in
  let notify := sendLiveNotification w in
  let turn := posted_in_turn check notify [("kick:xqc", Examples.xqc)]
                             ("twitch:ninja", Examples.ninja) in
  let s1 := cycles check notify 1 Examples.two_offline in
  let s2 := run (checkAllStreamsWith check notify) s1 in
  turn Examples.two_offline = [] /\
  turn s1 = [liveWebhook Examples.ninja] /\
  liveStatus s2 !! "twitch:ninja" = Some true /\
  turn s2 = [].
Proof.
  intros w check notify turn s1 s2.
  split; [vm_compute; reflexivity|]. split; [vm_compute; reflexivity|].
  pose proof (notification_posted_iff_edge
                w check (framed_checkStreamStatus w) (quiet_checkStreamStatus w)
                Examples.two_offline [("kick:xqc", Examples.xqc)] []
                "twitch:ninja" Examples.ninja 1 eq_refl NoDup_two_offline eq_refl)
    as (_ & _ & _ & H).
  apply H. vm_compute. reflexivity.
Defined.

(** X11. Notifications that do not arrive.  Take a tracked account
    that is not stored as live and whose check returns [true].  When
    the builder accepts its embed, one post is sent and [true] is
    stored whether or not the post is delivered (a rejected post is
    only logged), so the next cycle posts nothing: a failed delivery is
    not tried again.  When the builder refuses the embed (a title of
    more than 256 characters), the hand-off throws before anything is
    sent and the stored state is left as it is: however many cycles
    run, nothing is ever posted for the account and it is never stored
    as live. *)
Theorem failed_delivery_is_not_retried
  (w : World) (check : string -> string -> M bool)
  (check_framed : forall platform user, framed (check platform user))
  (check_quiet : forall platform user, posts_nothing (check platform user))
  (s : Bot) (pre post : list (string * User)) (key : string) (user : User) :
  monitoredUsers s = pre ++ (key, user) :: post ->
  NoDup (JsMap.keys (monitoredUsers s)) ->
  liveStatus s !! key <> Some true ->
  let notify := sendLiveNotification w in
  let cycle := run (checkAllStreamsWith check notify) in
  let turn := posted_in_turn check notify pre (key, user) in
  (liveEmbed_ok user = true ->
   fst (observe check key user (run (forEntries check notify pre) s)) = Normal true ->
   turn s = [liveWebhook user] /\
   liveStatus (cycle s) !! key = Some true /\
   turn (cycle s) = []) /\
  (liveEmbed_ok user = false ->
   forall n,
     turn (cycles check notify n s) = [] /\
     liveStatus (cycles check notify n s) !! key = liveStatus s !! key).
Proof.
  intros Hs Hnd Hoff notify cycle turn.
  pose proof (framed_sendLiveNotification w) as notify_framed.
  pose proof Hnd as Hnd'. rewrite Hs in Hnd'.
  apply NoDup_keys_split in Hnd' as [Hpre Hpost].
  split.
  - intros Hok Ho.
    destruct (posted_edge w check check_framed check_quiet
                s pre post key user Hs Hnd Hok) as (Hturn & Hstays).
    fold notify cycle turn in Hturn, Hstays.
    split; [|apply Hstays; exact Ho].
    rewrite Hturn, Ho. apply wasLive_false in Hoff. by rewrite Hoff.
  - intros Hbad n. subst cycle turn notify.
    assert (Hkeep : liveStatus (cycles check (sendLiveNotification w) n s) !! key =
                    liveStatus s !! key).
    { induction n as [|n IH]; [done|].
      change (cycles check (sendLiveNotification w) (S n) s)
        with (run (checkAllStreamsWith check (sendLiveNotification w))
                  (cycles check (sendLiveNotification w) n s)).
      rewrite <- IH.
      apply cycle_refused_embed with (pre := pre) (user := user) (post := post);
        try done.
      - by rewrite cycles_monitoredUsers.
      - by rewrite cycles_monitoredUsers.
      - by rewrite IH. }
    split; [|exact Hkeep].
    rewrite posted_in_turn_edge by done. rewrite Hbad.
    by repeat case_match.
Qed.

(** The webhook answers 404: one post is sent in the first cycle, the
    failure is logged, and nothing is posted in the second cycle
    although [ninja] is still live. *)
Lemma failed_delivery_is_not_retried_witness :
  let w := Examples.webhook_down in
  let check := checkStreamStatus w in
  let notify := sendLiveNotification w in
  let cycle := run (checkAllStreamsWith check notify) in
  let turn := posted_in_turn check notify [("kick:xqc", Examples.xqc)]
                             ("twitch:ninja", Examples.ninja) in
  let s := Examples.two_offline in
  turn s = [liveWebhook Examples.ninja] /\
  liveStatus (cycle s) !! "twitch:ninja" = Some true /\
  turn (cycle s) = [] /\
  In LogWebhookError (console (cycle s)).
Proof.
  intros w check notify cycle turn s.
  pose proof (failed_delivery_is_not_retried
                w check (framed_checkStreamStatus w) (quiet_checkStreamStatus w)
                s [("kick:xqc", Examples.xqc)] [] "twitch:ninja" Examples.ninja
                eq_refl NoDup_two_offline ltac:(vm_compute; discriminate)) as [H _].
  destruct (H eq_refl ltac:(vm_compute; reflexivity)) as (H1 & H2 & H3).
  split; [exact H1|]. split; [exact H2|]. split; [exact H3|].
  vm_compute. tauto.
Defined.

(** C1, at the failing input.  An account is added with a display name
    of 241 characters and its stream is live.  In every cycle the check
    returns [true] and the stored state is absent, yet no notification
    is ever posted: the builder refuses the title, the hand-off throws
    before anything is sent, the loop's [catch] reports the account as
    one whose check failed, and [liveStatus] is not written, so the
    next cycle attempts the hand-off again, with the same outcome. *)
Theorem long_title_is_never_announced :
  let w := Examples.twitch_live in
  let check := checkStreamStatus w in
  let s0 := run (handleTrackCommand w "twitch" "ninja" (Some Examples.long_name))
                Examples.constructed in
  let s1 := run (checkAllStreams w) s0 in
  let s2 := run (checkAllStreams w) s1 in
  monitoredUsers s0 = [("twitch:ninja", Examples.loud)] /\
  Js.length (liveTitle Examples.loud) = 257%nat /\
  liveStatus s0 !! "twitch:ninja" = None /\
  fst (observe check "twitch:ninja" Examples.loud s0) = Normal true /\
  posted s0 s1 = [] /\
  liveStatus s1 !! "twitch:ninja" = None /\
  fst (observe check "twitch:ninja" Examples.loud s1) = Normal true /\
  posted s1 s2 = [] /\
  liveStatus s2 !! "twitch:ninja" = None /\
  List.filter is_check_error (console s2) =
    [LogErrorChecking "ninja" "twitch"; LogErrorChecking "ninja" "twitch"].
Proof. vm_compute. repeat split. Qed.

(** ** A removal that arrives during the account's check *)

(** With nothing arriving, the cycle is [checkAllStreams]. *)
Lemma amid_nil {A} (m : M A) s : amid [] m s = m s.
Proof. unfold amid. by destruct (m s). Qed.

Lemma checkEntry_amid_nil w entry s :
  checkEntry (fun platform user => amid [] (checkStreamStatus w platform user))
             (sendLiveNotification w) entry s =
  checkEntry (checkStreamStatus w) (sendLiveNotification w) entry s.
Proof.
  destruct entry as [key user]. rewrite !checkEntry_unfold. unfold observe.
  by rewrite amid_nil.
Qed.

Lemma forEntriesAmid_nil w entries s :
  (forall entry, entry ∈ entries -> JsMap.has (fst entry) (monitoredUsers s) = true) ->
  forEntriesAmid w (fun _ => []) entries s =
  forEntries (checkStreamStatus w) (sendLiveNotification w) entries s.
Proof.
  revert s. induction entries as [|entry rest IH]; intros s Hin; [done|].
  cbn [forEntriesAmid forEntries]. unfold bind, get. simpl.
  rewrite (Hin entry) by by left. rewrite checkEntry_amid_nil.
  pose proof (checkEntry_monitoredUsers (checkStreamStatus w) (sendLiveNotification w)
                (framed_checkStreamStatus w) (framed_sendLiveNotification w) entry s)
    as Hu.
  unfold run in Hu.
  destruct (checkEntry _ _ entry s) as [[[]|e] s1]; simpl in *; [|done].
  apply IH. intros e He. rewrite Hu. apply Hin. by right.
Qed.

Lemma checkAllStreamsAmid_nil w s :
  checkAllStreamsAmid w (fun _ => []) s = checkAllStreams w s.
Proof.
  unfold checkAllStreamsAmid, checkAllStreams, checkAllStreamsWith, bind, get. simpl.
  apply forEntriesAmid_nil. intros [key user] Hin. simpl.
  apply has_elem_of. unfold JsMap.keys. apply list_elem_of_In, in_map_iff.
  exists (key, user). split; [done|]. by apply list_elem_of_In.
Qed.

(** C6, at the failing input.  [ninja] is tracked and its stream is
    live.  A cycle starts, and while the check of [ninja] is awaited
    the command [/remove platform:twitch username:ninja] is handled: it
    deletes both entries.  The check then returns [true], the turn goes
    on, and [liveStatus] is written for the key of an account that is
    no longer tracked.  When the account is added again it does not
    start from an absent state: [true] is stored for it, and the next
    cycle, which finds its stream live, posts no notification. *)
Theorem remove_during_check_leaves_liveStatus :
  let w := Examples.twitch_live in
  let arrivals :=
    fun key => if String.eqb key "twitch:ninja" then [("twitch", "ninja")] else [] in
  let s0 := run (handleTrackCommand w "twitch" "ninja" None) Examples.constructed in
  let s1 := run (checkAllStreamsAmid w arrivals) s0 in
  let s2 := run (handleTrackCommand w "twitch" "ninja" None) s1 in
  let s3 := run (checkAllStreams w) s2 in
  (tracked "twitch:ninja" s0 /\ liveStatus s0 !! "twitch:ninja" = None) /\
  (~ tracked "twitch:ninja" s1 /\ posted s0 s1 = [liveWebhook Examples.ninja] /\
   liveStatus s1 !! "twitch:ninja" = Some true) /\
  (tracked "twitch:ninja" s2 /\ liveStatus s2 !! "twitch:ninja" = Some true) /\
  (fst (observe (checkStreamStatus w) "twitch:ninja" Examples.ninja s2) = Normal true /\
   posted s2 s3 = []).
Proof.
  repeat split; try (vm_compute; reflexivity). vm_compute. discriminate.
Qed.
